(** * Form validation, submission client and form controller of the
      vibe-coding landing page

    A shallow embedding of [src/utils/validation.ts], [src/utils/constants.ts]
    (the validation rules and messages), [src/utils/database.ts] (retry and
    error translation), [src/hooks/useSupabase.ts] and
    [src/hooks/useFormValidation.ts], with the properties the specification
    states about them.

    Conventions.  A JavaScript string is the list of its UTF-16 code units
    ([N]); [.length] is [length].  Program literals (error codes, messages,
    object keys) are Rocq strings.  A value of type
    [string | boolean | undefined] is a [Value]; an object is the list of its
    own properties in key order, which is the order [Object.keys] visits.
    React state is explicit state passing: every hook is a record and every
    callback a function on it; timers live in an explicit pending list. *)

From Stdlib Require Import List String Ascii NArith ZArith Arith Bool Lia.
From Stdlib Require Import DecimalString.
Import ListNotations.

Set Implicit Arguments.

(* ------------------------------------------------------------------ *)
(** ** JavaScript strings *)

Module Js.

Definition char := N.
Definition jstring := list char.

(** A literal, for readable examples. *)
Definition str (s : string) : jstring :=
  List.map N_of_ascii (list_ascii_of_string s).

Definition sp : char := 32%N.
Definition lt : char := 60%N.
Definition gt : char := 62%N.

(** ECMAScript WhiteSpace and LineTerminator code units: the set removed by
    [String.prototype.trim] and matched by the regex class [\s]. *)
Definition isSpace (c : char) : bool :=
  ((9 <=? c) && (c <=? 13) || (c =? 32) || (c =? 160) || (c =? 5760)
   || (8192 <=? c) && (c <=? 8202) || (c =? 8232) || (c =? 8233)
   || (c =? 8239) || (c =? 8287) || (c =? 12288) || (c =? 65279))%N.

Fixpoint trimStart (s : jstring) : jstring :=
  match s with
  | [] => []
  | c :: r => if isSpace c then trimStart r else s
  end.

Fixpoint trimEnd (s : jstring) : jstring :=
  match s with
  | [] => []
  | c :: r =>
      match trimEnd r with
      | [] => if isSpace c then [] else [c]
      | r' => c :: r'
      end
  end.

(** [s.trim()] *)
Definition trim (s : jstring) : jstring := trimEnd (trimStart s).

(** Case mapping of one code unit.  The embedding maps the ASCII letters and
    leaves every other code unit alone, which is what [toLowerCase] and
    [toUpperCase] do on ASCII text; statements that depend on case mapping
    are made for ASCII text ([asciiText]). *)
Definition lowerChar (c : char) : char :=
  if ((65 <=? c) && (c <=? 90))%N then (c + 32)%N else c.

Definition upperChar (c : char) : char :=
  if ((97 <=? c) && (c <=? 122))%N then (c - 32)%N else c.

Definition toLowerCase (s : jstring) : jstring := List.map lowerChar s.
Definition toUpperCase (s : jstring) : jstring := List.map upperChar s.

Definition asciiText (s : jstring) : Prop := Forall (fun c => (c < 128)%N) s.

(** [s.replace(/<[^>]*>/g, '')].  Outside a match, a [<] starts a match
    exactly when some [>] follows it (the class [[^>]*] runs up to the first
    [>]); inside a match everything up to and including that [>] is dropped. *)
Fixpoint stripFrom (inTag : bool) (s : jstring) : jstring :=
  match s with
  | [] => []
  | c :: r =>
      if inTag then
        if (c =? gt)%N then stripFrom false r else stripFrom true r
      else if ((c =? lt)%N && existsb (N.eqb gt) r)%bool then stripFrom true r
      else c :: stripFrom false r
  end.

Definition stripTags (s : jstring) : jstring := stripFrom false s.

(** [s.replace(/\s+/g, ' ')]: every maximal run of whitespace becomes one
    space.  [inWs] records that the current run has already been replaced. *)
Fixpoint collapseFrom (inWs : bool) (s : jstring) : jstring :=
  match s with
  | [] => []
  | c :: r =>
      if isSpace c then
        if inWs then collapseFrom true r else sp :: collapseFrom true r
      else c :: collapseFrom false r
  end.

Definition collapse (s : jstring) : jstring := collapseFrom false s.

(** [s.split(sep)] for a one-character separator; [''.split(' ')] is [['']]. *)
Fixpoint split (sep : char) (s : jstring) : list jstring :=
  match s with
  | [] => [[]]
  | c :: r =>
      if (c =? sep)%N then [] :: split sep r
      else match split sep r with
           | w :: ws => (c :: w) :: ws
           | [] => [[c]]
           end
  end.

(** [ws.join(sep)] *)
Fixpoint join (sep : char) (ws : list jstring) : jstring :=
  match ws with
  | [] => []
  | [w] => w
  | w :: rest => w ++ sep :: join sep rest
  end.

(** *** Regular expressions, matched against the whole string
    (every pattern of the program is anchored by [^] and [$]). *)

Inductive regex : Type :=
| Void : regex
| Eps : regex
| Class : (char -> bool) -> regex
| Seq : regex -> regex -> regex
| Alt : regex -> regex -> regex
| Star : regex -> regex.

Definition Plus (r : regex) : regex := Seq r (Star r).
Definition Opt (r : regex) : regex := Alt Eps r.

(** [r{0,n}] *)
Fixpoint UpTo (n : nat) (r : regex) : regex :=
  match n with
  | O => Eps
  | S n' => Opt (Seq r (UpTo n' r))
  end.

Fixpoint nullable (r : regex) : bool :=
  match r with
  | Void => false
  | Eps => true
  | Class _ => false
  | Seq a b => nullable a && nullable b
  | Alt a b => nullable a || nullable b
  | Star _ => true
  end.

Fixpoint deriv (c : char) (r : regex) : regex :=
  match r with
  | Void => Void
  | Eps => Void
  | Class p => if p c then Eps else Void
  | Seq a b =>
      if nullable a then Alt (Seq (deriv c a) b) (deriv c b)
      else Seq (deriv c a) b
  | Alt a b => Alt (deriv c a) (deriv c b)
  | Star a => Seq (deriv c a) (Star a)
  end.

(** [pattern.test(s)] for an anchored pattern *)
Definition test (r : regex) (s : jstring) : bool :=
  nullable (fold_left (fun r c => deriv c r) s r).

Definition inRange (lo hi : N) (c : char) : bool := ((lo <=? c) && (c <=? hi))%N.
Definition isChar (a : ascii) (c : char) : bool := (c =? N_of_ascii a)%N.

(** Truthiness of a string: only [''] is falsy. *)
Definition nonEmpty (s : jstring) : bool :=
  match s with [] => false | _ => true end.

End Js.

(* ------------------------------------------------------------------ *)
(** ** Types ([src/types/index.ts]) *)

Module Types.
Import Js.

(** [keyof FormData] *)
Inductive Field : Type :=
| K_name | K_email | K_subscribed_newsletter | K_message | K_company | K_phone.

Definition Field_eqb (a b : Field) : bool :=
  match a, b with
  | K_name, K_name | K_email, K_email
  | K_subscribed_newsletter, K_subscribed_newsletter
  | K_message, K_message | K_company, K_company | K_phone, K_phone => true
  | _, _ => false
  end.

(** The key as the program text spells it (it appears in messages). *)
Definition keyName (f : Field) : string :=
  match f with
  | K_name => "name"
  | K_email => "email"
  | K_subscribed_newsletter => "subscribed_newsletter"
  | K_message => "message"
  | K_company => "company"
  | K_phone => "phone"
  end.

(** [string | boolean | undefined] *)
Inductive Value : Type :=
| VUndefined : Value
| VBool : bool -> Value
| VString : jstring -> Value.

(** JavaScript truthiness *)
Definition truthy (v : Value) : bool :=
  match v with
  | VUndefined => false
  | VBool b => b
  | VString s => nonEmpty s
  end.

(** An object typed [FormData]: its own properties in key order. *)
Definition FormData := list (Field * Value).

(** [formData[field]]: [undefined] for an absent key. *)
Fixpoint get (o : FormData) (k : Field) : Value :=
  match o with
  | [] => VUndefined
  | (k', v) :: rest => if Field_eqb k' k then v else get rest k
  end.

(** [{ ...prev, [field]: value }] *)
Fixpoint set (o : FormData) (k : Field) (v : Value) : FormData :=
  match o with
  | [] => [(k, v)]
  | (k', v') :: rest =>
      if Field_eqb k' k then (k', v) :: rest else (k', v') :: set rest k v
  end.

Record ValidationError : Type := mkError {
  field : Field;
  message : string;
  code : string
}.

Record ValidationResult : Type := mkResult {
  isValid : bool;
  errors : list ValidationError
}.

End Types.

(* ------------------------------------------------------------------ *)
(** ** Constants ([src/utils/constants.ts]) *)

Module Constants.
Import Js Types.

Record Rules : Type := mkRules {
  minLength : option nat;
  maxLength : option nat;
  pattern : option regex;
  required : bool
}.

(** [/^[a-zA-Z\s'-]+$/] *)
Definition namePattern : regex :=
  Plus (Class (fun c => inRange 97 122 c || inRange 65 90 c || isSpace c
                        || isChar "'" c || isChar "-" c)).

(** [/^[^\s@]+@[^\s@]+\.[^\s@]+$/] *)
Definition emailPattern : regex :=
  let other := Class (fun c => negb (isSpace c || isChar "@" c)) in
  Seq (Plus other)
      (Seq (Class (isChar "@"))
           (Seq (Plus other) (Seq (Class (isChar ".")) (Plus other)))).

(** [/^[\+]?[1-9][\d]{0,15}$/] *)
Definition phonePattern : regex :=
  Seq (Opt (Class (isChar "+")))
      (Seq (Class (inRange 49 57)) (UpTo 15 (Class (inRange 48 57)))).

(** [VALIDATION_RULES[field]]; there is no entry for
    [subscribed_newsletter]. *)
Definition VALIDATION_RULES (f : Field) : option Rules :=
  match f with
  | K_name => Some (mkRules (Some 2) (Some 50) (Some namePattern) true)
  | K_email => Some (mkRules (Some 5) (Some 254) (Some emailPattern) true)
  | K_message => Some (mkRules (Some 10) (Some 1000) None false)
  | K_company => Some (mkRules (Some 2) (Some 100) None false)
  | K_phone => Some (mkRules None None (Some phonePattern) false)
  | K_subscribed_newsletter => None
  end.

Definition showNat (n : nat) : string := NilZero.string_of_uint (Nat.to_uint n).

Module ERROR_MESSAGES.
Definition required (f : string) : string := f ++ " is required".
Definition minLength (f : string) (min : nat) : string :=
  f ++ " must be at least " ++ showNat min ++ " characters long".
Definition maxLength (f : string) (max : nat) : string :=
  f ++ " must be no more than " ++ showNat max ++ " characters long".
Definition invalidEmail : string := "Please enter a valid email address".
Definition invalidPhone : string := "Please enter a valid phone number".
Definition invalidName : string :=
  "Name can only contain letters, spaces, hyphens, and apostrophes".
Definition invalidFormat (f : string) : string := "Invalid " ++ f ++ " format".
End ERROR_MESSAGES.

End Constants.

(* ------------------------------------------------------------------ *)
(** ** Validation and sanitization ([src/utils/validation.ts]) *)

Module Validation.
Import Js Types Constants.

(** [sanitizeInput]: the guard [!input || typeof input !== 'string'], then
    trim, tag removal, whitespace normalisation. *)
Definition sanitizeInput (input : Value) : jstring :=
  match input with
  | VString s =>
      if nonEmpty s then collapse (stripTags (trim s)) else []
  | _ => []
  end.

Definition sanitizeEmail (email : Value) : jstring :=
  match email with
  | VString s => if nonEmpty s then toLowerCase (trim s) else []
  | _ => []
  end.

(** [word.charAt(0).toUpperCase() + word.slice(1).toLowerCase()] *)
Definition capitalize (word : jstring) : jstring :=
  match word with
  | [] => []
  | c :: rest => upperChar c :: toLowerCase rest
  end.

Definition sanitizeName (name : Value) : jstring :=
  match name with
  | VString s =>
      if nonEmpty s then
        let sanitized := sanitizeInput name in
        join sp (List.map capitalize (split sp sanitized))
      else []
  | _ => []
  end.

(** The three error shapes of [validateField] that carry a rule. *)
Definition requiredError (f : Field) : ValidationError :=
  mkError f (ERROR_MESSAGES.required (keyName f)) "REQUIRED_FIELD".
Definition minLengthError (f : Field) (min : nat) : ValidationError :=
  mkError f (ERROR_MESSAGES.minLength (keyName f) min) "MIN_LENGTH".
Definition maxLengthError (f : Field) (max : nat) : ValidationError :=
  mkError f (ERROR_MESSAGES.maxLength (keyName f) max) "MAX_LENGTH".
Definition patternError (f : Field) : ValidationError :=
  mkError f
    (match f with
     | K_email => ERROR_MESSAGES.invalidEmail
     | K_phone => ERROR_MESSAGES.invalidPhone
     | K_name => ERROR_MESSAGES.invalidName
     | _ => ERROR_MESSAGES.invalidFormat (keyName f)
     end)
    "INVALID_PATTERN".
Definition invalidFieldError (f : Field) : ValidationError :=
  mkError f (ERROR_MESSAGES.invalidFormat (keyName f)) "INVALID_FIELD".

(** ['minLength' in rules && rules.minLength && len < rules.minLength] *)
Definition belowMin (rules : Rules) (len : nat) : option nat :=
  match minLength rules with
  | Some m => if negb (m =? 0) && (len <? m) then Some m else None
  | None => None
  end.

(** ['maxLength' in rules && rules.maxLength && len > rules.maxLength] *)
Definition aboveMax (rules : Rules) (len : nat) : option nat :=
  match maxLength rules with
  | Some m => if negb (m =? 0) && (m <? len) then Some m else None
  | None => None
  end.

(** ['pattern' in rules && rules.pattern && !rules.pattern.test(v)] *)
Definition failsPattern (rules : Rules) (v : jstring) : bool :=
  match pattern rules with
  | Some p => negb (test p v)
  | None => false
  end.

Definition validateField (field : Field) (value : Value)
  : option ValidationError :=
  match VALIDATION_RULES field with
  | None => Some (invalidFieldError field)
  | Some rules =>
      match value with
      | VBool _ => None
      | VUndefined =>
          if required rules then Some (requiredError field) else None
      | VString stringValue =>
          let trimmedValue := trim stringValue in
          if required rules && negb (nonEmpty trimmedValue) then
            Some (requiredError field)
          else if negb (required rules) && negb (nonEmpty trimmedValue) then
            None
          else
            match belowMin rules (List.length trimmedValue) with
            | Some m => Some (minLengthError field m)
            | None =>
                match aboveMax rules (List.length trimmedValue) with
                | Some m => Some (maxLengthError field m)
                | None =>
                    if failsPattern rules trimmedValue
                    then Some (patternError field)
                    else None
                end
            end
      end
  end.

(** [Object.keys(formData).forEach(...)], pushing each error in turn *)
Fixpoint collectErrors (formData : FormData) (props : FormData)
  : list ValidationError :=
  match props with
  | [] => []
  | (key, _) :: rest =>
      match validateField key (get formData key) with
      | Some error => error :: collectErrors formData rest
      | None => collectErrors formData rest
      end
  end.

Definition validateFormData (formData : FormData) : ValidationResult :=
  let errors := collectErrors formData formData in
  mkResult (Nat.eqb (List.length errors) 0) errors.

Definition sanitizeFormData (formData : FormData) : FormData :=
  let optional k :=
    if truthy (get formData k)
    then VString (sanitizeInput (get formData k)) else VUndefined in
  [ (K_name, VString (sanitizeName (get formData K_name)));
    (K_email, VString (sanitizeEmail (get formData K_email)));
    (K_subscribed_newsletter, get formData K_subscribed_newsletter);
    (K_message, optional K_message);
    (K_company, optional K_company);
    (K_phone, optional K_phone) ].

(** [{ ...validationResult, sanitizedData }] *)
Record Validated : Type := mkValidated {
  v_isValid : bool;
  v_errors : list ValidationError;
  sanitizedData : FormData
}.

Definition validateAndSanitizeFormData (formData : FormData) : Validated :=
  let sanitizedData := sanitizeFormData formData in
  let validationResult := validateFormData sanitizedData in
  mkValidated (isValid validationResult) (errors validationResult) sanitizedData.

(** [isValidEmail]: the pattern on the trimmed value, nothing else. *)
Definition isValidEmail (email : Value) : bool :=
  match email with
  | VString s => if nonEmpty s then test emailPattern (trim s) else false
  | _ => false
  end.

(** [isValidName] *)
Definition isValidName (name : Value) : bool :=
  match name with
  | VString s =>
      if nonEmpty s then
        let trimmedName := trim s in
        (2 <=? List.length trimmedName) && (List.length trimmedName <=? 50)
        && test namePattern trimmedName
      else false
  | _ => false
  end.

(** [isValidPhone]: an optional field, so a falsy or blank value is valid. *)
Definition isValidPhone (phone : Value) : bool :=
  match phone with
  | VString s =>
      if nonEmpty s then
        let trimmedPhone := trim s in
        if nonEmpty trimmedPhone then test phonePattern trimmedPhone else true
      else true
  | _ => true
  end.

(** [isValidMessage] *)
Definition isValidMessage (message : Value) : bool :=
  match message with
  | VString s =>
      if nonEmpty s then
        let trimmedMessage := trim s in
        if nonEmpty trimmedMessage then
          (10 <=? List.length trimmedMessage)
          && (List.length trimmedMessage <=? 1000)
        else true
      else true
  | _ => true
  end.

(** [isValidCompany] *)
Definition isValidCompany (company : Value) : bool :=
  match company with
  | VString s =>
      if nonEmpty s then
        let trimmedCompany := trim s in
        if nonEmpty trimmedCompany then
          (2 <=? List.length trimmedCompany)
          && (List.length trimmedCompany <=? 100)
        else true
      else true
  | _ => true
  end.

(** [isEmpty]: [!value || typeof value !== 'string' || value.trim() === ''] *)
Definition isEmpty (value : Value) : bool :=
  match value with
  | VString s => negb (nonEmpty s) || negb (nonEmpty (trim s))
  | _ => true
  end.

Definition isNotEmpty (value : Value) : bool := negb (isEmpty value).

End Validation.

(* ------------------------------------------------------------------ *)
(** ** Submission client ([src/utils/database.ts]) *)

Module Database.
Import Js Types.
Local Open Scope string_scope.

Record RetryConfig : Type := mkRetry {
  maxAttempts : nat;
  delayMs : Z;
  backoffMultiplier : Z
}.

Definition DEFAULT_RETRY_CONFIG : RetryConfig := mkRetry 3 1000 2.

(** What an awaited promise settles to. *)
Inductive Settled (E T : Type) : Type :=
| Resolved : T -> Settled E T
| Rejected : E -> Settled E T.
Arguments Resolved {E T} _.
Arguments Rejected {E T} _.

(** The observable effects of a client call, in order: an invocation of the
    retried function (numbered by attempt) and a [delay(ms)]. *)
Inductive Effect : Type :=
| Call : nat -> Effect
| Sleep : Z -> Effect.

Definition isCall (e : Effect) : bool :=
  match e with Call _ => true | Sleep _ => false end.

Definition calls (tr : list Effect) : nat := List.length (filter isCall tr).

Fixpoint delays (tr : list Effect) : list Z :=
  match tr with
  | [] => []
  | Sleep ms :: rest => ms :: delays rest
  | Call _ :: rest => delays rest
  end.

Section WithRetry.
Variables E T : Type.
(** [fn k]: what the [k]-th invocation of the retried function does. *)
Variable fn : nat -> Settled E T.
Variable config : RetryConfig.

(** [config.delayMs * Math.pow(config.backoffMultiplier, attempt - 1)] *)
Definition delayTime (attempt : nat) : Z :=
  (delayMs config * backoffMultiplier config ^ Z.of_nat (attempt - 1))%Z.

(** The [for] loop of [withRetry].  [remaining] is
    [maxAttempts + 1 - attempt], so [remaining = 0] is the loop test
    [attempt <= config.maxAttempts] failing, after which [lastError] is
    thrown ([None] is the unassigned variable). *)
Fixpoint retryLoop (remaining attempt : nat) (lastError : option E)
  : Settled (option E) T * list Effect :=
  match remaining with
  | O => (Rejected lastError, [])
  | S remaining' =>
      match fn attempt with
      | Resolved v => (Resolved v, [Call attempt])
      | Rejected error =>
          if Nat.eqb attempt (maxAttempts config) then
            (Rejected (Some error), [Call attempt])
          else
            let (r, tr) := retryLoop remaining' (S attempt) (Some error) in
            (r, Call attempt :: Sleep (delayTime attempt) :: tr)
      end
  end.

Definition withRetry : Settled (option E) T * list Effect :=
  retryLoop (maxAttempts config) 1 None.

(** The effects of [n] failed attempts that are each followed by a delay. *)
Fixpoint backoffFrom (attempt n : nat) : list Effect :=
  match n with
  | O => []
  | S n' => Call attempt :: Sleep (delayTime attempt)
            :: backoffFrom (S attempt) n'
  end.
End WithRetry.

(** A JavaScript [Error], by its message. *)
Record JsError : Type := mkJsError { errMessage : string }.

(** The [PostgrestError] object a response carries. *)
Record PostgrestError : Type := mkPostgrest {
  pgCode : string;
  pgMessage : string
}.

(** What the retried function can throw: [PostgrestError | Error]. *)
Inductive Thrown : Type :=
| ThrownError : JsError -> Thrown
| ThrownPostgrest : PostgrestError -> Thrown.

Definition handleDatabaseError (error : Thrown) : JsError :=
  match error with
  | ThrownError e => e
  | ThrownPostgrest postgrestError =>
      let c := pgCode postgrestError in
      if String.eqb c "23505" then mkJsError "This email is already registered"
      else if String.eqb c "23502" then mkJsError "Required fields are missing"
      else if String.eqb c "23503" then mkJsError "Referenced record does not exist"
      else if String.eqb c "42P01" then mkJsError "Database table not found"
      else if String.eqb c "42501" then mkJsError "Insufficient database privileges"
      else mkJsError (if String.eqb (pgMessage postgrestError) ""
                      then "Database operation failed"
                      else pgMessage postgrestError)
  end.

(** A row of [interest_submissions]. *)
Record InterestSubmission : Type := mkRow {
  row_id : string;
  row_name : Value;
  row_email : Value;
  row_subscribed_newsletter : Value;
  row_message : Value;
  row_company : Value;
  row_phone : Value;
  row_source : string;
  row_submitted_at : string
}.

Record DatabaseResult (T : Type) : Type := mkDb {
  data : option T;
  error : option JsError;
  success : bool
}.

(** The [{ data, error }] of one insert request. *)
Record Response : Type := mkResponse {
  resp_data : option InterestSubmission;
  resp_error : option PostgrestError
}.

(** The world [submitInterestForm] runs in: whether the client is
    configured, what the [k]-th insert request of this call settles to (the
    store's answer, or an exception of the transport), and the readings of
    [Date.now()] and [new Date().toISOString()]. *)
Record Env : Type := mkEnv {
  isSupabaseConfigured : bool;
  insert : InterestSubmission -> nat -> Settled JsError Response;
  dateNow : string;
  isoNow : string
}.

(** The function handed to [withRetry]: await the request, throw the
    response's error, else return its data. *)
Definition insertOnce (env : Env) (submissionData : InterestSubmission)
  (k : nat) : Settled Thrown (option InterestSubmission) :=
  match insert env submissionData k with
  | Rejected e => Rejected (ThrownError e)
  | Resolved r =>
      match resp_error r with
      | Some e => Rejected (ThrownPostgrest e)
      | None => Resolved (resp_data r)
      end
  end.

(** [submitInterestForm(formData, source)].  The result is what the promise
    settles to together with the effects performed.  The [catch] block reads
    [error.code]; were the thrown value [undefined] that read would itself
    throw, which is the [Rejected] outcome. *)
Definition submitInterestForm (env : Env) (formData : FormData)
  (source : string)
  : Settled JsError (DatabaseResult InterestSubmission) * list Effect :=
  if negb (isSupabaseConfigured env) then
    let mockSubmission :=
      mkRow ("mock-" ++ dateNow env)
            (get formData K_name) (get formData K_email)
            (if truthy (get formData K_subscribed_newsletter)
             then get formData K_subscribed_newsletter else VBool false)
            (get formData K_message) (get formData K_company)
            (get formData K_phone) source (isoNow env) in
    (Resolved (mkDb (Some mockSubmission) None true), [Sleep 1000])
  else
    let submissionData :=
      mkRow "" (get formData K_name) (get formData K_email)
            (get formData K_subscribed_newsletter)
            (get formData K_message) (get formData K_company)
            (get formData K_phone) source (isoNow env) in
    match withRetry (insertOnce env submissionData) DEFAULT_RETRY_CONFIG with
    | (Resolved result, tr) => (Resolved (mkDb result None true), tr)
    | (Rejected (Some error), tr) =>
        (Resolved (mkDb None (Some (handleDatabaseError error)) false), tr)
    | (Rejected None, tr) =>
        (Rejected (mkJsError "Cannot read properties of undefined"), tr)
    end.

(** *** The other operations of the client *)

(** [checkEmailExists]: the [{ data, error }] of the one-row select; [data]
    is the row found, or [null]. *)
Record SelectResponse : Type := mkSelect {
  sel_data : option jstring;
  sel_error : option PostgrestError
}.

(** The [{ count, error }] of a head-only count request. *)
Record CountResponse : Type := mkCount {
  cnt_count : option nat;
  cnt_error : option PostgrestError
}.

(** The [{ data }] of [select('source')]: the source of every row. *)
Record SourcesResponse : Type := mkSources {
  src_data : option (list string);
  src_error : option PostgrestError
}.

(** A filter added to the count query. *)
Inductive Constraint : Type :=
| EqSource : string -> Constraint
| EqNewsletter : bool -> Constraint
| GteSubmittedAt : string -> Constraint
| LteSubmittedAt : string -> Constraint.

(** What the read operations ask the store: each request is given the
    number of the attempt it belongs to. *)
Record ReadEnv : Type := mkReadEnv {
  readConfigured : bool;
  selectEmail : jstring -> nat -> Settled JsError SelectResponse;
  countWhere : list Constraint -> nat -> Settled JsError CountResponse;
  selectSources : nat -> Settled JsError SourcesResponse;
  monthStart : string
}.

Definition jstring_eqb (a b : jstring) : bool :=
  if list_eq_dec N.eq_dec a b then true else false.

(** [list.includes(s)] *)
Definition includes (l : list jstring) (s : jstring) : bool :=
  existsb (jstring_eqb s) l.

Definition mockExistingEmails : list jstring :=
  [str "test@example.com"; str "demo@example.com"; str "admin@example.com"].

Definition isSome (A : Type) (o : option A) : bool :=
  match o with Some _ => true | None => false end.

(** The function [checkEmailExists] hands to [withRetry]. *)
Definition selectOnce (env : ReadEnv) (email : jstring) (k : nat)
  : Settled Thrown bool :=
  match selectEmail env (toLowerCase email) k with
  | Rejected e => Rejected (ThrownError e)
  | Resolved r =>
      match sel_error r with
      | Some e =>
          if negb (String.eqb (pgCode e) "PGRST116")
          then Rejected (ThrownPostgrest e)
          else Resolved (isSome (sel_data r))
      | None => Resolved (isSome (sel_data r))
      end
  end.

(** The common tail of the read operations: wrap what [withRetry] gave. *)
Definition wrapResult (T : Type)
  (r : Settled (option Thrown) T * list Effect)
  : Settled JsError (DatabaseResult T) * list Effect :=
  match r with
  | (Resolved result, tr) => (Resolved (mkDb (Some result) None true), tr)
  | (Rejected (Some error), tr) =>
      (Resolved (mkDb None (Some (handleDatabaseError error)) false), tr)
  | (Rejected None, tr) =>
      (Rejected (mkJsError "Cannot read properties of undefined"), tr)
  end.

Definition checkEmailExists (env : ReadEnv) (email : jstring)
  : Settled JsError (DatabaseResult bool) * list Effect :=
  if negb (readConfigured env) then
    let exists_ := includes mockExistingEmails (toLowerCase email) in
    (Resolved (mkDb (Some exists_) None true), [Sleep 500])
  else
    wrapResult (withRetry (selectOnce env email) DEFAULT_RETRY_CONFIG).

(** The optional [filters] of [getSubmissionCount]; [None] is a property
    left [undefined]. *)
Record CountFilters : Type := mkFilters {
  f_source : option string;
  f_subscribed_newsletter : option bool;
  f_dateFrom : option string;
  f_dateTo : option string
}.

(** A string property that is present and not empty. *)
Definition truthyString (o : option string) : option string :=
  match o with
  | Some s => if String.eqb s "" then None else Some s
  | None => None
  end.

(** The query [getSubmissionCount] builds, filter by filter. *)
Definition buildCountQuery (filters : option CountFilters) : list Constraint :=
  match filters with
  | None => []
  | Some f =>
      (match truthyString (f_source f) with
       | Some s => [EqSource s] | None => [] end)
      ++ (match f_subscribed_newsletter f with
          | Some b => [EqNewsletter b] | None => [] end)
      ++ (match truthyString (f_dateFrom f) with
          | Some s => [GteSubmittedAt s] | None => [] end)
      ++ (match truthyString (f_dateTo f) with
          | Some s => [LteSubmittedAt s] | None => [] end)
  end.

(** [count || 0] *)
Definition orZero (o : option nat) : nat :=
  match o with Some n => n | None => 0 end.

Definition countOnce (env : ReadEnv) (query : list Constraint) (k : nat)
  : Settled Thrown nat :=
  match countWhere env query k with
  | Rejected e => Rejected (ThrownError e)
  | Resolved r =>
      match cnt_error r with
      | Some e => Rejected (ThrownPostgrest e)
      | None => Resolved (orZero (cnt_count r))
      end
  end.

Definition getSubmissionCount (env : ReadEnv) (filters : option CountFilters)
  : Settled JsError (DatabaseResult nat) * list Effect :=
  if negb (readConfigured env) then
    (Resolved (mkDb (Some 42) None true), [Sleep 300])
  else
    wrapResult (withRetry (countOnce env (buildCountQuery filters))
                          DEFAULT_RETRY_CONFIG).

(** A property of the object [sources] built by [getSubmissionStats].  For
    an ordinary key it is a number.  For a key that [Object.prototype]
    defines, the first read finds the inherited function or object, [+ 1]
    turns it into text, and every later [+ 1] appends to that text:
    [Appended j] is the text of the inherited value followed by [j]
    characters [1]. *)
Inductive SourceEntry : Type :=
| Count : nat -> SourceEntry
| Appended : nat -> SourceEntry.

(** The property names of [Object.prototype]. *)
Definition objectPrototypeKeys : list string :=
  [ "constructor"; "hasOwnProperty"; "isPrototypeOf"; "propertyIsEnumerable";
    "toLocaleString"; "toString"; "valueOf"; "__defineGetter__";
    "__defineSetter__"; "__lookupGetter__"; "__lookupSetter__"; "__proto__" ].

Definition inherited (k : string) : bool :=
  existsb (String.eqb k) objectPrototypeKeys.

(** The own property [k] of the object, kept as the list of its own
    properties in the order they were created. *)
Fixpoint ownEntry (m : list (string * SourceEntry)) (k : string)
  : option SourceEntry :=
  match m with
  | [] => None
  | (k', e) :: rest => if String.eqb k' k then Some e else ownEntry rest k
  end.

(** Writing the own property [k]. *)
Fixpoint putOwn (k : string) (e : SourceEntry) (m : list (string * SourceEntry))
  : list (string * SourceEntry) :=
  match m with
  | [] => [(k, e)]
  | (k', e') :: rest =>
      if String.eqb k' k then (k', e) :: rest else (k', e') :: putOwn k e rest
  end.

(** [(x || 0) + 1] for an own property [x] *)
Definition plusOne (e : SourceEntry) : SourceEntry :=
  match e with
  | Count n => Count (S n)
  | Appended j => Appended (S j)
  end.

(** What the own property [k] is after
    [sources[k] = (sources[k] || 0) + 1], given what it was.  Without an own
    property the read goes to the prototype; the text written to
    [__proto__] goes to the setter of the prototype, which ignores a value
    that is not an object, and creates no property. *)
Definition bumped (k : string) (own : option SourceEntry)
  : option SourceEntry :=
  match own with
  | Some e => Some (plusOne e)
  | None =>
      if String.eqb k "__proto__" then None
      else if inherited k then Some (Appended 1)
      else Some (Count 1)
  end.

(** [sources[item.source] = (sources[item.source] || 0) + 1] *)
Definition bump (k : string) (m : list (string * SourceEntry))
  : list (string * SourceEntry) :=
  match bumped k (ownEntry m k) with
  | Some e => putOwn k e m
  | None => m
  end.

(** [sourcesData?.forEach(...)] *)
Definition countSources (sourcesData : option (list string))
  : list (string * SourceEntry) :=
  match sourcesData with
  | Some rows => fold_left (fun m item => bump item m) rows []
  | None => []
  end.

(** [sources[k]] where it is an own property holding a number *)
Definition sourceCount (m : list (string * SourceEntry)) (k : string)
  : option nat :=
  match ownEntry m k with
  | Some (Count n) => Some n
  | _ => None
  end.

(** The sum of the numbers of a breakdown. *)
Definition sumCounts (m : list (string * SourceEntry)) : nat :=
  fold_right (fun kv acc => match snd kv with
                            | Count n => n + acc
                            | Appended _ => acc
                            end) 0 m.

Record Stats : Type := mkStats {
  total : nat;
  newsletterSubscribers : nat;
  thisMonth : nat;
  sources : list (string * SourceEntry)
}.

(** The function [getSubmissionStats] hands to [withRetry]: four requests in
    a row.  Only [count] and [data] are read from the answers; an [error]
    in an answer is not looked at, so nothing is thrown unless a request
    itself fails. *)
Definition statsOnce (env : ReadEnv) (k : nat) : Settled Thrown Stats :=
  match countWhere env [] k with
  | Rejected e => Rejected (ThrownError e)
  | Resolved t =>
    match countWhere env [EqNewsletter true] k with
    | Rejected e => Rejected (ThrownError e)
    | Resolved n =>
      match countWhere env [GteSubmittedAt (monthStart env)] k with
      | Rejected e => Rejected (ThrownError e)
      | Resolved m =>
        match selectSources env k with
        | Rejected e => Rejected (ThrownError e)
        | Resolved s =>
            Resolved (mkStats (orZero (cnt_count t)) (orZero (cnt_count n))
                              (orZero (cnt_count m))
                              (countSources (src_data s)))
        end
      end
    end
  end.

Definition mockStats : Stats :=
  mkStats 42 28 12
          [ ("landing_page", Count 25); ("hero_section", Count 10);
            ("api", Count 7) ].

Definition getSubmissionStats (env : ReadEnv)
  : Settled JsError (DatabaseResult Stats) * list Effect :=
  if negb (readConfigured env) then
    (Resolved (mkDb (Some mockStats) None true), [Sleep 400])
  else
    wrapResult (withRetry (statsOnce env) DEFAULT_RETRY_CONFIG).

(** [ApiResponse<T>]; the field of an error is a plain string here, since
    [toApiResponse] writes ['general'] into it. *)
Record ApiError : Type := mkApiError {
  ae_field : string;
  ae_message : string;
  ae_code : string
}.

Record ApiResponse (T : Type) : Type := mkApi {
  api_success : bool;
  api_data : option T;
  api_message : string;
  api_errors : option (list ApiError);
  api_timestamp : string;
  api_status : nat
}.

(** [x || fallback] on strings *)
Definition orElse (s fallback : string) : string :=
  if String.eqb s "" then fallback else s.

(** [toApiResponse(result)]; [truthyT] is the truthiness of a [T]. *)
Definition toApiResponse (T : Type) (truthyT : T -> bool) (isoNow : string)
  (result : DatabaseResult T) : ApiResponse T :=
  let fallback :=
    if success result then "Operation successful" else "Operation failed" in
  mkApi (success result)
        (match data result with
         | Some d => if truthyT d then Some d else None
         | None => None
         end)
        (match error result with
         | Some e => orElse (errMessage e) fallback
         | None => fallback
         end)
        (match error result with
         | Some e => Some [mkApiError "general" (errMessage e) "DATABASE_ERROR"]
         | None => None
         end)
        isoNow
        (if success result then 200 else 500).

End Database.

(* ------------------------------------------------------------------ *)
(** ** Timers ([setTimeout] / [clearTimeout]) *)

Module Timers.
Section Queue.
(** [C] is the type of the scheduled callbacks. *)
Variable C : Type.

Record Timer : Type := mkTimer { tid : nat; due : nat; callback : C }.

(** The clock in milliseconds, the next timer id (ids start at 1, so a
    stored id is always truthy) and the timers not yet fired or cleared,
    in creation order. *)
Record Queue : Type := mkQueue {
  now : nat;
  nextId : nat;
  pending : list Timer
}.

Definition emptyQueue : Queue := mkQueue 0 1 [].

Definition setTimeout (q : Queue) (cb : C) (delay : nat) : nat * Queue :=
  (nextId q,
   mkQueue (now q) (S (nextId q))
           (pending q ++ [mkTimer (nextId q) (now q + delay) cb])).

Definition clearTimeout (q : Queue) (id : nat) : Queue :=
  mkQueue (now q) (nextId q)
          (filter (fun t => negb (tid t =? id)) (pending q)).

(** [clearTimeout(ref.current)] under the guard [if (ref.current)]. *)
Definition clearRef (q : Queue) (ref : option nat) : Queue :=
  match ref with
  | Some id => clearTimeout q id
  | None => q
  end.

Fixpoint insertByDue (t : Timer) (l : list Timer) : list Timer :=
  match l with
  | [] => [t]
  | u :: rest =>
      if due t <? due u then t :: l else u :: insertByDue t rest
  end.

(** Earliest first; timers due together keep their creation order. *)
Definition sortByDue (l : list Timer) : list Timer :=
  fold_left (fun acc t => insertByDue t acc) l [].

(** The timers that fire when the clock reaches [t], in firing order. *)
Definition ready (q : Queue) (t : nat) : list Timer :=
  sortByDue (filter (fun tm => due tm <=? t) (pending q)).

Definition later (q : Queue) (t : nat) : list Timer :=
  filter (fun tm => negb (due tm <=? t)) (pending q).

Definition atTime (q : Queue) (t : nat) : Queue :=
  mkQueue t (nextId q) (pending q).
End Queue.
End Timers.

(* ------------------------------------------------------------------ *)
(** ** [useFormSubmission] ([src/hooks/useSupabase.ts]) *)

Module FormSubmission.
Import Js Types Database Timers.
Local Open Scope string_scope.
Local Open Scope list_scope.

Record Options : Type := mkOptions {
  autoReset : option bool;     (* [undefined] is [None] *)
  resetDelay : option nat
}.

Record State : Type := mkState {
  loading : bool;
  success : bool;
  error : option string;
  data : option InterestSubmission
}.

Definition initialState : State := mkState false false None None.

(** The only callback this hook schedules is [reset]. *)
Inductive Callback : Type := CbReset.

(** What the caller's [onSuccess] / [onError] were told. *)
Inductive Notice : Type :=
| NoticeSuccess : InterestSubmission -> Notice
| NoticeError : string -> Notice.

Record Hook : Type := mkHook {
  options : Options;
  state : State;
  resetTimeoutRef : option nat;
  queue : Queue Callback;
  (** every [submitInterestForm(formData, source)] started so far *)
  submitted : list (FormData * string);
  notices : list Notice
}.

Definition mount (o : Options) : Hook :=
  mkHook o initialState None (emptyQueue Callback) [] [].

Definition withState (h : Hook) (s : State) : Hook :=
  mkHook (options h) s (resetTimeoutRef h) (queue h) (submitted h) (notices h).

(** [reset] *)
Definition reset (h : Hook) : Hook := withState h initialState.

(** [submit], up to its [await]: the state update and the call of
    [submitInterestForm]. *)
Definition submit (formData : FormData) (source : string) (h : Hook) : Hook :=
  let s := state h in
  mkHook (options h) (mkState true false None (data s))
         (resetTimeoutRef h) (queue h)
         (submitted h ++ [(formData, source)]) (notices h).

(** [options.resetDelay || 5000] *)
Definition delayOf (o : Options) : nat :=
  match resetDelay o with
  | Some (S d) => S d
  | _ => 5000
  end.

(** [options.autoReset !== false] *)
Definition autoResets (o : Options) : bool :=
  match autoReset o with
  | Some false => false
  | _ => true
  end.

Definition fail (msg : string) (h : Hook) : Hook :=
  mkHook (options h) (mkState false false (Some msg) None)
         (resetTimeoutRef h) (queue h) (submitted h)
         (notices h ++ [NoticeError msg]).

(** [submit], after the [await]: [outcome] is what [submitInterestForm]
    settled to. *)
Definition submitSettled
  (outcome : Settled JsError (DatabaseResult InterestSubmission)) (h : Hook)
  : Hook :=
  match outcome with
  | Resolved result =>
      match Database.success result, Database.data result with
      | true, Some row =>
          let s := mkState false true None (Some row) in
          let n := notices h ++ [NoticeSuccess row] in
          if autoResets (options h) then
            let (id, q) := setTimeout (queue h) CbReset (delayOf (options h)) in
            mkHook (options h) s (Some id) q (submitted h) n
          else
            mkHook (options h) s (resetTimeoutRef h) (queue h) (submitted h) n
      | _, _ =>
          fail (match Database.error result with
                | Some e => if String.eqb (errMessage e) ""
                            then "Form submission failed" else errMessage e
                | None => "Form submission failed"
                end) h
      end
  | Rejected e => fail (errMessage e) h
  end.

Definition runCallback (cb : Callback) (h : Hook) : Hook :=
  match cb with CbReset => reset h end.

Definition withQueue (h : Hook) (q : Queue Callback) : Hook :=
  mkHook (options h) (state h) (resetTimeoutRef h) q (submitted h) (notices h).

(** Let [dt] milliseconds pass: every timer that comes due fires, in order,
    with the clock at its due time. *)
Definition advance (dt : nat) (h : Hook) : Hook :=
  let q := queue h in
  let target := now q + dt in
  let h' := withQueue h (mkQueue (now q) (nextId q) (later q target)) in
  let fired :=
    fold_left (fun h tm => runCallback (callback tm)
                             (withQueue h (atTime (queue h) (due tm))))
              (ready q target) h' in
  withQueue fired (atTime (queue fired) target).

(** The cleanup effect *)
Definition unmount (h : Hook) : Hook :=
  withQueue h (clearRef (queue h) (resetTimeoutRef h)).

(** The operations a presentation layer can apply, the answers of the
    client, and the passage of time. *)
Inductive Op : Type :=
| OpSubmit : FormData -> string -> Op
| OpSettled : Settled JsError (DatabaseResult InterestSubmission) -> Op
| OpReset : Op
| OpAdvance : nat -> Op.

Definition step (op : Op) (h : Hook) : Hook :=
  match op with
  | OpSubmit formData source => submit formData source h
  | OpSettled outcome => submitSettled outcome h
  | OpReset => reset h
  | OpAdvance dt => advance dt h
  end.

Inductive reachable (o : Options) : Hook -> Prop :=
| reach_mount : reachable o (mount o)
| reach_step : forall op h, reachable o h -> reachable o (step op h).

End FormSubmission.

(* ------------------------------------------------------------------ *)
(** ** [useEmailCheck] ([src/hooks/useSupabase.ts]) *)

Module EmailCheck.
Import Js Types Database Timers.
Local Open Scope string_scope.
Local Open Scope list_scope.

Record State : Type := mkState {
  exists_ : option bool;
  loading : bool;
  error : option string
}.

Definition initialState : State := mkState None false None.

(** [performCheck], closed over the [email] it was created for. *)
Inductive Callback : Type := CbPerformCheck : jstring -> Callback.

Record Hook : Type := mkHook {
  debounceMs : option nat;
  state : State;
  debounceTimeoutRef : option nat;
  queue : Queue Callback;
  (** every run of [performCheck]: when, and for which [email] *)
  performed : list (nat * jstring);
  (** every [checkEmailExists(arg)] request: when, and with which argument *)
  lookups : list (nat * jstring);
  (** what [onExists] was told *)
  told : list bool
}.

Definition mount (debounce : option nat) : Hook :=
  mkHook debounce initialState None (emptyQueue Callback) [] [] [].

(** [options.debounceMs || 500] *)
Definition delayOf (h : Hook) : nat :=
  match debounceMs h with
  | Some (S d) => S d
  | _ => 500
  end.

(** [performCheck], up to its [await]. *)
Definition performCheck (email : jstring) (h : Hook) : Hook :=
  let t := now (queue h) in
  if negb (nonEmpty email) || negb (nonEmpty (trim email)) then
    mkHook (debounceMs h) (mkState None false None) (debounceTimeoutRef h)
           (queue h) (performed h ++ [(t, email)]) (lookups h) (told h)
  else
    mkHook (debounceMs h)
           (mkState (exists_ (state h)) true None) (debounceTimeoutRef h)
           (queue h) (performed h ++ [(t, email)])
           (lookups h ++ [(t, toLowerCase (trim email))]) (told h).

(** [performCheck], after the [await]. *)
Definition checkSettled (outcome : Settled JsError (DatabaseResult bool))
  (h : Hook) : Hook :=
  let put s told' :=
    mkHook (debounceMs h) s (debounceTimeoutRef h) (queue h)
           (performed h) (lookups h) told' in
  match outcome with
  | Resolved result =>
      if Database.success result then
        put (mkState (Database.data result) false None)
            (match Database.data result with
             | Some b => told h ++ [b]
             | None => told h
             end)
      else
        put (mkState None false
               (Some (match Database.error result with
                      | Some e => if String.eqb (errMessage e) ""
                                  then "Failed to check email"
                                  else errMessage e
                      | None => "Failed to check email"
                      end)))
            (told h)
  | Rejected e => put (mkState None false (Some (errMessage e))) (told h)
  end.

Definition withQueue (h : Hook) (q : Queue Callback) : Hook :=
  mkHook (debounceMs h) (state h) (debounceTimeoutRef h) q
         (performed h) (lookups h) (told h).

(** [checkEmail(email, immediate)] *)
Definition checkEmail (email : jstring) (immediate : bool) (h : Hook) : Hook :=
  let h1 := withQueue h (clearRef (queue h) (debounceTimeoutRef h)) in
  if immediate then performCheck email h1
  else
    let (id, q) := setTimeout (queue h1) (CbPerformCheck email) (delayOf h1) in
    mkHook (debounceMs h1) (state h1) (Some id) q
           (performed h1) (lookups h1) (told h1).

(** [reset] *)
Definition reset (h : Hook) : Hook :=
  mkHook (debounceMs h) initialState (debounceTimeoutRef h) (queue h)
         (performed h) (lookups h) (told h).

Definition runCallback (cb : Callback) (h : Hook) : Hook :=
  match cb with CbPerformCheck email => performCheck email h end.

Definition advance (dt : nat) (h : Hook) : Hook :=
  let q := queue h in
  let target := now q + dt in
  let h' := withQueue h (mkQueue (now q) (nextId q) (later q target)) in
  let fired :=
    fold_left (fun h tm => runCallback (callback tm)
                             (withQueue h (atTime (queue h) (due tm))))
              (ready q target) h' in
  withQueue fired (atTime (queue fired) target).

Definition unmount (h : Hook) : Hook :=
  withQueue h (clearRef (queue h) (debounceTimeoutRef h)).

(** The operations a presentation layer can apply, the answers of the
    store, and the passage of time. *)
Inductive Op : Type :=
| OpCheckEmail : jstring -> bool -> Op
| OpCheckSettled : Settled JsError (DatabaseResult bool) -> Op
| OpReset : Op
| OpAdvance : nat -> Op.

Definition step (op : Op) (h : Hook) : Hook :=
  match op with
  | OpCheckEmail email immediate => checkEmail email immediate h
  | OpCheckSettled outcome => checkSettled outcome h
  | OpReset => reset h
  | OpAdvance dt => advance dt h
  end.

Inductive reachable (debounce : option nat) : Hook -> Prop :=
| reach_mount : reachable debounce (mount debounce)
| reach_step : forall op h,
    reachable debounce h -> reachable debounce (step op h).

End EmailCheck.

(* ------------------------------------------------------------------ *)
(** ** [useFormValidation] ([src/hooks/useFormValidation.ts]) *)

Module FormValidation.
Import Js Types Validation Timers.

(** The options; [None] is a property left [undefined], which the
    destructuring defaults replace. *)
Record Options : Type := mkOptions {
  initialData : FormData;
  opt_debounceMs : option nat;
  opt_validateOnMount : option bool;
  opt_validateOnBlur : option bool;
  opt_validateOnChange : option bool
}.

Definition debounceMs (o : Options) : nat :=
  match opt_debounceMs o with Some d => d | None => 300 end.
Definition validateOnMount (o : Options) : bool :=
  match opt_validateOnMount o with Some b => b | None => false end.
Definition validateOnBlur (o : Options) : bool :=
  match opt_validateOnBlur o with Some b => b | None => true end.
Definition validateOnChange (o : Options) : bool :=
  match opt_validateOnChange o with Some b => b | None => false end.

Record FormValidationState : Type := mkValidation {
  errors : list ValidationError;
  isValid : bool;
  isDirty : bool;
  touched : list Field          (* a [Set]: no key twice *)
}.

(** [() => validateForm()], closed over the [formData] of the render that
    scheduled it. *)
Inductive Callback : Type := CbValidateForm : FormData -> Callback.

Record Hook : Type := mkHook {
  options : Options;
  formData : FormData;
  (** [formData] is still the very object [options.initialData] *)
  pristine : bool;
  validationState : FormValidationState;
  debounceTimerRef : option nat;
  queue : Queue Callback
}.

Definition emptyValidation : FormValidationState := mkValidation [] false false [].

Definition withValidation (h : Hook) (v : FormValidationState) : Hook :=
  mkHook (options h) (formData h) (pristine h) v (debounceTimerRef h) (queue h).

Definition withFormData (h : Hook) (d : FormData) (p : bool) : Hook :=
  mkHook (options h) d p (validationState h) (debounceTimerRef h) (queue h).

Definition withQueue (h : Hook) (q : Queue Callback) : Hook :=
  mkHook (options h) (formData h) (pristine h) (validationState h)
         (debounceTimerRef h) q.

Definition dropField (f : Field) (l : list ValidationError)
  : list ValidationError :=
  filter (fun e => negb (Field_eqb (Types.field e) f)) l.

(** [validateSingleField] *)
Definition validateSingleField (f : Field) (value : Value) (h : Hook) : Hook :=
  let prev := validationState h in
  let newErrors :=
    match validateField f value with
    | Some e => dropField f (errors prev) ++ [e]
    | None => dropField f (errors prev)
    end in
  withValidation h
    (mkValidation newErrors (Nat.eqb (List.length newErrors) 0)
                  (isDirty prev) (touched prev)).

(** The state update of [validateForm], run on the [formData] its closure
    holds. *)
Definition validateFormOn (d : FormData) (h : Hook) : Hook :=
  let r := validateAndSanitizeFormData d in
  let prev := validationState h in
  withValidation h
    (mkValidation (v_errors r) (v_isValid r) (isDirty prev) (touched prev)).

(** [validateForm], called from the current render *)
Definition validateForm (h : Hook) : Hook := validateFormOn (formData h) h.

(** [debouncedValidate], called from a render whose [formData] is [d] *)
Definition debouncedValidate (d : FormData) (h : Hook) : Hook :=
  let q0 := clearRef (queue h) (debounceTimerRef h) in
  let (id, q) := setTimeout q0 (CbValidateForm d) (debounceMs (options h)) in
  mkHook (options h) (formData h) (pristine h) (validationState h) (Some id) q.

(** The effect [if (validateOnMount) validateForm()].  It depends on
    [validateForm], which is rebuilt whenever [formData] is replaced, so it
    runs at mount and again after every render that replaced [formData]. *)
Definition mountEffect (h : Hook) : Hook :=
  if validateOnMount (options h) then validateForm h else h.

Definition mount (o : Options) : Hook :=
  mountEffect
    (mkHook o (initialData o) true emptyValidation None (emptyQueue Callback)).

Definition addTouched (f : Field) (l : list Field) : list Field :=
  if existsb (Field_eqb f) l then l else l ++ [f].

(** [updateField(field, value, shouldValidate)] *)
Definition updateField (f : Field) (value : Value) (shouldValidate : bool)
  (h : Hook) : Hook :=
  let before := formData h in
  let h1 := withFormData h (set before f value) false in
  let prev := validationState h1 in
  let h2 := withValidation h1
              (mkValidation (errors prev) (isValid prev) true
                            (addTouched f (touched prev))) in
  let h3 :=
    if shouldValidate then
      if validateOnChange (options h) then validateSingleField f value h2
      else debouncedValidate before h2
    else h2 in
  mountEffect h3.

(** [handleFieldBlur(field)] *)
Definition handleFieldBlur (f : Field) (h : Hook) : Hook :=
  if validateOnBlur (options h) then
    match get (formData h) f with
    | VUndefined => h
    | value => validateSingleField f value h
    end
  else h.

(** [resetForm] *)
Definition resetForm (h : Hook) : Hook :=
  let h1 := withFormData h (initialData (options h)) true in
  let h2 := withValidation h1 emptyValidation in
  let h3 := withQueue h2 (clearRef (queue h2) (debounceTimerRef h2)) in
  if pristine h then h3 else mountEffect h3.

(** [setFormData] as the hook exports it ([setFormDataAndValidate]) *)
Definition setFormDataAndValidate (newData : FormData) (h : Hook) : Hook :=
  let before := formData h in
  let h1 := withFormData h newData false in
  let prev := validationState h1 in
  let h2 := withValidation h1
              (mkValidation (errors prev) (isValid prev) true (touched prev)) in
  let h3 :=
    if validateOnChange (options h) then validateFormOn newData h2
    else debouncedValidate before h2 in
  mountEffect h3.

Definition getFieldError (f : Field) (h : Hook) : option string :=
  match find (fun e => Field_eqb (Types.field e) f)
             (errors (validationState h)) with
  | Some e => Some (Types.message e)
  | None => None
  end.

Definition isFieldTouched (f : Field) (h : Hook) : bool :=
  existsb (Field_eqb f) (touched (validationState h)).

Definition shouldShowFieldError (f : Field) (h : Hook) : bool :=
  isFieldTouched f h &&
  match getFieldError f h with
  | Some m => negb (String.eqb m "")
  | None => false
  end.

(** [clearFieldError(field)] *)
Definition clearFieldError (f : Field) (h : Hook) : Hook :=
  let prev := validationState h in
  withValidation h
    (mkValidation (dropField f (errors prev))
                  (Nat.eqb (List.length (dropField f (errors prev))) 0)
                  (isDirty prev) (touched prev)).

(** [clearAllErrors] *)
Definition clearAllErrors (h : Hook) : Hook :=
  let prev := validationState h in
  withValidation h (mkValidation [] true (isDirty prev) (touched prev)).

Definition runCallback (cb : Callback) (h : Hook) : Hook :=
  match cb with CbValidateForm d => validateFormOn d h end.

Definition advance (dt : nat) (h : Hook) : Hook :=
  let q := queue h in
  let target := now q + dt in
  let h' := withQueue h (mkQueue (now q) (nextId q) (later q target)) in
  let fired :=
    fold_left (fun h tm => runCallback (callback tm)
                             (withQueue h (atTime (queue h) (due tm))))
              (ready q target) h' in
  withQueue fired (atTime (queue fired) target).

Definition unmount (h : Hook) : Hook :=
  withQueue h (clearRef (queue h) (debounceTimerRef h)).

(** The operations a presentation layer can apply, and the passage of time. *)
Inductive Op : Type :=
| OpUpdateField : Field -> Value -> bool -> Op
| OpHandleFieldBlur : Field -> Op
| OpValidateField : Field -> Value -> Op
| OpValidateForm : Op
| OpSetFormData : FormData -> Op
| OpClearFieldError : Field -> Op
| OpClearAllErrors : Op
| OpResetForm : Op
| OpAdvance : nat -> Op.

Definition step (op : Op) (h : Hook) : Hook :=
  match op with
  | OpUpdateField f v b => updateField f v b h
  | OpHandleFieldBlur f => handleFieldBlur f h
  | OpValidateField f v => validateSingleField f v h
  | OpValidateForm => validateForm h
  | OpSetFormData d => setFormDataAndValidate d h
  | OpClearFieldError f => clearFieldError f h
  | OpClearAllErrors => clearAllErrors h
  | OpResetForm => resetForm h
  | OpAdvance dt => advance dt h
  end.

(** The states a hook mounted with options [o] can reach. *)
Inductive reachable (o : Options) : Hook -> Prop :=
| reach_mount : reachable o (mount o)
| reach_step : forall op h, reachable o h -> reachable o (step op h).

End FormValidation.

(* ------------------------------------------------------------------ *)
(** ** [SupabaseContactForm] (the contact form component) *)

Module ContactForm.
Import Js Types Validation.
Local Open Scope string_scope.
Local Open Scope list_scope.

(** The state of the component: its own two state variables, the two hooks
    it owns, what [useSupabaseConnection] reports, and the alerts shown. *)
Record Form : Type := mkForm {
  formData : FormData;
  validationErrors : list ValidationError;
  submission : FormSubmission.Hook;
  emailCheck : EmailCheck.Hook;
  isConnected : bool;
  alerts : list string
}.

Definition emptyForm : FormData :=
  [ (K_name, VString []); (K_email, VString []);
    (K_subscribed_newsletter, VBool false);
    (K_message, VString []); (K_company, VString []); (K_phone, VString []) ].

Definition mount (connected : bool) : Form :=
  mkForm emptyForm []
         (FormSubmission.mount (FormSubmission.mkOptions (Some true) (Some 5000)))
         (EmailCheck.mount (Some 500)) connected [].

Definition emailExistsError : ValidationError :=
  mkError K_email "This email is already registered" "EMAIL_EXISTS".

Definition dropField (f : Field) (l : list ValidationError)
  : list ValidationError :=
  filter (fun e => negb (Field_eqb (field e) f)) l.

(** [handleInputChange(field, value)] *)
Definition handleInputChange (f : Field) (value : Value) (c : Form) : Form :=
  let check :=
    match f, value with
    | K_email, VString s => EmailCheck.checkEmail s false (emailCheck c)
    | _, _ => emailCheck c
    end in
  mkForm (set (formData c) f value) (dropField f (validationErrors c))
         (submission c) check (isConnected c) (alerts c).

(** [emailExists], as the component reads it from the hook *)
Definition emailExists (c : Form) : bool :=
  match EmailCheck.exists_ (EmailCheck.state (emailCheck c)) with
  | Some b => b
  | None => false
  end.

(** [validateForm()]: its answer and the errors it leaves. *)
Definition validateForm (c : Form) : bool * list ValidationError :=
  let r := validateAndSanitizeFormData (formData c) in
  if negb (v_isValid r) then (false, v_errors r)
  else if emailExists c then (false, validationErrors c ++ [emailExistsError])
  else (true, []).

(** [handleSubmit], up to its [await] *)
Definition handleSubmit (c : Form) : Form :=
  if negb (isConnected c) then
    mkForm (formData c) (validationErrors c) (submission c) (emailCheck c)
           (isConnected c)
           (alerts c ++ ["Database connection is not available. Please try again later."])
  else
    let (ok, errs) := validateForm c in
    if negb ok then
      mkForm (formData c) errs (submission c) (emailCheck c) (isConnected c)
             (alerts c)
    else
      mkForm (formData c) errs
             (FormSubmission.submit (formData c) "landing_page" (submission c))
             (emailCheck c) (isConnected c) (alerts c).

(** [handleReset] *)
Definition handleReset (c : Form) : Form :=
  mkForm emptyForm [] (FormSubmission.reset (submission c)) (emailCheck c)
         (isConnected c) (alerts c).

(** The [onExists] the component passes to [useEmailCheck]: the
    EMAIL_EXISTS entry replaces what the email had, or is taken away. *)
Definition onExists (exists_ : bool) (errs : list ValidationError)
  : list ValidationError :=
  if exists_ then dropField K_email errs ++ [emailExistsError]
  else dropField K_email errs.

(** What [useEmailCheck] calls [onExists] with when a check settles: the
    [data] of a successful result that is not [null]. *)
Definition reported
  (outcome : Database.Settled Database.JsError (Database.DatabaseResult bool))
  : option bool :=
  match outcome with
  | Database.Resolved result =>
      if Database.success result then Database.data result else None
  | Database.Rejected _ => None
  end.

(** What can happen to the mounted component: the user's three actions,
    the answers of the client to the two hooks, and the passage of time. *)
Inductive Op : Type :=
| OpInputChange : Field -> Value -> Op
| OpSubmit : Op
| OpReset : Op
| OpSubmitSettled :
    Database.Settled Database.JsError
      (Database.DatabaseResult Database.InterestSubmission) -> Op
| OpCheckSettled :
    Database.Settled Database.JsError (Database.DatabaseResult bool) -> Op
| OpAdvance : nat -> Op.

Definition step (op : Op) (c : Form) : Form :=
  match op with
  | OpInputChange f v => handleInputChange f v c
  | OpSubmit => handleSubmit c
  | OpReset => handleReset c
  | OpSubmitSettled outcome =>
      mkForm (formData c) (validationErrors c)
             (FormSubmission.submitSettled outcome (submission c))
             (emailCheck c) (isConnected c) (alerts c)
  | OpCheckSettled outcome =>
      mkForm (formData c)
             (match reported outcome with
              | Some b => onExists b (validationErrors c)
              | None => validationErrors c
              end)
             (submission c)
             (EmailCheck.checkSettled outcome (emailCheck c))
             (isConnected c) (alerts c)
  | OpAdvance dt =>
      mkForm (formData c) (validationErrors c)
             (FormSubmission.advance dt (submission c))
             (EmailCheck.advance dt (emailCheck c))
             (isConnected c) (alerts c)
  end.

Inductive reachable (connected : bool) : Form -> Prop :=
| reach_mount : reachable connected (mount connected)
| reach_step : forall op c,
    reachable connected c -> reachable connected (step op c).

End ContactForm.

(* ------------------------------------------------------------------ *)
(** ** [InterestForm] (the form of the hero section) *)

Module InterestForm.
Import Js Types Constants Validation Timers.
Local Open Scope string_scope.
Local Open Scope list_scope.

(** The only callback the component schedules: [() => setShowSuccess(false)] *)
Inductive Callback : Type := CbHideSuccess.

(** What the caller's [onSuccess] / [onError] were told. *)
Inductive Notice : Type :=
| ToldSuccess : FormData -> Notice
| ToldError : string -> Notice.

(** The props [source] and [errorMessage], the three hooks the component
    owns, its two state variables, the timers it has set itself and what its
    callbacks were told. *)
Record Form : Type := mkForm {
  source : string;
  errorMessage : string;
  validation : FormValidation.Hook;
  submission : FormSubmission.Hook;
  emailCheck : EmailCheck.Hook;
  showSuccess : bool;
  duplicateEmailError : option string;
  queue : Queue Callback;
  notices : list Notice
}.

Definition defaultFormData : FormData :=
  [ (K_name, VString []); (K_email, VString []);
    (K_subscribed_newsletter, VBool false) ].

(** The component mounted with [source] given and [errorMessage] left at
    its default. *)
Definition mount (src : string) : Form :=
  mkForm src "Something went wrong. Please try again."
         (FormValidation.mount
            (FormValidation.mkOptions defaultFormData None None (Some true)
                                      (Some false)))
         (FormSubmission.mount (FormSubmission.mkOptions None None))
         (EmailCheck.mount (Some 500)) false None (emptyQueue Callback) [].

Definition formData (c : Form) : FormData :=
  FormValidation.formData (validation c).

Definition emailExists (c : Form) : bool :=
  match EmailCheck.exists_ (EmailCheck.state (emailCheck c)) with
  | Some b => b
  | None => false
  end.

(** [handleFieldChange(field, value)] *)
Definition handleFieldChange (f : Field) (value : Value) (c : Form) : Form :=
  let check :=
    match f, value with
    | K_email, VString s =>
        if nonEmpty s then EmailCheck.checkEmail s false (emailCheck c)
        else emailCheck c
    | _, _ => emailCheck c
    end in
  mkForm (source c) (errorMessage c)
         (FormValidation.updateField f value true (validation c))
         (submission c) check (showSuccess c)
         (match f, duplicateEmailError c with
          | K_email, Some m => if String.eqb m "" then Some m else None
          | _, d => d
          end)
         (queue c) (notices c).

(** [emailRegex.test(formData.email)], on the value as it stands *)
Definition emailLooksValid (v : Value) : bool :=
  match v with
  | VString s => test emailPattern s
  | _ => false
  end.

(** [handleSubmit], up to its [await submit(formData, source)]; when a
    submission was started, [handleSubmitSettled] is the rest. *)
Definition handleSubmit (c : Form) : Form :=
  let cleared := FormValidation.clearAllErrors (validation c) in
  let put v sub dup :=
    mkForm (source c) (errorMessage c) v sub (emailCheck c) (showSuccess c)
           dup (queue c) (notices c) in
  if emailExists c then
    put cleared (submission c)
        (Some "This email is already registered. Please use a different email address.")
  else
    let name := get (formData c) K_name in
    let email := get (formData c) K_email in
    if negb (truthy name) || negb (truthy email) then
      let v1 := if negb (truthy name)
                then FormValidation.handleFieldBlur K_name cleared
                else cleared in
      let v2 := if negb (truthy email)
                then FormValidation.handleFieldBlur K_email v1
                else v1 in
      put v2 (submission c) None
    else if negb (emailLooksValid email) then
      put (FormValidation.handleFieldBlur K_email cleared) (submission c) None
    else
      put cleared
          (FormSubmission.submit (formData c) (source c) (submission c))
          None.

(** The [success] of what [submit] resolves to: [submit] catches whatever
    [submitInterestForm] does and answers [success: true] exactly when the
    result has [success] and [data]. *)
Definition submitSucceeded
  (outcome : Database.Settled Database.JsError
               (Database.DatabaseResult Database.InterestSubmission)) : bool :=
  match outcome with
  | Database.Resolved result =>
      Database.success result && Database.isSome (Database.data result)
  | Database.Rejected _ => false
  end.

(** [handleSubmit] after its [await]: [sent] is the form data of the render
    that submitted, [outcome] what [submitInterestForm] settled to.  The
    object [submit] returns on failure has no [errors], so [onError] is told
    the [errorMessage] of the props. *)
Definition handleSubmitSettled (sent : FormData)
  (outcome : Database.Settled Database.JsError
               (Database.DatabaseResult Database.InterestSubmission))
  (c : Form) : Form :=
  let sub := FormSubmission.submitSettled outcome (submission c) in
  if submitSucceeded outcome then
    let (_, q) := setTimeout (queue c) CbHideSuccess 5000 in
    mkForm (source c) (errorMessage c)
           (FormValidation.resetForm (validation c)) sub (emailCheck c)
           true (duplicateEmailError c) q
           (notices c ++ [ToldSuccess sent])
  else
    mkForm (source c) (errorMessage c) (validation c) sub (emailCheck c)
           (showSuccess c) (duplicateEmailError c) (queue c)
           (notices c ++ [ToldError (errorMessage c)]).

(** [handleReset]; the component mounts [useFormValidation] without
    [validateOnMount], so no effect runs between its two updates of the
    validation state. *)
Definition handleReset (c : Form) : Form :=
  mkForm (source c) (errorMessage c)
         (FormValidation.clearAllErrors
            (FormValidation.resetForm (validation c)))
         (FormSubmission.reset (submission c)) (emailCheck c) false None
         (queue c) (notices c).

End InterestForm.

(* ------------------------------------------------------------------ *)
(** ** Notions used to state the properties *)

Module Shape.
Import Js Types Constants Validation.

(** No [<] of [s] is followed, anywhere later, by a [>]: the tag pattern
    has no match in [s]. *)
Fixpoint noTag (s : jstring) : bool :=
  match s with
  | [] => true
  | c :: r => negb ((c =? lt)%N && existsb (N.eqb gt) r) && noTag r
  end.

(** [s] is non-empty, neither begins nor ends with whitespace, and its only
    whitespace is single spaces.  [afterSpace] says that the previous
    character was a space (or that [s] is the whole string). *)
Fixpoint normalFrom (afterSpace : bool) (s : jstring) : bool :=
  match s with
  | [] => negb afterSpace
  | c :: r =>
      if isSpace c then (c =? sp)%N && negb afterSpace && normalFrom true r
      else normalFrom false r
  end.

Definition isNormal (s : jstring) : bool :=
  match s with [] => true | _ => normalFrom true s end.

(** Title-casing as one pass: the first character after each space is
    upper-cased, every other one lower-cased. *)
Fixpoint titleFrom (wordStart : bool) (s : jstring) : jstring :=
  match s with
  | [] => []
  | c :: r =>
      if (c =? sp)%N then sp :: titleFrom true r
      else (if wordStart then upperChar c else lowerChar c) :: titleFrom false r
  end.

(** Removing the tags of the trimmed value leaves no whitespace at either
    end of it. *)
Definition stripsClean (s : jstring) : Prop :=
  trim (stripTags (trim s)) = stripTags (trim s).

(** A value typed [string]. *)
Definition isString (v : Value) : Prop := exists s, v = VString s.

(** The character title-casing puts in place of [c]. *)
Definition cased (b : bool) (c : char) : char :=
  if b then upperChar c else lowerChar c.

(** What the specification calls an empty or undefined value: [undefined],
    or a string with nothing but whitespace in it. *)
Definition blank (v : Value) : Prop :=
  v = VUndefined \/ exists s, v = VString s /\ trim s = [].

(** The last rule of the specification's order: the value has to match the
    pattern of the field, when the field has one. *)
Definition patternViolation (f : Field) (rules : Rules) (t : jstring)
  : option ValidationError :=
  match pattern rules with
  | Some p => if test p t then None else Some (patternError f)
  | None => None
  end.

(** The rule order the specification gives for a value [t] that is not
    blank: minimum length, then maximum length, then the pattern; the first
    rule violated is the error. *)
Definition firstViolation (f : Field) (rules : Rules) (t : jstring)
  : option ValidationError :=
  match minLength rules with
  | Some m =>
      if List.length t <? m then Some (minLengthError f m) else
      match maxLength rules with
      | Some M =>
          if M <? List.length t then Some (maxLengthError f M)
          else patternViolation f rules t
      | None => patternViolation f rules t
      end
  | None =>
      match maxLength rules with
      | Some M =>
          if M <? List.length t then Some (maxLengthError f M)
          else patternViolation f rules t
      | None => patternViolation f rules t
      end
  end.

(** The optional-field expression of [sanitizeFormData]. *)
Definition optionalOut (v : Value) : Value :=
  if truthy v then VString (sanitizeInput v) else VUndefined.

(** The values on which sanitizing twice is sanitizing once. *)
Definition asciiValue (v : Value) : Prop :=
  forall s, v = VString s -> asciiText s.

Definition cleanName (v : Value) : Prop :=
  forall s, v = VString s -> stripsClean s /\ asciiText s.

Definition cleanOptional (v : Value) : Prop :=
  v = VUndefined \/
  exists s, v = VString s /\ stripsClean s /\
            (s = [] \/ sanitizeInput (VString s) <> []).

(** The end-to-end example of the specification. *)
Definition johnDoe : FormData :=
  [ (K_name, VString (str "  john doe  "));
    (K_email, VString (str "JOHN@EX.COM"));
    (K_subscribed_newsletter, VBool true) ].

Definition johnDoeSanitized : FormData :=
  [ (K_name, VString (str "John Doe"));
    (K_email, VString (str "john@ex.com"));
    (K_subscribed_newsletter, VBool true);
    (K_message, VUndefined); (K_company, VUndefined); (K_phone, VUndefined) ].

(** A name whose tag is followed by a space. *)
Definition taggedName : FormData :=
  [ (K_name, VString (str "<b> john"));
    (K_email, VString (str "john@ex.com"));
    (K_subscribed_newsletter, VBool true) ].

(** The language of a regular expression: the strings it matches as a
    whole. *)
Inductive matches : regex -> jstring -> Prop :=
| m_eps : matches Eps []
| m_class : forall p c, p c = true -> matches (Class p) [c]
| m_seq : forall a b s t, matches a s -> matches b t -> matches (Seq a b) (s ++ t)
| m_alt_l : forall a b s, matches a s -> matches (Alt a b) s
| m_alt_r : forall a b s, matches b s -> matches (Alt a b) s
| m_star_nil : forall a, matches (Star a) []
| m_star_more : forall a s t,
    matches a s -> matches (Star a) t -> matches (Star a) (s ++ t).

(** The characters the classes of the email pattern tell apart. *)
Definition emailOther (c : char) : bool := negb (isSpace c || isChar "@" c).

(** Every character class of [r] gives the same answer on [f c] as on [c]. *)
Fixpoint classesIgnore (f : char -> char) (r : regex) : Prop :=
  match r with
  | Void | Eps => True
  | Class p => forall c, p (f c) = p c
  | Seq a b | Alt a b => classesIgnore f a /\ classesIgnore f b
  | Star a => classesIgnore f a
  end.

End Shape.

(* ------------------------------------------------------------------ *)
(** ** Scenarios of the specification *)

Module Scenarios.
Import Js Types Database.
Local Open Scope string_scope.

(** The store answers an insert with a unique violation. *)
Definition uniqueViolation : PostgrestError :=
  mkPostgrest "23505" "duplicate key value violates unique constraint".

Definition duplicateEnv : Env :=
  mkEnv true (fun _ _ => Resolved (mkResponse None (Some uniqueViolation)))
        "1700000000000" "2023-11-14T22:13:20.000Z".

Definition annForm : FormData :=
  [ (K_name, VString (str "Ann Lee"));
    (K_email, VString (str "ann@example.com"));
    (K_subscribed_newsletter, VBool false) ].

(** The retry scenario: a client configured with three attempts, an initial
    delay of 100 ms and a multiplier of 2. *)
Definition scenarioConfig : RetryConfig := mkRetry 3 100 2.

(** A remote call that fails twice, then succeeds. *)
Definition failsTwice (k : nat) : Settled string nat :=
  match k with
  | 1 => Rejected "timeout"
  | 2 => Rejected "connection reset"
  | _ => Resolved 42
  end.

(** A successful answer of the store. *)
Definition annRow : InterestSubmission :=
  mkRow "7f3c" (VString (str "Ann Lee")) (VString (str "ann@example.com"))
        (VBool false) VUndefined VUndefined VUndefined
        "landing_page" "2023-11-14T22:13:20.000Z".

Definition annStored : Settled JsError (DatabaseResult InterestSubmission) :=
  Resolved (mkDb (Some annRow) None true).

(** The options the contact form passes to [useFormSubmission]. *)
Definition formOptions : FormSubmission.Options :=
  FormSubmission.mkOptions (Some true) (Some 5000).

(** The options of the example in the documentation of
    [useFormValidation]. *)
Definition exampleOptions : FormValidation.Options :=
  FormValidation.mkOptions
    [ (K_name, VString []); (K_email, VString []);
      (K_subscribed_newsletter, VBool false) ]
    (Some 300) None None None.

(** Every pending timer of the hook is the one its ref holds. *)
Definition tidyEmailCheck (h : EmailCheck.Hook) : Prop :=
  forall t, In t (Timers.pending (EmailCheck.queue h)) ->
            EmailCheck.debounceTimeoutRef h = Some (Timers.tid t).

Definition tidyFormValidation (h : FormValidation.Hook) : Prop :=
  forall t, In t (Timers.pending (FormValidation.queue h)) ->
            FormValidation.debounceTimerRef h = Some (Timers.tid t).

(** [isValid] exactly when there is no error. *)
Definition consistent (h : FormValidation.Hook) : Prop :=
  FormValidation.isValid (FormValidation.validationState h) = true <->
  FormValidation.errors (FormValidation.validationState h) = [].

(** The form after a successful submission at time 0: the auto-reset timer
    is armed for 5000 ms. *)
Definition afterSuccess : FormSubmission.Hook :=
  FormSubmission.submitSettled annStored
    (FormSubmission.submit annForm "landing_page"
       (FormSubmission.mount formOptions)).

(** [isValid] only when there is no error. *)
Definition sound (h : FormValidation.Hook) : Prop :=
  FormValidation.isValid (FormValidation.validationState h) = true ->
  FormValidation.errors (FormValidation.validationState h) = [].

(** Every request of [useEmailCheck] belongs to a run of the check for an
    email that is not blank, and carries the trimmed, lower-cased form of
    it. *)
Definition lookupsJustified (h : EmailCheck.Hook) : Prop :=
  forall t l, In (t, l) (EmailCheck.lookups h) ->
    exists e, In (t, e) (EmailCheck.performed h) /\
              l = Js.toLowerCase (Js.trim e) /\ Js.trim e <> [].

(** Every own property of a breakdown by source is a number exactly when its
    key is not a property name of [Object.prototype]. *)
Definition kinded (m : list (string * Database.SourceEntry)) : Prop :=
  forall k e, Database.ownEntry m k = Some e ->
    match e with
    | Database.Count _ => Database.inherited k = false
    | Database.Appended _ => Database.inherited k = true
    end.

(** No two errors of the validation state are about the same field. *)
Definition distinctFields (h : FormValidation.Hook) : Prop :=
  NoDup (map Types.field
             (FormValidation.errors (FormValidation.validationState h))).

End Scenarios.

(* ================================================================== *)
(** * Properties *)

Unset Implicit Arguments.

Module JsFacts.
Import Js Shape.

Lemma isSpace_true_iff (c : char) :
  isSpace c = true <->
  ((9 <= c <= 13) \/ c = 32 \/ c = 160 \/ c = 5760 \/ (8192 <= c <= 8202)
   \/ c = 8232 \/ c = 8233 \/ c = 8239 \/ c = 8287 \/ c = 12288
   \/ c = 65279)%N.
Proof.
  unfold isSpace.
  rewrite !orb_true_iff, !andb_true_iff, !N.leb_le, !N.eqb_eq. tauto.
Qed.

Lemma isSpace_sp : isSpace sp = true.
Proof. reflexivity. Qed.

Lemma isSpace_lowerChar (c : char) : isSpace (lowerChar c) = isSpace c.
Proof.
  unfold lowerChar.
  destruct ((65 <=? c) && (c <=? 90))%N eqn:E; [|reflexivity].
  apply andb_true_iff in E. rewrite !N.leb_le in E.
  destruct (isSpace (c + 32)%N) eqn:A, (isSpace c) eqn:B; try reflexivity;
    try (apply isSpace_true_iff in A); try (apply isSpace_true_iff in B); lia.
Qed.

Lemma isSpace_upperChar (c : char) : isSpace (upperChar c) = isSpace c.
Proof.
  unfold upperChar.
  destruct ((97 <=? c) && (c <=? 122))%N eqn:E; [|reflexivity].
  apply andb_true_iff in E. rewrite !N.leb_le in E.
  destruct (isSpace (c - 32)%N) eqn:A, (isSpace c) eqn:B; try reflexivity;
    try (apply isSpace_true_iff in A); try (apply isSpace_true_iff in B); lia.
Qed.

Lemma lowerChar_idem (c : char) : lowerChar (lowerChar c) = lowerChar c.
Proof.
  unfold lowerChar.
  destruct ((65 <=? c) && (c <=? 90))%N eqn:E; [|rewrite E; reflexivity].
  apply andb_true_iff in E. rewrite !N.leb_le in E.
  destruct ((65 <=? c + 32) && (c + 32 <=? 90))%N eqn:F; [|reflexivity].
  apply andb_true_iff in F. rewrite !N.leb_le in F. lia.
Qed.

Lemma upperChar_idem (c : char) : upperChar (upperChar c) = upperChar c.
Proof.
  unfold upperChar.
  destruct ((97 <=? c) && (c <=? 122))%N eqn:E; [|rewrite E; reflexivity].
  apply andb_true_iff in E. rewrite !N.leb_le in E.
  destruct ((97 <=? c - 32) && (c - 32 <=? 122))%N eqn:F; [|reflexivity].
  apply andb_true_iff in F. rewrite !N.leb_le in F. lia.
Qed.

(** Case mapping moves letters to letters only: it neither creates nor
    removes a given non-letter character. *)
Lemma lowerChar_eqb (c d : char) :
  (d < 65 \/ 122 < d \/ 90 < d < 97)%N ->
  (lowerChar c =? d)%N = (c =? d)%N.
Proof.
  intro Hd. unfold lowerChar.
  destruct ((65 <=? c) && (c <=? 90))%N eqn:E; [|reflexivity].
  apply andb_true_iff in E. rewrite !N.leb_le in E.
  destruct (N.eqb_spec (c + 32)%N d), (N.eqb_spec c d); try reflexivity; lia.
Qed.

Lemma upperChar_eqb (c d : char) :
  (d < 65 \/ 122 < d \/ 90 < d < 97)%N ->
  (upperChar c =? d)%N = (c =? d)%N.
Proof.
  intro Hd. unfold upperChar.
  destruct ((97 <=? c) && (c <=? 122))%N eqn:E; [|reflexivity].
  apply andb_true_iff in E. rewrite !N.leb_le in E.
  destruct (N.eqb_spec (c - 32)%N d), (N.eqb_spec c d); try reflexivity; lia.
Qed.

(** *** Trimming *)

Lemma trimStart_length (s : jstring) : List.length (trimStart s) <= List.length s.
Proof.
  induction s as [|c r IH]; simpl; [lia|].
  destruct (isSpace c); simpl; lia.
Qed.

Lemma trimEnd_length (s : jstring) : List.length (trimEnd s) <= List.length s.
Proof.
  induction s as [|c r IH]; simpl; [lia|].
  destruct (trimEnd r); [destruct (isSpace c)|]; simpl in *; lia.
Qed.

Lemma trimStart_fixed_head (c : char) (r : jstring) :
  trimStart (c :: r) = c :: r -> isSpace c = false.
Proof.
  simpl. destruct (isSpace c); [|reflexivity].
  intro H. pose proof (trimStart_length r) as L. rewrite H in L. simpl in L. lia.
Qed.

Lemma trimStart_head (s : jstring) :
  match trimStart s with [] => True | c :: _ => isSpace c = false end.
Proof.
  induction s as [|c r IH]; simpl; [exact I|].
  destruct (isSpace c) eqn:E; [exact IH | exact E].
Qed.

Lemma trimStart_fixed (s : jstring) :
  match s with [] => True | c :: _ => isSpace c = false end ->
  trimStart s = s.
Proof. destruct s as [|c r]; simpl; [reflexivity|]. intros ->. reflexivity. Qed.

Lemma trimEnd_cons_inv (c : char) (t : jstring) :
  trimEnd (c :: t) = c :: t ->
  trimEnd t = t /\ (isSpace c = true -> t <> []).
Proof.
  simpl. destruct (trimEnd t) as [|d t'] eqn:E.
  - destruct (isSpace c); intro H; [discriminate H|].
    injection H as <-. split; [reflexivity | intro X; discriminate X].
  - intro H. injection H as <-. split; [reflexivity|].
    intros _ Hn. discriminate Hn.
Qed.

Lemma trimEnd_idem (s : jstring) : trimEnd (trimEnd s) = trimEnd s.
Proof.
  induction s as [|c r IH]; simpl; [reflexivity|].
  destruct (trimEnd r) as [|d r'] eqn:E.
  - destruct (isSpace c) eqn:F; simpl; [reflexivity | rewrite F; reflexivity].
  - change (trimEnd (c :: d :: r') = c :: d :: r').
    change (match trimEnd (d :: r') with
            | [] => if isSpace c then [] else [c]
            | x => c :: x end = c :: d :: r').
    rewrite IH. reflexivity.
Qed.

(** Trimming the end keeps the first character of whatever it keeps. *)
Lemma trimEnd_head (s : jstring) :
  match trimEnd s with
  | [] => True
  | c :: _ => exists r, s = c :: r
  end.
Proof.
  destruct s as [|c r]; simpl; [exact I|].
  destruct (trimEnd r); [destruct (isSpace c)|]; try exact I; eauto.
Qed.

Lemma trim_head (s : jstring) :
  match trim s with [] => True | c :: _ => isSpace c = false end.
Proof.
  unfold trim. pose proof (trimEnd_head (trimStart s)) as H.
  pose proof (trimStart_head s) as G.
  destruct (trimEnd (trimStart s)) as [|c r]; [exact I|].
  destruct H as [r' H]. rewrite H in G. exact G.
Qed.

Lemma trim_idem (s : jstring) : trim (trim s) = trim s.
Proof.
  unfold trim at 1. rewrite (trimStart_fixed (trim s) (trim_head s)).
  unfold trim. apply trimEnd_idem.
Qed.

(** A string is a fixed point of [trim] exactly when it is one of both
    one-sided trims. *)
Lemma trim_fixed_iff (s : jstring) :
  trim s = s <-> trimStart s = s /\ trimEnd s = s.
Proof.
  split.
  - intro H.
    assert (Hs : trimStart s = s).
    { apply trimStart_fixed. rewrite <- H. apply trim_head. }
    split; [exact Hs|]. unfold trim in H. rewrite Hs in H. exact H.
  - intros [Hs He]. unfold trim. rewrite Hs. exact He.
Qed.

Lemma trimStart_map (f : char -> char) (s : jstring) :
  (forall c, isSpace (f c) = isSpace c) ->
  trimStart (List.map f s) = List.map f (trimStart s).
Proof.
  intro Hf. induction s as [|c r IH]; simpl; [reflexivity|].
  rewrite Hf. destruct (isSpace c); [exact IH | reflexivity].
Qed.

Lemma trimEnd_map (f : char -> char) (s : jstring) :
  (forall c, isSpace (f c) = isSpace c) ->
  trimEnd (List.map f s) = List.map f (trimEnd s).
Proof.
  intro Hf. induction s as [|c r IH]; simpl; [reflexivity|].
  rewrite IH, Hf. destruct (trimEnd r); [destruct (isSpace c)|]; reflexivity.
Qed.

Lemma trim_map (f : char -> char) (s : jstring) :
  (forall c, isSpace (f c) = isSpace c) ->
  trim (List.map f s) = List.map f (trim s).
Proof.
  intro Hf. unfold trim. rewrite trimStart_map, trimEnd_map by exact Hf.
  reflexivity.
Qed.

(** *** Whitespace normalisation *)

(** Collapsing a string that has no trailing whitespace gives a normal
    string. *)
Lemma collapseFrom_normal (t : jstring) : forall b,
  trimEnd t = t -> (b = true -> t <> []) ->
  normalFrom b (collapseFrom b t) = true.
Proof.
  induction t as [|c t IH]; intros b He Hb.
  - destruct b; [exfalso; apply Hb; reflexivity | reflexivity].
  - apply trimEnd_cons_inv in He. destruct He as [He Hc].
    simpl. destruct (isSpace c) eqn:E.
    + specialize (Hc eq_refl). destruct b.
      * apply IH; [exact He | intros _; exact Hc].
      * simpl. apply IH; [exact He | intros _; exact Hc].
    + simpl. rewrite E. apply IH; [exact He | intro X; discriminate X].
Qed.

Lemma collapse_normal (u : jstring) :
  trim u = u -> isNormal (collapse u) = true.
Proof.
  intro H. apply trim_fixed_iff in H. destruct H as [Hs He].
  destruct u as [|c t]; [reflexivity|].
  pose proof (trimStart_fixed_head _ _ Hs) as Hc.
  assert (Heq : collapse (c :: t) = collapseFrom true (c :: t)).
  { unfold collapse. simpl. rewrite Hc. reflexivity. }
  rewrite Heq.
  pose proof (collapseFrom_normal (c :: t) true He) as N.
  assert (Hne : collapseFrom true (c :: t) <> []).
  { simpl. rewrite Hc. discriminate. }
  unfold isNormal. destruct (collapseFrom true (c :: t)); [reflexivity|].
  apply N. intros _. discriminate.
Qed.

Lemma normalFrom_nonempty (s : jstring) : normalFrom true s = true -> s <> [].
Proof. destruct s; [discriminate | discriminate]. Qed.

Lemma normalFrom_trimStart (s : jstring) :
  normalFrom true s = true -> trimStart s = s.
Proof.
  destruct s as [|c r]; simpl; [reflexivity|].
  destruct (isSpace c); [|reflexivity].
  rewrite andb_false_r. discriminate.
Qed.

Lemma normalFrom_trimEnd (s : jstring) : forall b,
  normalFrom b s = true -> trimEnd s = s.
Proof.
  induction s as [|c r IH]; intros b H; [reflexivity|].
  simpl in H. simpl. destruct (isSpace c) eqn:E.
  - apply andb_true_iff in H. destruct H as [_ H].
    rewrite (IH _ H). pose proof (normalFrom_nonempty _ H) as Hne.
    destruct r; [contradiction | reflexivity].
  - rewrite (IH _ H). destruct r; reflexivity.
Qed.

Lemma normalFrom_collapse (s : jstring) : forall b b',
  normalFrom b s = true -> (b' = true -> b = true) ->
  collapseFrom b' s = s.
Proof.
  induction s as [|c r IH]; intros b b' H Hb; [reflexivity|].
  simpl in H. simpl. destruct (isSpace c) eqn:E.
  - apply andb_true_iff in H. destruct H as [H1 H].
    apply andb_true_iff in H1. destruct H1 as [Hc Hn].
    apply N.eqb_eq in Hc. subst c.
    destruct b; [discriminate Hn|].
    destruct b'; [specialize (Hb eq_refl); discriminate Hb|].
    f_equal. apply (IH true true H). reflexivity.
  - f_equal. apply (IH false false H). intro X; discriminate X.
Qed.

(** A normal string is a fixed point of [trim] and of [collapse]. *)
Lemma isNormal_trim (s : jstring) : isNormal s = true -> trim s = s.
Proof.
  destruct s as [|c r]; [reflexivity|]. unfold isNormal. intro H.
  apply trim_fixed_iff. split.
  - apply normalFrom_trimStart. exact H.
  - apply (normalFrom_trimEnd _ _ H).
Qed.

Lemma isNormal_collapse (s : jstring) : isNormal s = true -> collapse s = s.
Proof.
  destruct s as [|c r]; [reflexivity|]. unfold isNormal, collapse. intro H.
  apply (normalFrom_collapse _ true false H). intro X; discriminate X.
Qed.

Lemma collapseFrom_nil (s : jstring) :
  collapseFrom false s = [] -> s = [].
Proof.
  destruct s as [|c r]; [reflexivity|]. simpl.
  destruct (isSpace c); discriminate.
Qed.

(** *** Tag removal *)

Lemma stripFrom_gt (s : jstring) : forall b,
  existsb (N.eqb gt) (stripFrom b s) = true -> existsb (N.eqb gt) s = true.
Proof.
  induction s as [|c r IH]; intros b H; [exact H|].
  simpl in *. destruct b.
  - destruct (N.eqb_spec c gt) as [->|Hc].
    + reflexivity.
    + apply IH in H. rewrite H. apply orb_true_r.
  - destruct ((c =? lt)%N && existsb (N.eqb gt) r) eqn:E.
    + apply andb_true_iff in E. destruct E as [_ E]. rewrite E. apply orb_true_r.
    + simpl in H. apply orb_true_iff in H. destruct H as [H|H].
      * rewrite H. reflexivity.
      * apply IH in H. rewrite H. apply orb_true_r.
Qed.

(** What tag removal returns has no tag left. *)
Lemma noTag_stripFrom (s : jstring) : forall b, noTag (stripFrom b s) = true.
Proof.
  induction s as [|c r IH]; intros b; [reflexivity|].
  simpl. destruct b.
  - destruct (c =? gt)%N; apply IH.
  - destruct ((c =? lt)%N && existsb (N.eqb gt) r) eqn:E; [apply IH|].
    simpl. rewrite IH, andb_true_r.
    destruct (c =? lt)%N; [|reflexivity]. simpl in *.
    destruct (existsb (N.eqb gt) (stripFrom false r)) eqn:G; [|reflexivity].
    apply stripFrom_gt in G. rewrite G in E. discriminate E.
Qed.

Lemma noTag_stripTags (s : jstring) : noTag s = true -> stripTags s = s.
Proof.
  unfold stripTags. induction s as [|c r IH]; intro H; [reflexivity|].
  simpl in *. apply andb_true_iff in H. destruct H as [H1 H2].
  apply negb_true_iff in H1. rewrite H1. f_equal. apply IH. exact H2.
Qed.

Lemma collapseFrom_gt (s : jstring) : forall b,
  existsb (N.eqb gt) (collapseFrom b s) = existsb (N.eqb gt) s.
Proof.
  induction s as [|c r IH]; intros b; [reflexivity|].
  cbn [collapseFrom existsb]. destruct (isSpace c) eqn:E.
  - assert (Hc : N.eqb gt c = false).
    { apply N.eqb_neq. intros <-. discriminate E. }
    rewrite Hc. destruct b; cbn [existsb]; rewrite IH; reflexivity.
  - cbn [existsb]. rewrite IH. reflexivity.
Qed.

Lemma noTag_collapseFrom (s : jstring) : forall b,
  noTag s = true -> noTag (collapseFrom b s) = true.
Proof.
  induction s as [|c r IH]; intros b H; [reflexivity|].
  simpl in *. apply andb_true_iff in H. destruct H as [H1 H2].
  destruct (isSpace c) eqn:E.
  - destruct b; [apply IH; exact H2|].
    simpl. apply IH. exact H2.
  - simpl. rewrite collapseFrom_gt, H1. apply IH. exact H2.
Qed.

(** *** Splitting, joining and title-casing *)

Lemma split_nonempty (sep : char) (s : jstring) : split sep s <> [].
Proof.
  destruct s as [|c r]; simpl; [discriminate|].
  destruct (c =? sep)%N; [discriminate|].
  destruct (split sep r); discriminate.
Qed.

Lemma join_cons_cons (sep x : char) (a : jstring) (rest : list jstring) :
  join sep ((x :: a) :: rest) = x :: join sep (a :: rest).
Proof. destruct rest; reflexivity. Qed.

Lemma join_nil_cons (sep : char) (x : jstring) (rest : list jstring) :
  join sep ([] :: x :: rest) = sep :: join sep (x :: rest).
Proof. reflexivity. Qed.

End JsFacts.

Module TitleFacts.
Import Js Types Validation Shape JsFacts.

(** Splitting at spaces, capitalising each word and joining again is the
    one-pass title-casing. *)
Lemma join_capitalize_split (r : jstring) : forall b : bool,
  join sp (match split sp r with
           | w :: ws => (if b then capitalize w else toLowerCase w)
                        :: List.map capitalize ws
           | [] => []
           end) = titleFrom b r.
Proof.
  induction r as [|c r IH]; intro b.
  - destruct b; reflexivity.
  - cbn [split titleFrom]. destruct (c =? sp)%N eqn:E.
    + specialize (IH true).
      pose proof (split_nonempty sp r) as Hne.
      destruct (split sp r) as [|w ws]; [contradiction|].
      assert (Hhd : (if b then capitalize [] else toLowerCase []) = @nil char)
        by (destruct b; reflexivity).
      rewrite Hhd. cbn [List.map] in IH. cbn [List.map].
      rewrite join_nil_cons, IH. reflexivity.
    + specialize (IH false).
      pose proof (split_nonempty sp r) as Hne.
      destruct (split sp r) as [|w ws]; [contradiction|].
      assert (Hhd : (if b then capitalize (c :: w) else toLowerCase (c :: w))
                    = (if b then upperChar c else lowerChar c) :: toLowerCase w)
        by (destruct b; reflexivity).
      rewrite Hhd, join_cons_cons, IH. reflexivity.
Qed.

Lemma title_spec (r : jstring) :
  join sp (List.map capitalize (split sp r)) = titleFrom true r.
Proof.
  rewrite <- (join_capitalize_split r true).
  destruct (split sp r); reflexivity.
Qed.

Lemma not_letter_sp : (sp < 65 \/ 122 < sp \/ 90 < sp < 97)%N.
Proof. left. reflexivity. Qed.
Lemma not_letter_lt : (lt < 65 \/ 122 < lt \/ 90 < lt < 97)%N.
Proof. left. reflexivity. Qed.
Lemma not_letter_gt : (gt < 65 \/ 122 < gt \/ 90 < gt < 97)%N.
Proof. left. reflexivity. Qed.

Lemma cased_eqb (b : bool) (c d : char) :
  (d < 65 \/ 122 < d \/ 90 < d < 97)%N -> (cased b c =? d)%N = (c =? d)%N.
Proof. destruct b; [apply upperChar_eqb | apply lowerChar_eqb]. Qed.

Lemma cased_isSpace (b : bool) (c : char) : isSpace (cased b c) = isSpace c.
Proof. destruct b; [apply isSpace_upperChar | apply isSpace_lowerChar]. Qed.

Lemma cased_idem (b : bool) (c : char) : cased b (cased b c) = cased b c.
Proof. destruct b; [apply upperChar_idem | apply lowerChar_idem]. Qed.

Lemma titleFrom_cons (b : bool) (c : char) (r : jstring) :
  titleFrom b (c :: r) =
  if (c =? sp)%N then sp :: titleFrom true r
  else cased b c :: titleFrom false r.
Proof. reflexivity. Qed.

Lemma titleFrom_normal (r : jstring) : forall a b,
  normalFrom a r = true -> normalFrom a (titleFrom b r) = true.
Proof.
  induction r as [|c r IH]; intros a b H; [exact H|].
  rewrite titleFrom_cons. cbn [normalFrom] in H.
  destruct (N.eqb_spec c sp) as [->|Hc].
  - cbn [normalFrom] in *. rewrite isSpace_sp in *.
    destruct a; [rewrite andb_false_r in H; discriminate H|].
    rewrite N.eqb_refl in *. apply IH. exact H.
  - cbn [normalFrom]. rewrite cased_isSpace.
    destruct (isSpace c).
    + apply andb_true_iff in H. destruct H as [H1 _].
      simpl in H1. discriminate H1.
    + apply IH. exact H.
Qed.

Lemma titleFrom_gt (r : jstring) : forall b,
  existsb (N.eqb gt) (titleFrom b r) = existsb (N.eqb gt) r.
Proof.
  induction r as [|c r IH]; intro b; [reflexivity|].
  rewrite titleFrom_cons. destruct (N.eqb_spec c sp) as [->|Hc].
  - cbn [existsb]. rewrite IH. reflexivity.
  - cbn [existsb]. rewrite IH. f_equal.
    rewrite (N.eqb_sym gt), (N.eqb_sym gt c). apply cased_eqb, not_letter_gt.
Qed.

Lemma titleFrom_noTag (r : jstring) : forall b,
  noTag r = true -> noTag (titleFrom b r) = true.
Proof.
  induction r as [|c r IH]; intros b H; [reflexivity|].
  rewrite titleFrom_cons. cbn [noTag] in H.
  apply andb_true_iff in H. destruct H as [H1 H2].
  destruct (N.eqb_spec c sp) as [->|Hc].
  - cbn [noTag]. rewrite titleFrom_gt, IH by exact H2. exact (andb_true_intro (conj H1 eq_refl)).
  - cbn [noTag]. rewrite titleFrom_gt, IH by exact H2.
    rewrite (cased_eqb b c lt not_letter_lt), H1. reflexivity.
Qed.

Lemma titleFrom_idem (r : jstring) : forall b,
  titleFrom b (titleFrom b r) = titleFrom b r.
Proof.
  induction r as [|c r IH]; intro b; [reflexivity|].
  rewrite titleFrom_cons. destruct (N.eqb_spec c sp) as [->|Hc].
  - rewrite titleFrom_cons. rewrite N.eqb_refl, IH. reflexivity.
  - rewrite titleFrom_cons, (cased_eqb b c sp not_letter_sp).
    destruct (N.eqb_spec c sp) as [X|_]; [contradiction|].
    rewrite cased_idem, IH. reflexivity.
Qed.

Lemma titleFrom_nil (r : jstring) (b : bool) : titleFrom b r = [] -> r = [].
Proof.
  destruct r as [|c r]; [reflexivity|]. rewrite titleFrom_cons.
  destruct (c =? sp)%N; discriminate.
Qed.

Lemma titleFrom_isNormal (r : jstring) :
  isNormal r = true -> isNormal (titleFrom true r) = true.
Proof.
  destruct r as [|c r]; [reflexivity|]. unfold isNormal. intro H.
  pose proof (titleFrom_normal (c :: r) true true H) as N.
  destruct (titleFrom true (c :: r)); [reflexivity | exact N].
Qed.

End TitleFacts.

Module RegexFacts.
Import Js Shape.

(** *** The matcher decides the language *)

Lemma app_nil_inv (s t : jstring) : s ++ t = [] -> s = [] /\ t = [].
Proof. destruct s; [intro H; split; [reflexivity | exact H] | discriminate]. Qed.

Lemma nullable_matches (r : regex) : nullable r = true <-> matches r [].
Proof.
  split.
  - induction r as [| |p|a IHa b IHb|a IHa b IHb|a IHa]; simpl; intro H;
      try discriminate H.
    + constructor.
    + apply andb_true_iff in H. destruct H as [Ha Hb].
      change (@nil char) with (@nil char ++ []). constructor; auto.
    + apply orb_true_iff in H. destruct H as [H|H];
        [apply m_alt_l | apply m_alt_r]; auto.
    + constructor.
  - intro H. remember (@nil char) as e eqn:He.
    induction H as [|p c Hp|a b s t Ha IHa Hb IHb|a b s Ha IHa|a b s Hb IHb
                    |a|a s t Ha IHa Hs IHs]; simpl; try reflexivity.
    + discriminate He.
    + apply app_nil_inv in He. destruct He as [-> ->].
      rewrite IHa, IHb; reflexivity.
    + rewrite IHa by exact He. reflexivity.
    + rewrite IHb by exact He. apply orb_true_r.
Qed.

Lemma deriv_sound (r : regex) : forall c s,
  matches (deriv c r) s -> matches r (c :: s).
Proof.
  induction r as [| |p|a IHa b IHb|a IHa b IHb|a IHa]; intros c s H; simpl in H.
  - inversion H.
  - inversion H.
  - destruct (p c) eqn:E; inversion H; subst. constructor. exact E.
  - destruct (nullable a) eqn:N.
    + inversion H as [| | | ? ? ? H1 | ? ? ? H1 | |]; subst.
      * inversion H1 as [| |? ? s1 s2 Ha Hb| | | |]; subst.
        change (c :: s1 ++ s2) with ((c :: s1) ++ s2). constructor; auto.
      * change (c :: s) with ([] ++ c :: s). constructor.
        -- apply nullable_matches. exact N.
        -- apply IHb. exact H1.
    + inversion H as [| |? ? s1 s2 Ha Hb| | | |]; subst.
      change (c :: s1 ++ s2) with ((c :: s1) ++ s2). constructor; auto.
  - inversion H; subst; [apply m_alt_l | apply m_alt_r]; auto.
  - inversion H as [| |? ? s1 s2 Ha Hb| | | |]; subst.
    change (c :: s1 ++ s2) with ((c :: s1) ++ s2). constructor; auto.
Qed.

Lemma deriv_complete (r : regex) (x : jstring) :
  matches r x -> forall c s, x = c :: s -> matches (deriv c r) s.
Proof.
  induction 1 as [|p d Hp|a b s1 t Ha IHa Hb IHb|a b s1 Ha IHa|a b s1 Hb IHb
                  |a|a s1 t Ha IHa Hs IHs]; intros c s E; simpl.
  - discriminate E.
  - injection E as -> <-. rewrite Hp. constructor.
  - destruct s1 as [|d s1].
    + simpl in E. assert (N : nullable a = true) by (apply nullable_matches; exact Ha).
      rewrite N. apply m_alt_r. apply IHb. exact E.
    + simpl in E. injection E as -> <-.
      assert (M : matches (Seq (deriv c a) b) (s1 ++ t))
        by (constructor; [apply IHa; reflexivity | exact Hb]).
      destruct (nullable a); [apply m_alt_l|]; exact M.
  - apply m_alt_l. apply IHa. exact E.
  - apply m_alt_r. apply IHb. exact E.
  - discriminate E.
  - destruct s1 as [|d s1].
    + simpl in E. apply IHs. exact E.
    + simpl in E. injection E as -> <-.
      constructor; [apply IHa; reflexivity | exact Hs].
Qed.

Lemma test_matches (r : regex) (s : jstring) : test r s = true <-> matches r s.
Proof.
  unfold test. revert r. induction s as [|c s IH]; intro r; simpl.
  - apply nullable_matches.
  - rewrite IH. split; [apply deriv_sound|].
    intro H. apply (deriv_complete r (c :: s) H). reflexivity.
Qed.

(** *** Runs of one character class *)

Lemma star_class (p : char -> bool) (s : jstring) :
  matches (Star (Class p)) s <-> forallb p s = true.
Proof.
  split.
  - intro H. remember (Star (Class p)) as r eqn:Hr.
    induction H as [| | | | |a|a s t Ha _ Hs IHs]; try discriminate Hr.
    + reflexivity.
    + injection Hr as ->. inversion Ha; subst. simpl.
      rewrite IHs by reflexivity. rewrite H0. reflexivity.
  - induction s as [|c s IH]; simpl; intro H; [constructor|].
    apply andb_true_iff in H. destruct H as [Hc Hs].
    change (c :: s) with ([c] ++ s). constructor; [constructor; exact Hc | auto].
Qed.

Lemma plus_class (p : char -> bool) (s : jstring) :
  matches (Plus (Class p)) s <-> s <> [] /\ forallb p s = true.
Proof.
  unfold Plus. split.
  - intro H. inversion H as [| |? ? s1 s2 Ha Hb| | | |]; subst.
    inversion Ha; subst. apply star_class in Hb. simpl. rewrite H1, Hb.
    split; [discriminate | reflexivity].
  - intros [Hne H]. destruct s as [|c s]; [contradiction|]. simpl in H.
    apply andb_true_iff in H. destruct H as [Hc Hs].
    change (c :: s) with ([c] ++ s).
    constructor; [constructor; exact Hc | apply star_class; exact Hs].
Qed.

(** *** The email pattern *)

(** A string matches the email pattern exactly when it is
    [local @ domain . rest] with three non-empty parts free of whitespace
    and of [@]. *)
Lemma emailPattern_shape (s : jstring) :
  test Constants.emailPattern s = true <->
  exists l d e,
    s = l ++ 64%N :: d ++ 46%N :: e /\
    l <> [] /\ d <> [] /\ e <> [] /\
    forallb emailOther l = true /\ forallb emailOther d = true /\
    forallb emailOther e = true.
Proof.
  rewrite test_matches. unfold Constants.emailPattern. cbv zeta.
  change (fun c : char => negb (isSpace c || isChar "@" c)) with emailOther.
  split.
  - intro H.
    inversion H as [| |? ? l r1 Hl H1| | | |]; subst.
    inversion H1 as [| |? ? a r2 Ha H2| | | |]; subst.
    inversion H2 as [| |? ? d r3 Hd H3| | | |]; subst.
    inversion H3 as [| |? ? b e Hb He| | | |]; subst.
    inversion Ha as [|? c Hc| | | | |]; subst.
    inversion Hb as [|? c' Hc'| | | | |]; subst.
    unfold isChar in Hc, Hc'. apply N.eqb_eq in Hc, Hc'. subst c c'.
    apply plus_class in Hl, Hd, He.
    exists l, d, e. simpl. tauto.
  - intros (l & d & e & -> & Hl & Hd & He & Fl & Fd & Fe).
    constructor; [apply plus_class; tauto|].
    change (64%N :: d ++ 46%N :: e) with ([64%N] ++ d ++ [46%N] ++ e).
    constructor; [constructor; reflexivity|].
    constructor; [apply plus_class; tauto|].
    constructor; [constructor; reflexivity | apply plus_class; tauto].
Qed.

Lemma length_pos (A : Type) (s : list A) : s <> [] -> 1 <= List.length s.
Proof. destruct s; [contradiction | simpl; lia]. Qed.

Lemma emailOther_not_space (s : jstring) :
  forallb emailOther s = true -> forallb (fun c => negb (isSpace c)) s = true.
Proof.
  induction s as [|c s IH]; simpl; [reflexivity|]. intro H.
  apply andb_true_iff in H. destruct H as [Hc Hs]. rewrite (IH Hs).
  unfold emailOther in Hc. apply negb_true_iff in Hc.
  apply orb_false_iff in Hc. destruct Hc as [Hc _]. rewrite Hc. reflexivity.
Qed.

Lemma forallb_app_true (p : char -> bool) (s t : jstring) :
  forallb p s = true -> forallb p t = true -> forallb p (s ++ t) = true.
Proof. intros Hs Ht. rewrite forallb_app, Hs, Ht. reflexivity. Qed.

(** What matches the email pattern has at least five characters and no
    whitespace. *)
Lemma emailPattern_length (s : jstring) :
  test Constants.emailPattern s = true ->
  5 <= List.length s /\ forallb (fun c => negb (isSpace c)) s = true.
Proof.
  intro H. apply emailPattern_shape in H.
  destruct H as (l & d & e & -> & Hl & Hd & He & Fl & Fd & Fe).
  apply length_pos in Hl, Hd, He. split.
  - rewrite length_app. cbn [List.length]. rewrite length_app.
    cbn [List.length]. lia.
  - apply forallb_app_true; [apply emailOther_not_space; exact Fl|].
    simpl. apply forallb_app_true; [apply emailOther_not_space; exact Fd|].
    simpl. apply emailOther_not_space. exact Fe.
Qed.

(** *** Patterns that do not see a change of characters *)

Lemma nullable_deriv_ignore (f : char -> char) (r : regex) (c : char) :
  classesIgnore f r -> deriv (f c) r = deriv c r.
Proof.
  induction r as [| |p|a IHa b IHb|a IHa b IHb|a IHa]; simpl; intro H;
    try reflexivity.
  - rewrite H. reflexivity.
  - destruct H as [Ha Hb]. rewrite IHa, IHb by assumption. reflexivity.
  - destruct H as [Ha Hb]. rewrite IHa, IHb by assumption. reflexivity.
  - rewrite IHa by assumption. reflexivity.
Qed.

Lemma classesIgnore_deriv (f : char -> char) (r : regex) (c : char) :
  classesIgnore f r -> classesIgnore f (deriv c r).
Proof.
  induction r as [| |p|a IHa b IHb|a IHa b IHb|a IHa]; simpl; intro H;
    try exact I.
  - destruct (p c); exact I.
  - destruct H as [Ha Hb]. destruct (nullable a); simpl; auto.
  - destruct H as [Ha Hb]. auto.
  - auto.
Qed.

Lemma test_map_ignore (f : char -> char) (s : jstring) : forall r,
  classesIgnore f r -> test r (List.map f s) = test r s.
Proof.
  unfold test. induction s as [|c s IH]; intros r H; [reflexivity|].
  simpl. rewrite (nullable_deriv_ignore f r c H).
  apply IH. apply classesIgnore_deriv. exact H.
Qed.

End RegexFacts.

Module ValidationFacts.
Import Js Types Constants Validation Shape JsFacts TitleFacts.

Lemma Field_eqb_eq (a b : Field) : Field_eqb a b = true <-> a = b.
Proof. destruct a, b; simpl; split; intro H; try reflexivity; discriminate H. Qed.

(** *** Fixed points of the sanitizers *)

Lemma sanitizeInput_fixed (r : jstring) :
  isNormal r = true -> noTag r = true -> sanitizeInput (VString r) = r.
Proof.
  intros Hn Ht. unfold sanitizeInput.
  destruct r as [|c r]; [reflexivity|]. cbn [nonEmpty].
  rewrite (isNormal_trim _ Hn), (noTag_stripTags _ Ht).
  apply isNormal_collapse. exact Hn.
Qed.

Lemma sanitizeInput_shape (s : jstring) :
  stripsClean s ->
  isNormal (sanitizeInput (VString s)) = true /\
  noTag (sanitizeInput (VString s)) = true.
Proof.
  intro H. unfold sanitizeInput.
  destruct (nonEmpty s); [|split; reflexivity]. split.
  - apply collapse_normal. exact H.
  - apply noTag_collapseFrom, noTag_stripFrom.
Qed.

Lemma sanitizeInput_idem (s : jstring) :
  stripsClean s ->
  sanitizeInput (VString (sanitizeInput (VString s))) = sanitizeInput (VString s).
Proof.
  intro H. destruct (sanitizeInput_shape s H) as [Hn Ht].
  apply sanitizeInput_fixed; assumption.
Qed.

Lemma sanitizeName_title (s : jstring) :
  sanitizeName (VString s) =
  if nonEmpty s then titleFrom true (sanitizeInput (VString s)) else [].
Proof.
  unfold sanitizeName. destruct (nonEmpty s); [|reflexivity]. apply title_spec.
Qed.

Lemma sanitizeName_idem (s : jstring) :
  stripsClean s ->
  sanitizeName (VString (sanitizeName (VString s))) = sanitizeName (VString s).
Proof.
  intro H. rewrite (sanitizeName_title s).
  destruct (nonEmpty s); [|reflexivity].
  destruct (sanitizeInput_shape s H) as [Hn Ht].
  set (r := sanitizeInput (VString s)) in *.
  rewrite sanitizeName_title.
  destruct (titleFrom true r) as [|c n] eqn:E; [reflexivity|].
  cbn [nonEmpty]. rewrite <- E.
  rewrite sanitizeInput_fixed.
  - apply titleFrom_idem.
  - apply titleFrom_isNormal. exact Hn.
  - apply titleFrom_noTag. exact Ht.
Qed.

Lemma toLowerCase_idem (s : jstring) : toLowerCase (toLowerCase s) = toLowerCase s.
Proof.
  unfold toLowerCase. rewrite map_map. apply map_ext. apply lowerChar_idem.
Qed.

Lemma sanitizeEmail_idem (v : Value) :
  sanitizeEmail (VString (sanitizeEmail v)) = sanitizeEmail v.
Proof.
  destruct v as [|b|s]; try reflexivity. unfold sanitizeEmail.
  destruct (nonEmpty s); [|reflexivity].
  destruct (toLowerCase (trim s)) as [|c e] eqn:E; [reflexivity|].
  cbn [nonEmpty]. rewrite <- E. unfold toLowerCase at 2.
  rewrite (trim_map lowerChar (trim s) isSpace_lowerChar), trim_idem.
  apply toLowerCase_idem.
Qed.

Lemma sanitizeFormData_eq (x : FormData) :
  sanitizeFormData x =
  [ (K_name, VString (sanitizeName (get x K_name)));
    (K_email, VString (sanitizeEmail (get x K_email)));
    (K_subscribed_newsletter, get x K_subscribed_newsletter);
    (K_message, optionalOut (get x K_message));
    (K_company, optionalOut (get x K_company));
    (K_phone, optionalOut (get x K_phone)) ].
Proof. reflexivity. Qed.

Lemma optionalOut_idem (v : Value) :
  cleanOptional v -> optionalOut (optionalOut v) = optionalOut v.
Proof.
  intros [->|(s & -> & Hc & Hs)]; [reflexivity|].
  unfold optionalOut at 2. cbn [truthy].
  destruct s as [|c s]; [reflexivity|]. cbn [nonEmpty].
  destruct Hs as [Hs|Hs]; [discriminate Hs|].
  unfold optionalOut. cbn [truthy].
  destruct (sanitizeInput (VString (c :: s))) as [|d r] eqn:E; [contradiction|].
  cbn [nonEmpty]. rewrite <- E. rewrite sanitizeInput_idem by exact Hc.
  reflexivity.
Qed.

Lemma sanitizeName_nonstring (v : Value) :
  (forall s, v <> VString s) -> sanitizeName v = [].
Proof. destruct v; intro H; try reflexivity. exfalso. exact (H _ eq_refl). Qed.

Lemma sanitizeName_value_idem (v : Value) :
  cleanName v ->
  sanitizeName (VString (sanitizeName v)) = sanitizeName v.
Proof.
  intro H. destruct v as [|b|s]; try reflexivity.
  apply sanitizeName_idem. exact (proj1 (H s eq_refl)).
Qed.


(** *** Sanitization *)

(** C4, as the specification states it, fails: sanitizing the name
    ["<b> john"] gives [" John"], and sanitizing that gives ["John"]. *)
Lemma sanitize_twice_differs :
  sanitizeFormData (sanitizeFormData taggedName) <> sanitizeFormData taggedName.
Proof. intro H. vm_compute in H. discriminate H. Qed.

(** C4, amended: sanitizing is idempotent on every form data whose name
    and optional values keep no whitespace at either end once their tags are
    removed, and whose optional values are absent, empty or not sanitized to
    the empty string (ASCII text in name and email).  The email and the
    newsletter flag need nothing. *)
Theorem sanitize_idempotent_on_clean (x : FormData) :
  cleanName (get x K_name) ->
  asciiValue (get x K_email) ->
  cleanOptional (get x K_message) ->
  cleanOptional (get x K_company) ->
  cleanOptional (get x K_phone) ->
  sanitizeFormData (sanitizeFormData x) = sanitizeFormData x.
Proof.
  intros Hn _ Hm Hc Hp.
  rewrite (sanitizeFormData_eq (sanitizeFormData x)).
  rewrite (sanitizeFormData_eq x). cbn [get Field_eqb].
  rewrite (sanitizeName_value_idem _ Hn), sanitizeEmail_idem.
  rewrite (optionalOut_idem _ Hm), (optionalOut_idem _ Hc), (optionalOut_idem _ Hp).
  reflexivity.
Qed.

Lemma sanitize_idempotent_on_clean_witness :
  let x := [ (K_name, VString (str "<b>john</b> o'neil"));
             (K_email, VString (str " John@Ex.com "));
             (K_subscribed_newsletter, VBool false);
             (K_message, VString (str " hello   <i>there</i> ")) ] in
  sanitizeFormData x =
    [ (K_name, VString (str "John O'neil"));
      (K_email, VString (str "john@ex.com"));
      (K_subscribed_newsletter, VBool false);
      (K_message, VString (str "hello there"));
      (K_company, VUndefined); (K_phone, VUndefined) ] /\
  sanitizeFormData (sanitizeFormData x) = sanitizeFormData x.
Proof.
  split; [reflexivity|].
  apply sanitize_idempotent_on_clean.
  - intros s H. injection H as <-. split; [reflexivity | repeat constructor].
  - intros s H. injection H as <-. repeat constructor.
  - right. eexists. split; [reflexivity|]. split; [reflexivity|].
    right. discriminate.
  - left. reflexivity.
  - left. reflexivity.
Defined.


Lemma get_sanitized_optional (x : FormData) (k : Field) :
  In k [K_message; K_company; K_phone] ->
  get (sanitizeFormData x) k = optionalOut (get x k).
Proof.
  intros [<-|[<-|[<-|[]]]]; reflexivity.
Qed.

(** C10: an optional field comes out [undefined] exactly when it went in
    absent, [undefined] or empty; any other string comes out as the string
    [sanitizeInput] makes of it, also when that is the empty string (a
    value of whitespace only, or of tags only). *)
Theorem sanitize_optional_fields (x : FormData) (k : Field) :
  In k [K_message; K_company; K_phone] ->
  get x k = VUndefined \/ isString (get x k) ->
  (get (sanitizeFormData x) k = VUndefined <->
   get x k = VUndefined \/ get x k = VString []) /\
  (forall s, get x k = VString s -> s <> [] ->
     get (sanitizeFormData x) k = VString (sanitizeInput (VString s)) /\
     sanitizeInput (VString s) = collapse (stripTags (trim s))) /\
  get (sanitizeFormData [(k, VString (str "   "))]) k = VString [] /\
  get (sanitizeFormData [(k, VString (str "<br><hr>"))]) k = VString [].
Proof.
  intros Hk Hv. rewrite (get_sanitized_optional x k Hk).
  split; [|split].
  - unfold optionalOut. destruct Hv as [->|[s ->]].
    + cbn. split; [left; reflexivity | reflexivity].
    + destruct s as [|c s]; cbn.
      * split; [right; reflexivity | reflexivity].
      * split; [discriminate|]. intros [H|H]; discriminate H.
  - intros s Hs Hne. rewrite Hs. unfold optionalOut. cbn [truthy].
    destruct s as [|c s]; [contradiction|]. split; reflexivity.
  - destruct Hk as [<-|[<-|[<-|[]]]]; split; reflexivity.
Qed.

Lemma sanitize_optional_fields_witness :
  let x := [ (K_name, VString (str "Ann")); (K_email, VString (str "a@b.co"));
             (K_subscribed_newsletter, VBool false);
             (K_company, VString (str " <b></b> ")) ] in
  get (sanitizeFormData x) K_company = VString [] /\
  get (sanitizeFormData x) K_phone = VUndefined.
Proof.
  intro x.
  assert (Hc : In K_company [K_message; K_company; K_phone])
    by (right; left; reflexivity).
  assert (Hp : In K_phone [K_message; K_company; K_phone])
    by (right; right; left; reflexivity).
  split.
  - destruct (sanitize_optional_fields x K_company Hc
                (or_intror (ex_intro _ _ eq_refl))) as (_ & H & _).
    destruct (H _ eq_refl) as [H1 H2]; [discriminate|].
    rewrite H1. reflexivity.
  - destruct (sanitize_optional_fields x K_phone Hp (or_introl eq_refl))
      as (H & _).
    apply H. left. reflexivity.
Defined.

(** *** Validation *)

Lemma VALIDATION_RULES_required (f : Field) (rules : Rules) :
  VALIDATION_RULES f = Some rules ->
  (required rules = true <-> In f [K_name; K_email]) /\
  (required rules = false <-> In f [K_message; K_company; K_phone]).
Proof.
  destruct f; intro H; inversion H; subst; cbn; split; split; intro G;
    try reflexivity; try discriminate G; try tauto;
    repeat (destruct G as [G|G]; try discriminate G); try contradiction.
Qed.

Lemma nonEmpty_false (s : jstring) : nonEmpty s = false <-> s = [].
Proof. destruct s; split; intro H; try reflexivity; discriminate H. Qed.

Lemma nonEmpty_true (s : jstring) : nonEmpty s = true <-> s <> [].
Proof.
  destruct s; split; intro H; try reflexivity; try discriminate.
  exfalso. apply H. reflexivity.
Qed.

(** For the rules of the program, the guarded comparisons of
    [validateField] are the plain comparisons of [firstViolation]. *)
Lemma ordered_checks (f : Field) (rules : Rules) (t : jstring) :
  VALIDATION_RULES f = Some rules ->
  match belowMin rules (List.length t) with
  | Some m => Some (minLengthError f m)
  | None =>
      match aboveMax rules (List.length t) with
      | Some m => Some (maxLengthError f m)
      | None => if failsPattern rules t then Some (patternError f) else None
      end
  end = firstViolation f rules t.
Proof.
  assert (P : (if failsPattern rules t then Some (patternError f) else None)
              = patternViolation f rules t).
  { unfold failsPattern, patternViolation.
    destruct (pattern rules) as [p|]; [|reflexivity].
    destruct (test p t); reflexivity. }
  rewrite P. unfold firstViolation. clear P.
  generalize (patternViolation f rules t). intro q.
  destruct f; intro H; inversion H; subst; clear H;
    unfold belowMin, aboveMax; cbn [minLength maxLength];
    cbn [Nat.eqb negb andb]; try reflexivity;
    destruct (_ <? _); try reflexivity; destruct (_ <? _); reflexivity.
Qed.

(** The pattern step, in terms of the language of the pattern. *)
Lemma patternViolation_matches (f : Field) (rules : Rules) (t : jstring) :
  (patternViolation f rules t = None <->
   forall p, pattern rules = Some p -> matches p t) /\
  (patternViolation f rules t = Some (patternError f) <->
   exists p, pattern rules = Some p /\ ~ matches p t).
Proof.
  unfold patternViolation. destruct (pattern rules) as [p|].
  - destruct (test p t) eqn:T.
    + apply RegexFacts.test_matches in T. split; split.
      * intros _ q Hq. inversion Hq; subst. exact T.
      * reflexivity.
      * discriminate.
      * intros (q & Hq & N). inversion Hq; subst. contradiction.
    + assert (N : ~ matches p t).
      { intro M. apply RegexFacts.test_matches in M. rewrite M in T.
        discriminate T. }
      split; split.
      * discriminate.
      * intro A. exfalso. exact (N (A p eq_refl)).
      * intros _. exists p. split; [reflexivity | exact N].
      * reflexivity.
  - split; split.
    + intros _ q Hq. discriminate Hq.
    + reflexivity.
    + discriminate.
    + intros (q & Hq & _). discriminate Hq.
Qed.

(** C6: what [validateField] answers, for every field and every value.
    For the five fields that have rules: a required field (name, email)
    that is blank gives the REQUIRED_FIELD error and an optional field
    (message, company, phone) that is blank gives no error; a boolean is
    accepted; any other value is checked, trimmed, against the minimum
    length, then the maximum length, then the pattern, and the first rule
    violated is the error, so a length violation wins over a pattern
    violation, and a value within the lengths is accepted exactly when it
    belongs to the language of the pattern.  The sixth field,
    [subscribed_newsletter], has no rules, and for it every value, the
    booleans too, gives the INVALID_FIELD error: there the code departs
    from the order of checks the specification describes. *)
Theorem validateField_rule_order (f : Field) (v : Value) :
  (VALIDATION_RULES f = None <-> f = K_subscribed_newsletter) /\
  (f = K_subscribed_newsletter ->
     validateField f v = Some (invalidFieldError f)) /\
  code (invalidFieldError f) = "INVALID_FIELD"%string /\
  forall rules, VALIDATION_RULES f = Some rules ->
    (required rules = true <-> In f [K_name; K_email]) /\
    (required rules = false <-> In f [K_message; K_company; K_phone]) /\
    (blank v ->
       validateField f v =
         if required rules then Some (requiredError f) else None) /\
    code (requiredError f) = "REQUIRED_FIELD"%string /\
    (forall b, v = VBool b -> validateField f v = None) /\
    (forall s, v = VString s -> trim s <> [] ->
       validateField f v = firstViolation f rules (trim s)) /\
    (forall s m, v = VString s -> trim s <> [] ->
       minLength rules = Some m -> List.length (trim s) < m ->
       validateField f v = Some (minLengthError f m)) /\
    (forall s m, v = VString s ->
       maxLength rules = Some m -> m < List.length (trim s) ->
       validateField f v = Some (maxLengthError f m)) /\
    (forall s, v = VString s -> trim s <> [] ->
       (forall m, minLength rules = Some m -> m <= List.length (trim s)) ->
       (forall m, maxLength rules = Some m -> List.length (trim s) <= m) ->
       (validateField f v = None <->
        forall p, pattern rules = Some p -> matches p (trim s)) /\
       (validateField f v = Some (patternError f) <->
        exists p, pattern rules = Some p /\ ~ matches p (trim s))).
Proof.
  split; [destruct f; split; intro H; try reflexivity; discriminate H|].
  split; [intros ->; reflexivity|]. split; [reflexivity|].
  intros rules H. destruct (VALIDATION_RULES_required f rules H) as [R1 R2].
  assert (C : forall s, v = VString s -> trim s <> [] ->
                validateField f v = firstViolation f rules (trim s)).
  { intros s -> Hs. unfold validateField. rewrite H. cbv zeta.
    apply nonEmpty_true in Hs. rewrite Hs. cbn [negb].
    rewrite !andb_false_r. apply ordered_checks. exact H. }
  split; [exact R1|]. split; [exact R2|].
  split; [|split; [reflexivity|split; [|split; [exact C|split; [|split]]]]].
  - intros [->|(s & -> & Hs)]; unfold validateField; rewrite H.
    + reflexivity.
    + cbv zeta. rewrite Hs. cbn [nonEmpty negb].
      destruct (required rules); reflexivity.
  - intros b ->. unfold validateField. rewrite H. reflexivity.
  - intros s m Hv Hs Hm Hlt. rewrite (C s Hv Hs).
    unfold firstViolation. rewrite Hm.
    apply Nat.ltb_lt in Hlt. rewrite Hlt. reflexivity.
  - intros s m Hv Hm Hlt.
    assert (Hs : trim s <> []).
    { intro E. rewrite E in Hlt. simpl in Hlt. lia. }
    rewrite (C s Hv Hs). unfold firstViolation. rewrite Hm.
    assert (Hmin : match minLength rules with
                   | Some n => n <= m | None => True end).
    { destruct f; inversion H; subst; cbn in *; inversion Hm; subst;
        try exact I; lia. }
    pose proof Hlt as Hlt'. apply Nat.ltb_lt in Hlt'.
    destruct (minLength rules) as [n|].
    + destruct (Nat.ltb_spec (List.length (trim s)) n) as [X|_]; [lia|].
      rewrite Hlt'. reflexivity.
    + rewrite Hlt'. reflexivity.
  - intros s Hv Hs Hmin Hmax. rewrite (C s Hv Hs).
    assert (E : firstViolation f rules (trim s)
                = patternViolation f rules (trim s)).
    { unfold firstViolation.
      destruct (minLength rules) as [m|].
      - specialize (Hmin m eq_refl).
        destruct (Nat.ltb_spec (List.length (trim s)) m) as [X|_]; [lia|].
        destruct (maxLength rules) as [M|]; [|reflexivity].
        specialize (Hmax M eq_refl).
        destruct (Nat.ltb_spec M (List.length (trim s))) as [X|_]; [lia|].
        reflexivity.
      - destruct (maxLength rules) as [M|]; [|reflexivity].
        specialize (Hmax M eq_refl).
        destruct (Nat.ltb_spec M (List.length (trim s))) as [X|_]; [lia|].
        reflexivity. }
    rewrite E. apply patternViolation_matches.
Qed.

Lemma validateField_rule_order_witness :
  validateField K_name (VString (str "  ")) = Some (requiredError K_name) /\
  validateField K_phone VUndefined = None /\
  validateField K_email (VString (str " a@b "))
    = Some (minLengthError K_email 5) /\
  validateField K_name (VString (str "1")) = Some (minLengthError K_name 2) /\
  validateField K_name (VString (str "J0hn")) = Some (patternError K_name) /\
  validateField K_email (VString (str " ann@x.com ")) = None /\
  validateField K_subscribed_newsletter (VBool false)
    = Some (invalidFieldError K_subscribed_newsletter).
Proof.
  destruct (validateField_rule_order K_name (VString (str "  ")))
    as (_ & _ & _ & N0).
  destruct (N0 _ eq_refl) as (_ & _ & A & _).
  destruct (validateField_rule_order K_name (VString (str "1")))
    as (_ & _ & _ & N1).
  destruct (N1 _ eq_refl) as (_ & _ & _ & _ & _ & _ & D & _).
  destruct (validateField_rule_order K_phone VUndefined) as (_ & _ & _ & P0).
  destruct (P0 _ eq_refl) as (_ & _ & B & _).
  destruct (validateField_rule_order K_email (VString (str " a@b ")))
    as (_ & _ & _ & E0).
  destruct (E0 _ eq_refl) as (_ & _ & _ & _ & _ & C & _).
  destruct (validateField_rule_order K_name (VString (str "J0hn")))
    as (_ & _ & _ & N2).
  destruct (N2 _ eq_refl) as (_ & _ & _ & _ & _ & _ & _ & _ & G).
  destruct (validateField_rule_order K_email (VString (str " ann@x.com ")))
    as (_ & _ & _ & E1).
  destruct (E1 _ eq_refl) as (_ & _ & _ & _ & _ & _ & _ & _ & K).
  destruct (validateField_rule_order K_subscribed_newsletter (VBool false))
    as (_ & S & _).
  split; [|split; [|split; [|split; [|split; [|split]]]]].
  - apply A. right. eexists. split; reflexivity.
  - apply B. left. reflexivity.
  - rewrite (C _ eq_refl); [reflexivity | discriminate].
  - apply (D (str "1") 2 eq_refl);
      [discriminate | reflexivity | apply Nat.lt_succ_diag_r].
  - destruct (G (str "J0hn") eq_refl) as [_ G2].
    + discriminate.
    + intros m Hm. inversion Hm; subst. cbn. lia.
    + intros m Hm. inversion Hm; subst. cbn. lia.
    + apply G2. exists namePattern. split; [reflexivity|].
      intro M. apply RegexFacts.test_matches in M. discriminate M.
  - destruct (K (str " ann@x.com ") eq_refl) as [K1 _].
    + discriminate.
    + intros m Hm. inversion Hm; subst. cbn. lia.
    + intros m Hm. inversion Hm; subst. cbn. lia.
    + apply K1. intros p Hp. inversion Hp; subst.
      apply RegexFacts.test_matches. reflexivity.
  - apply S. reflexivity.
Defined.


(** [validateFormData] reports the entry without rules whenever the object
    has the key [subscribed_newsletter]. *)
Lemma collectErrors_length (d props : FormData) :
  List.length (collectErrors d props) <= List.length props.
Proof.
  induction props as [|[k v] rest IH]; simpl; [lia|].
  destruct (validateField k (get d k)); simpl; lia.
Qed.

Lemma validateFormData_iff (d : FormData) :
  Types.isValid (validateFormData d) = true <->
  Types.errors (validateFormData d) = [].
Proof.
  unfold validateFormData. cbn [Types.isValid Types.errors].
  destruct (collectErrors d d); simpl; split; intro H;
    try reflexivity; discriminate H.
Qed.

(** C5: [validateAndSanitizeFormData] does validate the sanitized data and
    return it, and the example sanitizes as the specification says; but the
    validation of the sanitized example is not valid: the key
    [subscribed_newsletter] has no entry in [VALIDATION_RULES], and
    [validateField] answers INVALID_FIELD for it before it looks at the
    boolean value.  The same holds for every input. *)
Theorem validateAndSanitize_example :
  (forall x,
     sanitizedData (validateAndSanitizeFormData x) = sanitizeFormData x /\
     v_isValid (validateAndSanitizeFormData x)
       = Types.isValid (validateFormData (sanitizeFormData x)) /\
     v_errors (validateAndSanitizeFormData x)
       = Types.errors (validateFormData (sanitizeFormData x))) /\
  sanitizedData (validateAndSanitizeFormData johnDoe) = johnDoeSanitized /\
  v_isValid (validateAndSanitizeFormData johnDoe) = false /\
  v_errors (validateAndSanitizeFormData johnDoe)
    = [invalidFieldError K_subscribed_newsletter] /\
  (forall b, validateField K_subscribed_newsletter (VBool b)
             = Some (invalidFieldError K_subscribed_newsletter)) /\
  (forall x, v_isValid (validateAndSanitizeFormData x) = false).
Proof.
  split; [intro x; repeat split|].
  split; [reflexivity|]. split; [reflexivity|]. split; [reflexivity|].
  split; [intro b; reflexivity|].
  intro x. unfold validateAndSanitizeFormData. cbn [v_isValid].
  unfold validateFormData. cbn [Types.isValid].
  rewrite (sanitizeFormData_eq x).
  cbn [collectErrors get Field_eqb].
  change (validateField K_subscribed_newsletter (get x K_subscribed_newsletter))
    with (Some (invalidFieldError K_subscribed_newsletter)).
  repeat match goal with
         | |- context [match ?v with Some _ => _ | None => _ end] =>
             destruct v
         end; reflexivity.
Qed.

End ValidationFacts.

Module DatabaseFacts.
Import Js Types Database Scenarios.
Local Open Scope string_scope.
Local Open Scope list_scope.

Section Retry.
Variables E T : Type.
Variable fn : nat -> Settled E T.
Variable config : RetryConfig.

Local Abbreviation loop := (retryLoop fn config).
Local Abbreviation backoff := (backoffFrom config).

(** The loop never invokes [fn] more often than it has attempts left. *)
Lemma retryLoop_calls (remaining : nat) : forall attempt lastError,
  calls (snd (loop remaining attempt lastError)) <= remaining.
Proof.
  induction remaining as [|n IH]; intros attempt lastError; simpl;
    [unfold calls; simpl; lia|].
  destruct (fn attempt) as [v|e]; simpl; [unfold calls; simpl; lia|].
  destruct (Nat.eqb attempt (maxAttempts config)); [unfold calls; simpl; lia|].
  specialize (IH (S attempt) (Some e)).
  destruct (loop n (S attempt) (Some e)) as [r tr]. simpl in *.
  unfold calls in *. simpl. lia.
Qed.

(** [k] failures, each followed by its delay, and then a success. *)
Lemma retryLoop_succeeds (k : nat) : forall remaining attempt lastError v,
  attempt + remaining = S (maxAttempts config) ->
  attempt + k <= maxAttempts config ->
  (forall i, attempt <= i < attempt + k -> exists e, fn i = Rejected e) ->
  fn (attempt + k) = Resolved v ->
  loop remaining attempt lastError
    = (Resolved v, backoff attempt k ++ [Call (attempt + k)]).
Proof.
  induction k as [|k IH]; intros remaining attempt lastError v Hrem Hle Hfail Hok.
  - rewrite Nat.add_0_r in *.
    destruct remaining as [|n]; [lia|]. simpl. rewrite Hok. reflexivity.
  - destruct remaining as [|n]; [lia|]. simpl.
    destruct (Hfail attempt ltac:(lia)) as [e He]. rewrite He.
    destruct (Nat.eqb_spec attempt (maxAttempts config)) as [X|_]; [lia|].
    rewrite (IH n (S attempt) (Some e) v); try lia.
    + simpl. rewrite <- plus_n_Sm. reflexivity.
    + intros i Hi. apply Hfail. lia.
    + rewrite <- Hok. f_equal. lia.
Qed.

(** Every attempt fails: the error of the last one is thrown. *)
Lemma retryLoop_exhausts (remaining : nat) : forall attempt lastError e,
  attempt + remaining = S (maxAttempts config) ->
  1 <= remaining ->
  (forall i, attempt <= i <= maxAttempts config -> exists e', fn i = Rejected e') ->
  fn (maxAttempts config) = Rejected e ->
  loop remaining attempt lastError
    = (Rejected (Some e),
       backoff attempt (remaining - 1) ++ [Call (maxAttempts config)]).
Proof.
  induction remaining as [|n IH]; intros attempt lastError e Hrem Hpos Hfail Hlast;
    [lia|].
  simpl. destruct (Hfail attempt ltac:(lia)) as [e' He']. rewrite He'.
  destruct (Nat.eqb_spec attempt (maxAttempts config)) as [X|X].
  - assert (n = 0) by lia. subst n. simpl.
    rewrite X in He'. rewrite Hlast in He'. injection He' as <-.
    rewrite X. reflexivity.
  - rewrite (IH (S attempt) (Some e') e); try lia; try assumption.
    + rewrite Nat.sub_0_r. destruct n as [|n]; [lia|].
      simpl. rewrite Nat.sub_0_r. reflexivity.
    + intros i Hi. apply Hfail. lia.
Qed.

Lemma delays_backoff (n : nat) : forall attempt,
  delays (backoff attempt n ++ [Call (attempt + n)])
    = List.map (delayTime config) (seq attempt n).
Proof.
  induction n as [|n IH]; intro attempt; [reflexivity|].
  simpl. f_equal. rewrite <- (IH (S attempt)). rewrite <- plus_n_Sm.
  reflexivity.
Qed.
End Retry.


Lemma calls_backoff (config : RetryConfig) (n : nat) : forall a c,
  calls (backoffFrom config a n ++ [Call c]) = S n.
Proof.
  induction n as [|n IH]; intros a c; [reflexivity|].
  unfold calls in *. simpl. rewrite IH. reflexivity.
Qed.

(** C3: with three attempts, an initial delay of 100 ms and a multiplier of
    2, a call that fails twice and then succeeds returns the successful
    result at the third attempt, after delays of 100 ms and 200 ms.  In
    general [withRetry] never makes more than [maxAttempts] calls; after the
    failed attempt [k] it waits [delayMs * backoffMultiplier ^ (k - 1)];
    the first success is returned; and when every attempt fails, the error
    of the last one is thrown. *)
Theorem withRetry_backoff (E T : Type) (fn : nat -> Settled E T)
  (config : RetryConfig) :
  (forall e1 e2 v,
     config = scenarioConfig ->
     fn 1 = Rejected e1 -> fn 2 = Rejected e2 -> fn 3 = Resolved v ->
     withRetry fn config
       = (Resolved v, [Call 1; Sleep 100; Call 2; Sleep 200; Call 3])) /\
  calls (snd (withRetry fn config)) <= maxAttempts config /\
  (forall j v,
     1 <= j <= maxAttempts config ->
     (forall i, 1 <= i < j -> exists e, fn i = Rejected e) ->
     fn j = Resolved v ->
     withRetry fn config
       = (Resolved v, backoffFrom config 1 (j - 1) ++ [Call j]) /\
     delays (snd (withRetry fn config))
       = List.map (fun k => delayMs config
                            * backoffMultiplier config ^ Z.of_nat (k - 1))%Z
                  (seq 1 (j - 1))) /\
  (forall e,
     1 <= maxAttempts config ->
     (forall i, 1 <= i <= maxAttempts config -> exists e', fn i = Rejected e') ->
     fn (maxAttempts config) = Rejected e ->
     withRetry fn config
       = (Rejected (Some e),
          backoffFrom config 1 (maxAttempts config - 1)
            ++ [Call (maxAttempts config)]) /\
     calls (snd (withRetry fn config)) = maxAttempts config).
Proof.
  assert (S : forall j v,
     1 <= j <= maxAttempts config ->
     (forall i, 1 <= i < j -> exists e, fn i = Rejected e) ->
     fn j = Resolved v ->
     withRetry fn config
       = (Resolved v, backoffFrom config 1 (j - 1) ++ [Call j])).
  { intros j v Hj Hfail Hok. unfold withRetry.
    rewrite (retryLoop_succeeds E T fn config (j - 1) (maxAttempts config) 1 None v);
      try lia.
    - repeat f_equal. lia.
    - intros i Hi. apply Hfail. lia.
    - rewrite <- Hok. f_equal. lia. }
  split; [|split; [|split]].
  - intros e1 e2 v -> H1 H2 H3.
    rewrite (S 3 v); [reflexivity | cbn; lia | | exact H3].
    intros i Hi. assert (Hc : i = 1 \/ i = 2) by lia.
    destruct Hc as [-> | ->]; eauto.
  - apply retryLoop_calls.
  - intros j v Hj Hfail Hok. split; [apply S; assumption|].
    rewrite (S j v Hj Hfail Hok). cbn [snd].
    replace (Call j) with (Call (1 + (j - 1))) by (f_equal; lia).
    apply delays_backoff.
  - intros e Hpos Hfail Hlast.
    assert (X : withRetry fn config
       = (Rejected (Some e),
          backoffFrom config 1 (maxAttempts config - 1)
            ++ [Call (maxAttempts config)])).
    { unfold withRetry. apply retryLoop_exhausts; try lia; assumption. }
    split; [exact X|]. rewrite X. cbn [snd].
    rewrite calls_backoff. lia.
Qed.

Lemma withRetry_backoff_witness :
  withRetry failsTwice scenarioConfig
    = (Resolved 42, [Call 1; Sleep 100; Call 2; Sleep 200; Call 3]) /\
  delays (snd (withRetry failsTwice scenarioConfig)) = [100; 200]%Z /\
  withRetry (fun k => @Rejected nat bool k) DEFAULT_RETRY_CONFIG
    = (Rejected (Some 3), [Call 1; Sleep 1000; Call 2; Sleep 2000; Call 3]).
Proof.
  destruct (withRetry_backoff _ _ failsTwice scenarioConfig) as (A & _ & B & _).
  destruct (withRetry_backoff _ _ (fun k => @Rejected nat bool k)
              DEFAULT_RETRY_CONFIG) as (_ & _ & _ & C).
  split; [|split].
  - apply (A "timeout" "connection reset" 42); reflexivity.
  - destruct (B 3 42) as [_ D].
    + simpl. lia.
    + intros i Hi. assert (Hc : i = 1 \/ i = 2) by lia.
      destruct Hc as [-> | ->]; eexists; reflexivity.
    + reflexivity.
    + rewrite D. reflexivity.
  - destruct (C 3) as [D _].
    + simpl. lia.
    + intros i _. eexists. reflexivity.
    + reflexivity.
    + rewrite D. reflexivity.
Defined.

(** *** Error translation and the duplicate scenario *)

Lemma handleDatabaseError_unique (e : PostgrestError) :
  pgCode e = "23505" ->
  handleDatabaseError (ThrownPostgrest e)
    = mkJsError "This email is already registered".
Proof. intro H. unfold handleDatabaseError. rewrite H. reflexivity. Qed.

(** C1, as the specification states it, fails: the store answers the
    insert with the unique-violation code, and the client makes three
    attempts, not one. *)
Lemma duplicate_is_retried :
  calls (snd (submitInterestForm duplicateEnv annForm "landing_page")) <> 1.
Proof. intro H. vm_compute in H. discriminate H. Qed.

(** C1, amended: a unique violation is retried like every other failure.
    When the store answers each attempt of a configured client with the
    unique-violation code, [submitInterestForm] returns [success = false]
    with the message "This email is already registered", after three insert
    attempts (two retries, delayed 1000 ms and 2000 ms). *)
Theorem duplicate_after_retries (env : Env) (formData : FormData)
  (source : string) :
  isSupabaseConfigured env = true ->
  (forall row k, exists r e,
      insert env row k = Resolved r /\
      resp_error r = Some e /\ pgCode e = "23505") ->
  submitInterestForm env formData source
    = (Resolved (mkDb None
                   (Some (mkJsError "This email is already registered"))
                   false),
       [Call 1; Sleep 1000; Call 2; Sleep 2000; Call 3]) /\
  calls (snd (submitInterestForm env formData source)) = 3.
Proof.
  intros Hc Hdup.
  assert (X : submitInterestForm env formData source
    = (Resolved (mkDb None
                   (Some (mkJsError "This email is already registered"))
                   false),
       [Call 1; Sleep 1000; Call 2; Sleep 2000; Call 3])).
  { unfold submitInterestForm. rewrite Hc. cbn [negb].
    set (row := mkRow _ _ _ _ _ _ _ _ _).
    unfold withRetry, DEFAULT_RETRY_CONFIG. cbn [maxAttempts retryLoop].
    unfold insertOnce.
    destruct (Hdup row 1) as (r1 & e1 & A1 & H1 & C1). rewrite A1, H1.
    destruct (Hdup row 2) as (r2 & e2 & A2 & H2 & C2). rewrite A2, H2.
    destruct (Hdup row 3) as (r3 & e3 & A3 & H3 & C3). rewrite A3, H3.
    cbn [Nat.eqb]. rewrite (handleDatabaseError_unique e3 C3). reflexivity. }
  split; [exact X|]. rewrite X. reflexivity.
Qed.

Lemma duplicate_after_retries_witness :
  Database.success
    (match fst (submitInterestForm duplicateEnv annForm "landing_page") with
     | Resolved r => r
     | Rejected _ => mkDb None None true
     end) = false /\
  calls (snd (submitInterestForm duplicateEnv annForm "landing_page")) = 3.
Proof.
  destruct (duplicate_after_retries duplicateEnv annForm "landing_page")
    as [A B].
  - reflexivity.
  - intros row k. exists (mkResponse None (Some uniqueViolation)), uniqueViolation.
    repeat split.
  - rewrite A. split; reflexivity.
Defined.

End DatabaseFacts.

Module TimerFacts.
Import Js Types Database Timers Scenarios.

(** Clearing the timer a ref holds empties a queue whose pending timers
    are all that timer. *)
Lemma clearRef_tidy (C : Type) (q : Queue C) (ref : option nat) :
  (forall t, In t (pending q) -> ref = Some (tid t)) ->
  pending (clearRef q ref) = [].
Proof.
  intro H. destruct ref as [id|]; simpl.
  - assert (G : forall l, (forall t, In t l -> Some id = Some (tid t)) ->
                filter (fun t : Timer C => negb (Nat.eqb (tid t) id)) l = []).
    { induction l as [|t l IH]; intro Hl; [reflexivity|]. simpl.
      assert (E : tid t = id).
      { specialize (Hl t (or_introl eq_refl)). injection Hl as ->. reflexivity. }
      rewrite E, Nat.eqb_refl. simpl. apply IH.
      intros u Hu. apply Hl. right. exact Hu. }
    apply G. exact H.
  - destruct (pending q) as [|t l]; [reflexivity|].
    specialize (H t (or_introl eq_refl)). discriminate H.
Qed.

Lemma clearRef_now (C : Type) (q : Queue C) (ref : option nat) :
  now (clearRef q ref) = now q /\ nextId (clearRef q ref) = nextId q.
Proof. destruct ref; split; reflexivity. Qed.

Lemma ready_single_due (C : Type) (q : Queue C) (t : Timer C) (target : nat) :
  pending q = [t] -> due t <= target ->
  ready q target = [t] /\ later q target = [].
Proof.
  intros Hp Hd. unfold ready, later. rewrite Hp. simpl.
  apply Nat.leb_le in Hd. rewrite Hd. split; reflexivity.
Qed.

Lemma ready_single_later (C : Type) (q : Queue C) (t : Timer C) (target : nat) :
  pending q = [t] -> target < due t ->
  ready q target = [] /\ later q target = [t].
Proof.
  intros Hp Hd. unfold ready, later. rewrite Hp. simpl.
  apply Nat.leb_gt in Hd. rewrite Hd. split; reflexivity.
Qed.

End TimerFacts.

Module EmailCheckFacts.
Import Js Types Database Timers Scenarios TimerFacts EmailCheck.
Local Open Scope list_scope.

(** A debounced [checkEmail] on a tidy hook leaves exactly one pending
    timer: the new one. *)
Lemma checkEmail_debounced (email : jstring) (h : Hook) :
  tidyEmailCheck h ->
  checkEmail email false h
    = mkHook (debounceMs h) (state h) (Some (nextId (queue h)))
        (mkQueue (now (queue h)) (S (nextId (queue h)))
           [mkTimer (nextId (queue h)) (now (queue h) + delayOf h)
                    (CbPerformCheck email)])
        (performed h) (lookups h) (told h).
Proof.
  intro Ht. unfold checkEmail, setTimeout, withQueue. cbn [queue debounceMs
    state debounceTimeoutRef performed lookups told delayOf].
  pose proof (clearRef_tidy _ (queue h) (debounceTimeoutRef h) Ht) as Hp.
  destruct (clearRef_now _ (queue h) (debounceTimeoutRef h)) as [Hn Hi].
  rewrite Hp, Hn, Hi. reflexivity.
Qed.

Lemma advance_wait (dt : nat) (h : Hook) (t : Timer Callback) :
  pending (queue h) = [t] -> now (queue h) + dt < due t ->
  advance dt h
    = withQueue h (mkQueue (now (queue h) + dt) (nextId (queue h)) [t]).
Proof.
  intros Hp Hd. unfold advance.
  destruct (ready_single_later _ (queue h) t _ Hp Hd) as [Hr Hl].
  rewrite Hr, Hl. reflexivity.
Qed.

Lemma advance_fire (dt : nat) (h : Hook) (t : Timer Callback) :
  pending (queue h) = [t] -> due t <= now (queue h) + dt ->
  advance dt h
    = let h' := runCallback (callback t)
                  (withQueue h (mkQueue (due t) (nextId (queue h)) [])) in
      withQueue h' (atTime (queue h') (now (queue h) + dt)).
Proof.
  intros Hp Hd. unfold advance.
  destruct (ready_single_due _ (queue h) t _ Hp Hd) as [Hr Hl].
  rewrite Hr, Hl. reflexivity.
Qed.


(** C9: two debounced email updates less than one debounce delay apart
    give exactly one run of the check, for the second email, one delay after
    the second update; the first timer is cancelled and nothing else stays
    queued.  The run asks the store exactly once, for the trimmed,
    lower-cased email, unless the email is blank. *)
Theorem debounce_last_write_wins (h : Hook) (a b : jstring) (d1 : nat) :
  tidyEmailCheck h ->
  d1 < delayOf h ->
  let h2 := checkEmail b false (advance d1 (checkEmail a false h)) in
  let fired := now (queue h) + d1 + delayOf h in
  (forall d, d < delayOf h ->
     performed (advance d h2) = performed h /\
     lookups (advance d h2) = lookups h) /\
  (forall d, delayOf h <= d ->
     performed (advance d h2) = performed h ++ [(fired, b)] /\
     lookups (advance d h2)
       = lookups h ++ (if nonEmpty b && nonEmpty (trim b)
                       then [(fired, toLowerCase (trim b))] else []) /\
     pending (queue (advance d h2)) = []).
Proof.
  intros Ht Hd1. cbv zeta.
  rewrite (checkEmail_debounced a h Ht).
  set (t1 := mkTimer (nextId (queue h)) (now (queue h) + delayOf h)
                     (CbPerformCheck a)).
  rewrite (advance_wait d1 _ t1); [|reflexivity | cbn; lia].
  cbn [queue withQueue debounceMs state debounceTimeoutRef performed lookups
       told now nextId].
  rewrite checkEmail_debounced.
  2:{ intros t [<-|[]]. reflexivity. }
  cbn [queue debounceMs state debounceTimeoutRef performed lookups told now
       nextId].
  change (delayOf (mkHook (debounceMs h) _ _ _ _ _ _)) with (delayOf h).
  set (t2 := mkTimer (S (nextId (queue h)))
                     (now (queue h) + d1 + delayOf h) (CbPerformCheck b)).
  split.
  - intros d Hd. rewrite (advance_wait d _ t2); [|reflexivity | cbn; lia].
    split; reflexivity.
  - intros d Hd. rewrite (advance_fire d _ t2); [|reflexivity | cbn; lia].
    cbv zeta. cbn [callback t2 runCallback due]. unfold performCheck.
    cbn [queue withQueue debounceMs state debounceTimeoutRef performed lookups
         told now nextId].
    destruct (nonEmpty b); cbn [negb orb andb];
      [destruct (nonEmpty (trim b)); cbn [negb]|];
      cbn [queue withQueue debounceMs state debounceTimeoutRef performed
           lookups told now nextId atTime pending];
      rewrite ?app_nil_r; repeat split; reflexivity.
Qed.

Lemma debounce_last_write_wins_witness :
  let h2 := checkEmail (str "b@x.com") false
              (advance 100 (checkEmail (str "a@x.com") false (mount (Some 500)))) in
  lookups (advance 499 h2) = [] /\
  lookups (advance 500 h2) = [(600, str "b@x.com")] /\
  performed (advance 5000 h2) = [(600, str "b@x.com")].
Proof.
  assert (Hd : 100 < delayOf (mount (Some 500))) by (cbn; lia).
  assert (Ht : tidyEmailCheck (mount (Some 500))) by (intros t []).
  destruct (debounce_last_write_wins (mount (Some 500)) (str "a@x.com")
              (str "b@x.com") 100 Ht Hd) as [A B].
  split; [|split].
  - apply (A 499). cbn. lia.
  - destruct (B 500) as (_ & L & _); [cbn; lia|]. exact L.
  - destruct (B 5000) as (P & _); [cbn; lia|]. exact P.
Defined.


(** *** Every reachable state is tidy *)

Lemma performCheck_frame (email : jstring) (h : Hook) :
  queue (performCheck email h) = queue h /\
  debounceTimeoutRef (performCheck email h) = debounceTimeoutRef h.
Proof.
  unfold performCheck.
  destruct (negb (nonEmpty email) || negb (nonEmpty (trim email)));
    split; reflexivity.
Qed.





End EmailCheckFacts.

Module FormSubmissionFacts.
Import Js Types Database Timers Scenarios FormSubmission.
Local Open Scope string_scope.
Local Open Scope list_scope.

(** C2, as the specification states it, fails: two [submit()] calls in
    immediate succession start two submissions. *)
Lemma double_submit_sends_twice :
  List.length
    (submitted (submit annForm "landing_page"
                  (submit annForm "landing_page" (mount formOptions)))) <> 1.
Proof. intro H. vm_compute in H. discriminate H. Qed.

(** C2, amended: [submit()] has no guard of its own.  The first call
    sets [loading]; a second call made while the first is pending starts its
    own submission all the same, so two calls in immediate succession start
    exactly two, and [n] calls start [n].  Only a caller that consults
    [loading] (the form disables its button on it) prevents the second. *)
Theorem submit_has_no_guard (h : Hook) (d1 d2 : FormData) (s1 s2 : string) :
  loading (state (submit d1 s1 h)) = true /\
  submitted (submit d2 s2 (submit d1 s1 h))
    = submitted h ++ [(d1, s1); (d2, s2)] /\
  List.length (submitted (submit d2 s2 (submit d1 s1 h)))
    = List.length (submitted h) + 2 /\
  (forall n, List.length
               (submitted (Nat.iter n (submit d1 s1) h))
             = List.length (submitted h) + n).
Proof.
  assert (A : submitted (submit d2 s2 (submit d1 s1 h))
              = submitted h ++ [(d1, s1); (d2, s2)]).
  { cbn [submit submitted]. rewrite <- app_assoc. reflexivity. }
  split; [reflexivity|]. split; [exact A|split].
  - rewrite A, length_app. reflexivity.
  - induction n as [|n IH]; [simpl; lia|].
    change (Nat.iter (S n) (submit d1 s1) h)
      with (submit d1 s1 (Nat.iter n (submit d1 s1) h)).
    cbn [submit submitted]. rewrite length_app, IH. cbn [List.length]. lia.
Qed.

(** *** The auto-reset timer *)

(** [reset] changes the state and nothing else: neither the ref nor any
    pending timer. *)
Lemma reset_keeps_timers (h : Hook) :
  state (reset h) = initialState /\
  queue (reset h) = queue h /\
  resetTimeoutRef (reset h) = resetTimeoutRef h.
Proof. repeat split. Qed.

(** The timer armed before a [reset()] is still pending after it, and fires
    against the form as it is then: here, in the middle of the next
    submission, whose [loading] flag it clears. *)
Lemma stale_auto_reset :
  pending (queue afterSuccess) = [mkTimer 1 5000 CbReset] /\
  pending (queue (reset afterSuccess)) = [mkTimer 1 5000 CbReset] /\
  (let resubmitted :=
     submit annForm "landing_page" (advance 1000 (reset afterSuccess)) in
   loading (state resubmitted) = true /\
   loading (state (advance 3999 resubmitted)) = true /\
   state (advance 4000 resubmitted) = initialState) /\
  pending (queue (unmount afterSuccess)) = [].
Proof. repeat split. Qed.

End FormSubmissionFacts.

Module FormValidationFacts.
Import Js Types Validation Timers Scenarios TimerFacts ValidationFacts.
Import FormValidation.
Local Open Scope list_scope.

Lemma no_errors_iff (l : list ValidationError) :
  Nat.eqb (List.length l) 0 = true <-> l = [].
Proof. destruct l; simpl; split; intro H; try reflexivity; discriminate H. Qed.

Lemma consistent_sound (h : Hook) : consistent h -> sound h.
Proof. intros [H _]. exact H. Qed.

(** *** The operations that validate leave a consistent state *)

Lemma validateSingleField_consistent (f : Field) (v : Value) (h : Hook) :
  consistent (validateSingleField f v h).
Proof. unfold consistent, validateSingleField. cbn. apply no_errors_iff. Qed.

Lemma validateFormOn_consistent (d : FormData) (h : Hook) :
  consistent (validateFormOn d h).
Proof.
  unfold consistent, validateFormOn. cbn.
  apply (validateFormData_iff (sanitizeFormData d)).
Qed.

Lemma clearFieldError_consistent (f : Field) (h : Hook) :
  consistent (clearFieldError f h).
Proof. unfold consistent, clearFieldError. cbn. apply no_errors_iff. Qed.

Lemma clearAllErrors_consistent (h : Hook) : consistent (clearAllErrors h).
Proof. unfold consistent. cbn. split; reflexivity. Qed.

(** *** What each operation leaves alone *)

Lemma validateFormOn_frame (d : FormData) (h : Hook) :
  queue (validateFormOn d h) = queue h /\
  debounceTimerRef (validateFormOn d h) = debounceTimerRef h /\
  formData (validateFormOn d h) = formData h.
Proof. repeat split. Qed.

Lemma validateSingleField_frame (f : Field) (v : Value) (h : Hook) :
  queue (validateSingleField f v h) = queue h /\
  debounceTimerRef (validateSingleField f v h) = debounceTimerRef h /\
  formData (validateSingleField f v h) = formData h.
Proof. repeat split. Qed.

Lemma mountEffect_frame (h : Hook) :
  queue (mountEffect h) = queue h /\
  debounceTimerRef (mountEffect h) = debounceTimerRef h /\
  formData (mountEffect h) = formData h.
Proof. unfold mountEffect. destruct (validateOnMount (options h)); repeat split. Qed.

Lemma mountEffect_sound (h : Hook) : sound h -> sound (mountEffect h).
Proof.
  intro H. unfold mountEffect. destruct (validateOnMount (options h)); [|exact H].
  apply consistent_sound, validateFormOn_consistent.
Qed.

Lemma debouncedValidate_state (d : FormData) (h : Hook) :
  validationState (debouncedValidate d h) = validationState h.
Proof. reflexivity. Qed.

Lemma debouncedValidate_tidy (d : FormData) (h : Hook) :
  tidyFormValidation h -> tidyFormValidation (debouncedValidate d h).
Proof.
  intros Ht t Hin. unfold debouncedValidate, setTimeout in *. cbn in *.
  rewrite (clearRef_tidy _ (queue h) (debounceTimerRef h) Ht) in Hin.
  destruct Hin as [<-|[]]. reflexivity.
Qed.

Lemma fired_keeps (l : list (Timer Callback)) : forall h,
  let h' := fold_left
     (fun h tm => runCallback (callback tm)
                    (withQueue h (atTime (queue h) (due tm)))) l h in
  pending (queue h') = pending (queue h) /\
  debounceTimerRef h' = debounceTimerRef h /\
  (sound h -> sound h').
Proof.
  induction l as [|tm l IH]; intro h; cbv zeta; [repeat split; auto|].
  cbn [fold_left].
  destruct (IH (runCallback (callback tm)
                  (withQueue h (atTime (queue h) (due tm))))) as (A & B & C).
  rewrite A, B. destruct (callback tm) as [d]. cbn [runCallback] in *.
  repeat split. intros _. apply C.
  apply consistent_sound, validateFormOn_consistent.
Qed.

Lemma advance_keeps (dt : nat) (h : Hook) :
  (tidyFormValidation h -> tidyFormValidation (advance dt h)) /\
  (sound h -> sound (advance dt h)).
Proof.
  unfold advance.
  match goal with
  | |- context [fold_left ?F ?l ?h0] => destruct (fired_keeps l h0) as (A & B & C)
  end.
  cbv zeta in A, B, C. split.
  - intros Ht t Hin. cbn in Hin. rewrite A in Hin. cbn in Hin. cbn.
    rewrite B. cbn. apply Ht. unfold later in Hin.
    apply filter_In in Hin. exact (proj1 Hin).
  - intro Hs. unfold sound in *. cbn. apply C. exact Hs.
Qed.


Lemma fired_options (l : list (Timer Callback)) : forall h,
  options (fold_left
     (fun h tm => runCallback (callback tm)
                    (withQueue h (atTime (queue h) (due tm)))) l h)
    = options h.
Proof.
  induction l as [|tm l IH]; intro h; [reflexivity|].
  cbn [fold_left]. rewrite IH. destruct (callback tm). reflexivity.
Qed.

(** *** Invariants of the reachable states *)

Lemma mountEffect_tidy (h : Hook) :
  tidyFormValidation h -> tidyFormValidation (mountEffect h).
Proof.
  intros Ht t Hin. destruct (mountEffect_frame h) as (A & B & _).
  rewrite A in Hin. rewrite B. apply Ht. exact Hin.
Qed.

Lemma resetForm_timers (h : Hook) :
  tidyFormValidation h -> pending (queue (resetForm h)) = [].
Proof.
  intro Ht. unfold resetForm.
  assert (P : pending (queue (withQueue
                (withValidation (withFormData h (initialData (options h)) true)
                   emptyValidation)
                (clearRef (queue h) (debounceTimerRef h)))) = []).
  { cbn. apply clearRef_tidy. exact Ht. }
  cbn [withValidation withFormData queue debounceTimerRef] in *.
  destruct (pristine h); [exact P|].
  destruct (mountEffect_frame (withQueue
                (withValidation (withFormData h (initialData (options h)) true)
                   emptyValidation)
                (clearRef (queue h) (debounceTimerRef h)))) as (A & _).
  cbn [withValidation withFormData withQueue queue debounceTimerRef] in *.
  rewrite A. exact P.
Qed.

Lemma step_tidy (op : Op) (h : Hook) :
  tidyFormValidation h -> tidyFormValidation (step op h).
Proof.
  intro Ht. destruct op as [f v b|f|f v| |d|f| | |dt]; cbn [step].
  - unfold updateField. apply mountEffect_tidy.
    destruct b; [destruct (validateOnChange (options h))|]; try exact Ht.
    apply debouncedValidate_tidy. exact Ht.
  - unfold handleFieldBlur. destruct (validateOnBlur (options h)); [|exact Ht].
    destruct (get (formData h) f); exact Ht.
  - exact Ht.
  - exact Ht.
  - unfold setFormDataAndValidate. apply mountEffect_tidy.
    destruct (validateOnChange (options h)); [exact Ht|].
    apply debouncedValidate_tidy. exact Ht.
  - exact Ht.
  - exact Ht.
  - intros t Hin. rewrite (resetForm_timers h Ht) in Hin. destruct Hin.
  - apply advance_keeps. exact Ht.
Qed.

Lemma step_sound (op : Op) (h : Hook) : sound h -> sound (step op h).
Proof.
  intro Hs. destruct op as [f v b|f|f v| |d|f| | |dt]; cbn [step].
  - unfold updateField. apply mountEffect_sound.
    destruct b; [destruct (validateOnChange (options h))|]; try exact Hs.
    apply consistent_sound, validateSingleField_consistent.
  - unfold handleFieldBlur. destruct (validateOnBlur (options h)); [|exact Hs].
    destruct (get (formData h) f); try exact Hs;
      apply consistent_sound, validateSingleField_consistent.
  - apply consistent_sound, validateSingleField_consistent.
  - apply consistent_sound, validateFormOn_consistent.
  - unfold setFormDataAndValidate. apply mountEffect_sound.
    destruct (validateOnChange (options h)); [|exact Hs].
    apply consistent_sound, validateFormOn_consistent.
  - apply consistent_sound, clearFieldError_consistent.
  - apply consistent_sound, clearAllErrors_consistent.
  - unfold resetForm.
    destruct (pristine h); [intro X; discriminate X|].
    apply mountEffect_sound. intro X. discriminate X.
  - apply advance_keeps. exact Hs.
Qed.

Lemma mount_tidy (o : Options) : tidyFormValidation (mount o).
Proof. unfold mount. apply mountEffect_tidy. intros t []. Qed.

Lemma mount_sound (o : Options) : sound (mount o).
Proof. unfold mount. apply mountEffect_sound. intro X. discriminate X. Qed.

Lemma formValidation_reachable_tidy (o : Options) (h : Hook) :
  reachable o h -> tidyFormValidation h.
Proof.
  induction 1 as [|op h _ IH]; [apply mount_tidy | apply step_tidy; exact IH].
Qed.

Lemma reachable_sound (o : Options) (h : Hook) : reachable o h -> sound h.
Proof.
  induction 1 as [|op h _ IH]; [apply mount_sound | apply step_sound; exact IH].
Qed.

Lemma reachable_options (o : Options) (h : Hook) :
  reachable o h -> options h = o.
Proof.
  induction 1 as [|op h _ IH].
  - unfold mount. unfold mountEffect. cbn.
    destruct (validateOnMount o); reflexivity.
  - rewrite <- IH. clear IH.
    destruct op as [f v b|f|f v| |d|f| | |dt]; cbn [step]; try reflexivity.
    + unfold updateField, mountEffect.
      destruct b; [destruct (validateOnChange (options h))|]; cbn;
        destruct (validateOnMount (options h)); reflexivity.
    + unfold handleFieldBlur. destruct (validateOnBlur (options h));
        [destruct (get (formData h) f)|]; reflexivity.
    + unfold setFormDataAndValidate, mountEffect.
      destruct (validateOnChange (options h)); cbn;
        destruct (validateOnMount (options h)); reflexivity.
    + unfold resetForm, mountEffect. destruct (pristine h); cbn;
        [|destruct (validateOnMount (options h))]; reflexivity.
    + unfold advance. cbn [options withQueue]. rewrite fired_options. reflexivity.
Qed.

(** What [resetForm] writes: the initial data, no error, not valid, not
    dirty, nothing touched; with [validateOnMount] off nothing validates
    afterwards. *)
Lemma resetForm_state (h : Hook) :
  validateOnMount (options h) = false ->
  formData (resetForm h) = initialData (options h) /\
  validationState (resetForm h) = emptyValidation.
Proof.
  intro Hm. unfold resetForm, mountEffect. cbn. rewrite Hm.
  destruct (pristine h); split; reflexivity.
Qed.

(** *** The validation state *)

(** C7, as the specification states it, fails: a freshly mounted form has
    no error and is not valid. *)
Lemma mounted_form_not_consistent :
  ~ (isValid (validationState (mount exampleOptions)) = true <->
     errors (validationState (mount exampleOptions)) = []).
Proof. intros [_ H]. specialize (H eq_refl). discriminate H. Qed.

(** C7, amended: [isValid] holds exactly when there is no error in every
    result of [validateFormData] and in the state left by every operation
    that validates or clears errors.  The state at mount and the state
    [resetForm] writes have no error and are not valid, and operations that
    do not validate keep what they find; so in every reachable state
    [isValid] implies that there is no error, and the converse can fail. *)
Theorem isValid_means_no_errors :
  (forall d, Types.isValid (validateFormData d) = true <->
             Types.errors (validateFormData d) = []) /\
  (forall h f v, consistent (validateSingleField f v h)) /\
  (forall h, consistent (validateForm h)) /\
  (forall h f, consistent (clearFieldError f h)) /\
  (forall h, consistent (clearAllErrors h)) /\
  (forall o h, reachable o h -> sound h) /\
  (forall o, validateOnMount o = false ->
     errors (validationState (mount o)) = [] /\
     isValid (validationState (mount o)) = false) /\
  (forall h, validateOnMount (options h) = false ->
     errors (validationState (resetForm h)) = [] /\
     isValid (validationState (resetForm h)) = false).
Proof.
  split; [exact validateFormData_iff|].
  split; [exact (fun h f v => validateSingleField_consistent f v h)|].
  split; [exact (fun h => validateFormOn_consistent (formData h) h)|].
  split; [exact (fun h f => clearFieldError_consistent f h)|].
  split; [exact clearAllErrors_consistent|].
  split; [exact reachable_sound|]. split.
  - intros o Ho. unfold mount, mountEffect. cbn. rewrite Ho. split; reflexivity.
  - intros h Hm. destruct (resetForm_state h Hm) as [_ ->]. split; reflexivity.
Qed.

Lemma isValid_means_no_errors_witness :
  let h := step (OpUpdateField K_name (VString (str "A")) true)
             (mount exampleOptions) in
  sound (step (OpAdvance 300) h) /\
  errors (validationState (step OpResetForm (step (OpAdvance 300) h))) = [] /\
  isValid (validationState (step OpResetForm (step (OpAdvance 300) h))) = false.
Proof.
  intro h. destruct isValid_means_no_errors as (_ & _ & _ & _ & _ & R & _ & Z).
  split.
  - apply (R exampleOptions). apply reach_step, reach_step, reach_mount.
  - apply Z. reflexivity.
Defined.

End FormValidationFacts.

Module ResetFacts.
Import Js Types Database Timers Scenarios.
Local Open Scope string_scope.
Local Open Scope list_scope.

(** The debounce timer of [useEmailCheck] is not cleared by its [reset]
    either: the check still runs, against the reset state. *)
Lemma stale_email_check :
  let h := EmailCheck.reset
             (EmailCheck.checkEmail (str "a@x.com") false
                (EmailCheck.mount (Some 500))) in
  EmailCheck.state h = EmailCheck.initialState /\
  List.length (pending (EmailCheck.queue h)) = 1 /\
  EmailCheck.lookups (EmailCheck.advance 500 h) = [(500, str "a@x.com")] /\
  EmailCheck.loading (EmailCheck.state (EmailCheck.advance 500 h)) = true.
Proof. repeat split. Qed.

(** C8: [resetForm] does what the specification says of [reset()]: it
    restores the initial data, clears errors, touched and dirty, and leaves
    no debounce timer pending.  The [reset] of [useFormSubmission] does not
    cancel anything: an auto-reset timer armed before it stays pending and
    fires against the reset form (here it clears [loading] of the next
    submission, 4000 ms into it), although the cleanup at unmount does
    clear that timer.  The [reset] of [useEmailCheck] leaves its debounce
    timer armed as well. *)
Theorem reset_leaves_auto_reset_timer :
  (forall o h,
     FormValidation.reachable o h ->
     FormValidation.validateOnMount o = false ->
     FormValidation.formData (FormValidation.resetForm h)
       = FormValidation.initialData o /\
     FormValidation.validationState (FormValidation.resetForm h)
       = FormValidation.emptyValidation /\
     pending (FormValidation.queue (FormValidation.resetForm h)) = []) /\
  (forall h,
     FormSubmission.state (FormSubmission.reset h)
       = FormSubmission.initialState /\
     FormSubmission.queue (FormSubmission.reset h) = FormSubmission.queue h) /\
  pending (FormSubmission.queue (FormSubmission.reset afterSuccess))
    = [mkTimer 1 5000 FormSubmission.CbReset] /\
  (let resubmitted :=
     FormSubmission.submit annForm "landing_page"
       (FormSubmission.advance 1000 (FormSubmission.reset afterSuccess)) in
   FormSubmission.loading (FormSubmission.state resubmitted) = true /\
   FormSubmission.state (FormSubmission.advance 4000 resubmitted)
     = FormSubmission.initialState) /\
  pending (FormSubmission.queue (FormSubmission.unmount afterSuccess)) = [] /\
  (forall h, EmailCheck.queue (EmailCheck.reset h) = EmailCheck.queue h).
Proof.
  split; [|repeat split].
  intros o h Hr Hm.
  pose proof (FormValidationFacts.reachable_options o h Hr) as Ho.
  rewrite <- Ho in Hm.
  destruct (FormValidationFacts.resetForm_state h Hm) as [A B].
  rewrite A, B, Ho. repeat split.
  apply FormValidationFacts.resetForm_timers.
  exact (FormValidationFacts.formValidation_reachable_tidy o h Hr).
Qed.

Lemma reset_leaves_auto_reset_timer_witness :
  let h := FormValidation.step
             (FormValidation.OpUpdateField K_name (VString (str "A")) true)
             (FormValidation.mount exampleOptions) in
  List.length (pending (FormValidation.queue h)) = 1 /\
  pending (FormValidation.queue (FormValidation.resetForm h)) = [] /\
  FormValidation.formData (FormValidation.resetForm h)
    = FormValidation.initialData exampleOptions.
Proof.
  intro h. destruct reset_leaves_auto_reset_timer as (R & _).
  destruct (R exampleOptions h) as (A & _ & C).
  - apply FormValidation.reach_step, FormValidation.reach_mount.
  - reflexivity.
  - split; [reflexivity|]. split; [exact C | exact A].
Defined.

End ResetFacts.

Module ValidationExtra.
Import Js Types Constants Validation Shape JsFacts TitleFacts ValidationFacts.
Import RegexFacts.

Lemma validateField_field (f : Field) (v : Value) (e : ValidationError) :
  validateField f v = Some e -> field e = f.
Proof.
  unfold validateField. destruct (VALIDATION_RULES f) as [rules|].
  - destruct v as [|b|s].
    + destruct (required rules); intro H; inversion H; reflexivity.
    + discriminate.
    + cbv zeta. destruct (required rules && negb (nonEmpty (trim s)));
        [intro H; inversion H; reflexivity|].
      destruct (negb (required rules) && negb (nonEmpty (trim s)));
        [discriminate|].
      destruct (belowMin rules _); [intro H; inversion H; reflexivity|].
      destruct (aboveMax rules _); [intro H; inversion H; reflexivity|].
      destruct (failsPattern rules _); intro H; inversion H; reflexivity.
  - intro H. inversion H. reflexivity.
Qed.

Lemma trim_nil_of_nil (s : jstring) : nonEmpty s = false -> trim s = [].
Proof. destruct s; [reflexivity | discriminate]. Qed.

(** X1: for the name, the phone, the message and the company, the boolean
    validator says [true] exactly when [validateField] finds no error, on
    every value that is a string or [undefined]. *)
Theorem boolean_validators_agree (v : Value) :
  (forall b, v <> VBool b) ->
  (isValidName v = true <-> validateField K_name v = None) /\
  (isValidPhone v = true <-> validateField K_phone v = None) /\
  (isValidMessage v = true <-> validateField K_message v = None) /\
  (isValidCompany v = true <-> validateField K_company v = None).
Proof.
  intro Hb. destruct v as [|b|s].
  - cbn. repeat split; intro H; try reflexivity; discriminate H.
  - exfalso. exact (Hb b eq_refl).
  - unfold isValidName, isValidPhone, isValidMessage, isValidCompany,
      validateField.
    cbn [VALIDATION_RULES required andb negb]. cbv zeta.
    destruct (nonEmpty s) eqn:Es.
    2:{ rewrite (trim_nil_of_nil s Es). cbn.
        repeat split; intro H; try reflexivity; discriminate H. }
    destruct (nonEmpty (trim s)) eqn:Et; cbn [negb andb orb].
    2:{ apply nonEmpty_false in Et. rewrite Et. cbn.
        repeat split; intro H; try reflexivity; discriminate H. }
    unfold belowMin, aboveMax, failsPattern.
    cbn [minLength maxLength pattern Nat.eqb negb andb].
    generalize (List.length (trim s)) as n. intro n.
    repeat split; intro H.
    + apply andb_true_iff in H. destruct H as [H1 H3].
      apply andb_true_iff in H1. destruct H1 as [H1 H2].
      apply Nat.leb_le in H1, H2.
      destruct (Nat.ltb_spec n 2) as [X|_]; [lia|].
      destruct (Nat.ltb_spec 50 n) as [X|_]; [lia|].
      rewrite H3. reflexivity.
    + destruct (Nat.ltb_spec n 2) as [_|X1]; [discriminate H|].
      destruct (Nat.ltb_spec 50 n) as [_|X2]; [discriminate H|].
      destruct (test namePattern (trim s)); [|discriminate H].
      apply Nat.leb_le in X1, X2. rewrite X1, X2. reflexivity.
    + rewrite H. reflexivity.
    + destruct (test phonePattern (trim s)); [reflexivity | discriminate H].
    + apply andb_true_iff in H. destruct H as [H1 H2].
      apply Nat.leb_le in H1, H2.
      destruct (Nat.ltb_spec n 10) as [X|_]; [lia|].
      destruct (Nat.ltb_spec 1000 n) as [X|_]; [lia|]. reflexivity.
    + destruct (Nat.ltb_spec n 10) as [_|X1]; [discriminate H|].
      destruct (Nat.ltb_spec 1000 n) as [_|X2]; [discriminate H|].
      apply Nat.leb_le in X1, X2. rewrite X1, X2. reflexivity.
    + apply andb_true_iff in H. destruct H as [H1 H2].
      apply Nat.leb_le in H1, H2.
      destruct (Nat.ltb_spec n 2) as [X|_]; [lia|].
      destruct (Nat.ltb_spec 100 n) as [X|_]; [lia|]. reflexivity.
    + destruct (Nat.ltb_spec n 2) as [_|X1]; [discriminate H|].
      destruct (Nat.ltb_spec 100 n) as [_|X2]; [discriminate H|].
      apply Nat.leb_le in X1, X2. rewrite X1, X2. reflexivity.
Qed.

Lemma boolean_validators_agree_witness :
  isValidName (VString (str " Ann Lee ")) = true /\
  validateField K_phone (VString (str "+15551234")) = None.
Proof.
  destruct (boolean_validators_agree (VString (str " Ann Lee ")))
    as (A & _); [discriminate|].
  destruct (boolean_validators_agree (VString (str "+15551234")))
    as (_ & B & _); [discriminate|].
  split; [apply A; reflexivity | apply B; reflexivity].
Defined.

(** X2: [isValidEmail] checks the pattern only.  The pattern forces at
    least five characters, so what it accepts is never too short for
    [validateField]; it is accepted by [validateField] exactly when it is
    also at most 254 characters long. *)
Theorem isValidEmail_ignores_maxLength (v : Value) :
  (forall b, v <> VBool b) ->
  (validateField K_email v = None <->
   isValidEmail v = true /\
   forall s, v = VString s -> List.length (trim s) <= 254) /\
  (isValidEmail v = true ->
   forall s, v = VString s ->
     5 <= List.length (trim s) /\
     (validateField K_email v = None \/
      validateField K_email v = Some (maxLengthError K_email 254))).
Proof.
  intro Hb. destruct v as [|b|s].
  - cbn. split; [split; [discriminate | intros [H _]; discriminate H]|].
    discriminate.
  - exfalso. exact (Hb b eq_refl).
  - unfold isValidEmail, validateField.
    cbn [VALIDATION_RULES required andb negb]. cbv zeta.
    destruct (nonEmpty s) eqn:Es.
    2:{ rewrite (trim_nil_of_nil s Es). cbn.
        split; [split; [discriminate | intros [H _]; discriminate H]|].
        discriminate. }
    destruct (nonEmpty (trim s)) eqn:Et; cbn [negb andb orb].
    2:{ apply nonEmpty_false in Et. rewrite Et. cbn.
        split; [split; [discriminate | intros [H _]; discriminate H]|].
        discriminate. }
    unfold belowMin, aboveMax, failsPattern.
    cbn [minLength maxLength pattern Nat.eqb negb andb].
    destruct (test emailPattern (trim s)) eqn:P.
    + destruct (emailPattern_length _ P) as [L _].
      destruct (Nat.ltb_spec (List.length (trim s)) 5) as [X|_]; [lia|].
      destruct (Nat.ltb_spec 254 (List.length (trim s))) as [X|X]; cbn.
      * split; [split; [discriminate|]|].
        -- intros [_ H]. specialize (H s eq_refl). lia.
        -- intros _ s' E. injection E as <-. split; [exact L | right; reflexivity].
      * split; [split; [intros _; split; [reflexivity|]|reflexivity]|].
        -- intros s' E. injection E as <-. exact X.
        -- intros _ s' E. injection E as <-. split; [exact L | left; reflexivity].
    + split; [split|discriminate].
      * destruct (_ <? _); [discriminate|]. destruct (_ <? _); discriminate.
      * intros [H _]. discriminate H.
Qed.

Lemma isValidEmail_ignores_maxLength_witness :
  isValidEmail (VString (str " a@b.c ")) = true /\
  validateField K_email (VString (str " a@b.c ")) = None.
Proof.
  destruct (isValidEmail_ignores_maxLength (VString (str " a@b.c ")))
    as [A _]; [discriminate|].
  split; [reflexivity|]. apply A. split; [reflexivity|].
  intros s E. injection E as <-. cbn. lia.
Defined.

(** X3: for a required field, [validateField] answers REQUIRED_FIELD
    exactly on the values [isEmpty] calls empty (strings and [undefined]). *)
Theorem required_error_iff_isEmpty (f : Field) (v : Value) :
  In f [K_name; K_email] ->
  (forall b, v <> VBool b) ->
  (validateField f v = Some (requiredError f) <-> isEmpty v = true) /\
  isNotEmpty v = negb (isEmpty v).
Proof.
  intros Hf Hb. split; [|reflexivity].
  assert (R : exists rules, VALIDATION_RULES f = Some rules /\
                            required rules = true).
  { destruct Hf as [<-|[<-|[]]]; eexists; split; reflexivity. }
  destruct R as (rules & HR & Hreq).
  destruct v as [|b|s].
  - unfold validateField. rewrite HR, Hreq. cbn. tauto.
  - exfalso. exact (Hb b eq_refl).
  - unfold validateField, isEmpty. rewrite HR, Hreq. cbv zeta.
    cbn [andb negb].
    destruct (nonEmpty (trim s)) eqn:Et; cbn [negb].
    + assert (Es : nonEmpty s = true).
      { destruct s; [discriminate Et | reflexivity]. }
      rewrite Es. cbn. split; [|discriminate].
      destruct (belowMin rules _); [intro H; inversion H|].
      destruct (aboveMax rules _); [intro H; inversion H|].
      destruct (failsPattern rules _); [intro H; inversion H | discriminate].
    + rewrite orb_true_r. tauto.
Qed.

Lemma required_error_iff_isEmpty_witness :
  validateField K_email (VString (str "   ")) = Some (requiredError K_email).
Proof.
  destruct (required_error_iff_isEmpty K_email (VString (str "   ")))
    as [A _].
  - right. left. reflexivity.
  - discriminate.
  - apply A. reflexivity.
Defined.


(** *** [validateFormData] *)

Lemma collectErrors_In (d props : FormData) (e : ValidationError) :
  In e (collectErrors d props) <->
  exists v, In (field e, v) props /\
            validateField (field e) (get d (field e)) = Some e.
Proof.
  induction props as [|[k v] rest IH]; simpl.
  - split; [intros [] | intros (? & [] & _)].
  - destruct (validateField k (get d k)) as [e'|] eqn:E.
    + simpl. rewrite IH. split.
      * intros [<-|(w & Hw & He)].
        -- pose proof (validateField_field _ _ _ E) as F. rewrite F.
           exists v. split; [left; reflexivity | exact E].
        -- exists w. split; [right; exact Hw | exact He].
      * intros (w & [Hw|Hw] & He).
        -- injection Hw as -> ->. rewrite E in He. injection He as ->.
           left. reflexivity.
        -- right. exists w. split; assumption.
    + rewrite IH. split.
      * intros (w & Hw & He). exists w. split; [right; exact Hw | exact He].
      * intros (w & [Hw|Hw] & He).
        -- injection Hw as -> ->. rewrite E in He. discriminate He.
        -- exists w. split; assumption.
Qed.

(** X4: [validateFormData] visits the object's own keys only.  The result
    is valid exactly when every own property validates; every error
    belongs to an own key; so a key that is absent, required or not, is
    never reported, and the empty object is valid. *)
Theorem validateFormData_own_keys (d : FormData) :
  (Types.isValid (validateFormData d) = true <->
   forall k v, In (k, v) d -> validateField k (get d k) = None) /\
  (forall e, In e (Types.errors (validateFormData d)) ->
     In (field e) (List.map fst d) /\
     validateField (field e) (get d (field e)) = Some e) /\
  (forall k, ~ In k (List.map fst d) ->
     forall e, In e (Types.errors (validateFormData d)) -> field e <> k) /\
  Types.isValid (validateFormData []) = true.
Proof.
  assert (B : forall e, In e (Types.errors (validateFormData d)) ->
     In (field e) (List.map fst d) /\
     validateField (field e) (get d (field e)) = Some e).
  { intros e He. unfold validateFormData in He. cbn [Types.errors] in He.
    apply collectErrors_In in He. destruct He as (v & Hv & E).
    split; [|exact E]. apply in_map_iff. exists (field e, v).
    split; [reflexivity | exact Hv]. }
  split; [|split; [exact B|split; [|reflexivity]]].
  - rewrite validateFormData_iff. unfold validateFormData.
    cbn [Types.errors]. split.
    + intros H k v Hin.
      destruct (validateField k (get d k)) as [e|] eqn:E; [|reflexivity].
      assert (X : In e (collectErrors d d)).
      { apply collectErrors_In. pose proof (validateField_field _ _ _ E) as F.
        rewrite F. exists v. split; assumption. }
      rewrite H in X. destruct X.
    + intro H. destruct (collectErrors d d) as [|e l] eqn:E; [reflexivity|].
      assert (X : In e (collectErrors d d)) by (rewrite E; left; reflexivity).
      apply collectErrors_In in X. destruct X as (v & Hv & He).
      rewrite (H _ _ Hv) in He. discriminate He.
  - intros k Hk e He <-. apply Hk. exact (proj1 (B e He)).
Qed.

Lemma validateFormData_own_keys_witness :
  Types.isValid (validateFormData [(K_email, VString (str "ann@example.com"))])
    = true.
Proof.
  destruct (validateFormData_own_keys
              [(K_email, VString (str "ann@example.com"))]) as (A & _).
  apply A. intros k v [H|[]]. injection H as <- <-. reflexivity.
Defined.

(** *** The passes of [sanitizeInput] *)

Lemma trimEnd_keep (c : char) (y : jstring) :
  isSpace c = false -> trimEnd (c :: y) = c :: trimEnd y.
Proof. intro H. simpl. rewrite H. destruct (trimEnd y); reflexivity. Qed.

Lemma collapseFrom_true_trimStart (r : jstring) :
  collapseFrom true r = collapseFrom false (trimStart r).
Proof.
  induction r as [|c r IH]; [reflexivity|]. simpl.
  destruct (isSpace c) eqn:E; [exact IH|]. simpl. rewrite E. reflexivity.
Qed.

Lemma collapseFrom_true_head (r : jstring) :
  trimStart (collapseFrom true r) = collapseFrom true r.
Proof.
  induction r as [|c r IH]; [reflexivity|]. simpl.
  destruct (isSpace c) eqn:E; [exact IH|]. simpl. rewrite E. reflexivity.
Qed.

Lemma trimStart_collapse (u : jstring) :
  trimStart (collapse u) = collapse (trimStart u).
Proof.
  unfold collapse. destruct u as [|c r]; [reflexivity|]. simpl.
  destruct (isSpace c) eqn:E.
  - simpl. rewrite collapseFrom_true_head. apply collapseFrom_true_trimStart.
  - simpl. rewrite E. reflexivity.
Qed.

Lemma collapseFrom_trimEnd_nonempty (r : jstring) (b : bool) :
  trimEnd r <> [] -> collapseFrom b (trimEnd r) <> [].
Proof.
  intro H. destruct b.
  - apply normalFrom_nonempty. apply collapseFrom_normal.
    + apply trimEnd_idem.
    + intros _. exact H.
  - intro E. apply collapseFrom_nil in E. contradiction.
Qed.

Lemma trimEnd_drop (c : char) (y : jstring) :
  trimEnd y = [] -> isSpace c = true -> trimEnd (c :: y) = [].
Proof. intros H E. simpl. rewrite H, E. reflexivity. Qed.

Lemma trimEnd_more (c : char) (y : jstring) :
  trimEnd y <> [] -> trimEnd (c :: y) = c :: trimEnd y.
Proof. intro H. simpl. destruct (trimEnd y); [contradiction | reflexivity]. Qed.

Lemma collapseFrom_space (c : char) (y : jstring) (b : bool) :
  isSpace c = true ->
  collapseFrom b (c :: y)
    = if b then collapseFrom true y else sp :: collapseFrom true y.
Proof. intro E. simpl. rewrite E. reflexivity. Qed.

Lemma trimEnd_collapseFrom (x : jstring) : forall b,
  trimEnd (collapseFrom b x) = collapseFrom b (trimEnd x).
Proof.
  induction x as [|c r IH]; intro b; [reflexivity|].
  destruct (isSpace c) eqn:E.
  - rewrite (collapseFrom_space c r b E).
    assert (D : trimEnd r = [] \/ trimEnd r <> []).
    { destruct (trimEnd r); [left; reflexivity | right; discriminate]. }
    destruct D as [T|T].
    + rewrite (trimEnd_drop c r T E).
      assert (Y : trimEnd (collapseFrom true r) = []).
      { rewrite IH, T. reflexivity. }
      destruct b; [exact Y|]. apply trimEnd_drop; [exact Y | reflexivity].
    + rewrite (trimEnd_more c r T), (collapseFrom_space c _ b E).
      destruct b; [apply IH|].
      rewrite trimEnd_more; [rewrite IH; reflexivity|].
      rewrite IH. apply collapseFrom_trimEnd_nonempty. exact T.
  - cbn [collapseFrom]. rewrite E.
    rewrite (trimEnd_keep c _ E), (trimEnd_keep c r E), IH.
    cbn [collapseFrom]. rewrite E. reflexivity.
Qed.

(** Trimming and whitespace normalisation commute. *)
Lemma trim_collapse (u : jstring) : trim (collapse u) = collapse (trim u).
Proof.
  unfold trim. rewrite trimStart_collapse. apply trimEnd_collapseFrom.
Qed.

Lemma noTag_tail (c : char) (r : jstring) : noTag (c :: r) = true -> noTag r = true.
Proof. simpl. intro H. apply andb_true_iff in H. exact (proj2 H). Qed.

Lemma noTag_trimStart (s : jstring) : noTag s = true -> noTag (trimStart s) = true.
Proof.
  induction s as [|c r IH]; intro H; [reflexivity|]. simpl.
  destruct (isSpace c); [apply IH, (noTag_tail c), H | exact H].
Qed.

Lemma trimEnd_gt (s : jstring) :
  existsb (N.eqb gt) (trimEnd s) = true -> existsb (N.eqb gt) s = true.
Proof.
  induction s as [|c r IH]; [intro H; exact H|]. simpl.
  destruct (trimEnd r) as [|d r'] eqn:T.
  - destruct (isSpace c); simpl; [discriminate|].
    rewrite orb_false_r. intros ->. reflexivity.
  - simpl. intro H. apply orb_true_iff in H. destruct H as [H|H].
    + rewrite H. reflexivity.
    + simpl in IH. rewrite (IH H). apply orb_true_r.
Qed.

Lemma noTag_trimEnd (s : jstring) : noTag s = true -> noTag (trimEnd s) = true.
Proof.
  induction s as [|c r IH]; intro H; [reflexivity|].
  pose proof (noTag_tail c r H) as Hr. specialize (IH Hr).
  cbn [noTag] in H. apply andb_true_iff in H. destruct H as [H1 _].
  assert (D : trimEnd r = [] \/ trimEnd r <> []).
  { destruct (trimEnd r); [left; reflexivity | right; discriminate]. }
  destruct D as [T|T].
  - simpl. rewrite T. destruct (isSpace c); [reflexivity|].
    cbn [noTag existsb]. rewrite andb_false_r. reflexivity.
  - rewrite (trimEnd_more c r T). cbn [noTag]. rewrite IH, andb_true_r.
    destruct (existsb (N.eqb gt) (trimEnd r)) eqn:G;
      [|rewrite andb_false_r; reflexivity].
    apply trimEnd_gt in G. rewrite G in H1. rewrite andb_true_r in *. exact H1.
Qed.

Lemma noTag_trim (s : jstring) : noTag s = true -> noTag (trim s) = true.
Proof. intro H. apply noTag_trimEnd, noTag_trimStart, H. Qed.

Lemma stripFrom_length (s : jstring) : forall b,
  List.length (stripFrom b s) <= List.length s.
Proof.
  induction s as [|c r IH]; intro b; simpl; [lia|].
  destruct b.
  - destruct (c =? gt)%N; [specialize (IH false) | specialize (IH true)]; lia.
  - destruct ((c =? lt)%N && existsb (N.eqb gt) r);
      [specialize (IH true) | specialize (IH false)]; simpl; lia.
Qed.

Lemma collapseFrom_length (s : jstring) : forall b,
  List.length (collapseFrom b s) <= List.length s.
Proof.
  induction s as [|c r IH]; intro b; simpl; [lia|].
  destruct (isSpace c); [destruct b; [specialize (IH true) | specialize (IH true)]
                        | specialize (IH false)]; simpl; lia.
Qed.

(** X5: what [sanitizeInput] returns has no tag left and is never longer
    than its input; sanitizing it again can only trim it, and after that
    second pass a further pass changes nothing. *)
Theorem sanitizeInput_passes (s : jstring) :
  let r := sanitizeInput (VString s) in
  noTag r = true /\
  stripTags r = r /\
  List.length r <= List.length s /\
  sanitizeInput (VString r) = trim r /\
  sanitizeInput (VString (trim r)) = trim r.
Proof.
  cbv zeta.
  assert (Hn : noTag (sanitizeInput (VString s)) = true).
  { unfold sanitizeInput. destruct (nonEmpty s); [|reflexivity].
    apply noTag_collapseFrom, noTag_stripFrom. }
  assert (Ht : isNormal (trim (sanitizeInput (VString s))) = true /\
               noTag (trim (sanitizeInput (VString s))) = true).
  { split; [|apply noTag_trim, Hn].
    unfold sanitizeInput. destruct (nonEmpty s); [|reflexivity].
    rewrite trim_collapse. apply collapse_normal, trim_idem. }
  destruct Ht as [Ht1 Ht2].
  assert (F : sanitizeInput (VString (trim (sanitizeInput (VString s))))
              = trim (sanitizeInput (VString s)))
    by (apply sanitizeInput_fixed; assumption).
  split; [exact Hn|]. split; [apply noTag_stripTags, Hn|]. split; [|split].
  - unfold sanitizeInput. destruct (nonEmpty s); [|simpl; lia].
    pose proof (collapseFrom_length (stripTags (trim s)) false).
    pose proof (stripFrom_length (trim s) false).
    pose proof (trimEnd_length (trimStart s)).
    pose proof (trimStart_length s).
    unfold collapse, stripTags, trim in *. lia.
  - set (r := sanitizeInput (VString s)) in *.
    unfold sanitizeInput at 1. destruct (nonEmpty r) eqn:E.
    + rewrite (noTag_stripTags _ Ht2). apply isNormal_collapse. exact Ht1.
    + apply nonEmpty_false in E. rewrite E. reflexivity.
  - exact F.
Qed.

(** *** Title-casing *)

Lemma lower_upper (c : char) : lowerChar (upperChar c) = lowerChar c.
Proof.
  unfold upperChar.
  destruct ((97 <=? c) && (c <=? 122))%N eqn:E; [|reflexivity].
  apply andb_true_iff in E. rewrite !N.leb_le in E. unfold lowerChar.
  destruct ((65 <=? c - 32) && (c - 32 <=? 90))%N eqn:F.
  - destruct ((65 <=? c) && (c <=? 90))%N eqn:G.
    + apply andb_true_iff in G. rewrite !N.leb_le in G. lia.
    + lia.
  - apply andb_false_iff in F. rewrite !N.leb_gt in F. lia.
Qed.

Lemma titleFrom_lower (r : jstring) : forall b,
  toLowerCase (titleFrom b r) = toLowerCase r.
Proof.
  induction r as [|c r IH]; intro b; [reflexivity|].
  rewrite titleFrom_cons. destruct (N.eqb_spec c sp) as [->|_].
  - unfold toLowerCase in *. simpl. rewrite IH. reflexivity.
  - unfold toLowerCase in *. simpl. rewrite IH. f_equal.
    destruct b; [apply lower_upper | apply lowerChar_idem].
Qed.

(** X6: [sanitizeName] changes the case of letters and nothing else: up to
    case its result is the result of [sanitizeInput], character by
    character (ASCII text). *)
Theorem sanitizeName_changes_case_only (s : jstring) :
  asciiText s ->
  toLowerCase (sanitizeName (VString s))
    = toLowerCase (sanitizeInput (VString s)) /\
  List.length (sanitizeName (VString s))
    = List.length (sanitizeInput (VString s)).
Proof.
  intros _.
  assert (A : toLowerCase (sanitizeName (VString s))
              = toLowerCase (sanitizeInput (VString s))).
  { rewrite sanitizeName_title. unfold sanitizeInput.
    destruct (nonEmpty s); [apply titleFrom_lower | reflexivity]. }
  split; [exact A|].
  apply (f_equal (@List.length char)) in A. unfold toLowerCase in A.
  rewrite !length_map in A. exact A.
Qed.

Lemma sanitizeName_changes_case_only_witness :
  toLowerCase (sanitizeName (VString (str " mARY  o'brien ")))
    = str "mary o'brien".
Proof.
  destruct (sanitizeName_changes_case_only (str " mARY  o'brien ")) as [A _].
  - repeat constructor.
  - rewrite A. reflexivity.
Defined.

(** *** Sanitizing an email does not change its verdict *)

Lemma emailPattern_ignores_case : classesIgnore lowerChar emailPattern.
Proof.
  assert (O : forall c, emailOther (lowerChar c) = emailOther c).
  { intro c. unfold emailOther, isChar. rewrite isSpace_lowerChar.
    rewrite lowerChar_eqb; [reflexivity | left; reflexivity]. }
  assert (A : forall c, isChar "@" (lowerChar c) = isChar "@" c).
  { intro c. unfold isChar. apply lowerChar_eqb. left. reflexivity. }
  assert (D : forall c, isChar "." (lowerChar c) = isChar "." c).
  { intro c. unfold isChar. apply lowerChar_eqb. left. reflexivity. }
  unfold emailPattern. cbv zeta. cbn [classesIgnore Plus].
  change (fun c : char => negb (isSpace c || isChar "@" c)) with emailOther.
  repeat split; assumption.
Qed.

Lemma validateField_trim (f : Field) (s s' : jstring) :
  trim s = trim s' ->
  validateField f (VString s) = validateField f (VString s').
Proof. intro H. unfold validateField. rewrite H. reflexivity. Qed.

(** X7: sanitizing an email never changes what [validateField] says about
    it (ASCII text): trimming and lower-casing keep the length and the
    answer of the pattern. *)
Theorem sanitizeEmail_keeps_verdict (s : jstring) :
  asciiText s ->
  validateField K_email (VString (sanitizeEmail (VString s)))
    = validateField K_email (VString s) /\
  isValidEmail (VString (sanitizeEmail (VString s))) = isValidEmail (VString s).
Proof.
  intros _.
  assert (T : trim (sanitizeEmail (VString s)) = toLowerCase (trim s)).
  { unfold sanitizeEmail. destruct (nonEmpty s) eqn:E.
    - unfold toLowerCase.
      rewrite (trim_map lowerChar (trim s) isSpace_lowerChar), trim_idem.
      reflexivity.
    - rewrite (trim_nil_of_nil s E). reflexivity. }
  assert (P : test emailPattern (toLowerCase (trim s))
              = test emailPattern (trim s))
    by (apply test_map_ignore, emailPattern_ignores_case).
  assert (L : List.length (toLowerCase (trim s)) = List.length (trim s))
    by apply length_map.
  assert (N : nonEmpty (toLowerCase (trim s)) = nonEmpty (trim s))
    by (destruct (trim s); reflexivity).
  split.
  - unfold validateField. cbn [VALIDATION_RULES]. cbv zeta.
    rewrite T, N, L. unfold failsPattern. cbn [pattern]. rewrite P.
    reflexivity.
  - unfold isValidEmail. rewrite T, P.
    destruct (nonEmpty s) eqn:E.
    + destruct (nonEmpty (sanitizeEmail (VString s))) eqn:X; [reflexivity|].
      unfold sanitizeEmail in X. rewrite E in X.
      rewrite N in X. apply nonEmpty_false in X. rewrite X. reflexivity.
    + unfold sanitizeEmail. rewrite E. reflexivity.
Qed.

Lemma sanitizeEmail_keeps_verdict_witness :
  validateField K_email (VString (str "ann@example.com")) = None /\
  validateField K_email (VString (str "  Ann@Example.COM ")) = None.
Proof.
  destruct (sanitizeEmail_keeps_verdict (str "  Ann@Example.COM ")) as [A _].
  - repeat constructor.
  - split; [reflexivity|]. rewrite <- A. reflexivity.
Defined.

End ValidationExtra.

Module DatabaseExtra.
Import Js Types Database Scenarios DatabaseFacts.
Local Open Scope string_scope.
Local Open Scope list_scope.

(** With at least one attempt, what [withRetry] throws is an error that
    the retried function threw: never the unassigned variable. *)
Lemma retryLoop_throws_error (E T : Type) (fn : nat -> Settled E T)
  (config : RetryConfig) (remaining : nat) : forall attempt lastError,
  1 <= remaining ->
  attempt + remaining = S (maxAttempts config) ->
  fst (retryLoop fn config remaining attempt lastError) <> Rejected None.
Proof.
  induction remaining as [|n IH]; intros attempt lastError Hpos Hrem; [lia|].
  simpl. destruct (fn attempt) as [v|e]; [discriminate|].
  destruct (Nat.eqb_spec attempt (maxAttempts config)) as [X|X]; [discriminate|].
  specialize (IH (S attempt) (Some e)).
  destruct (retryLoop fn config n (S attempt) (Some e)) as [r tr].
  simpl in *. apply IH; lia.
Qed.

Lemma wrapResult_shape (T : Type) (fn : nat -> Settled Thrown T) :
  exists r tr,
    wrapResult (withRetry fn DEFAULT_RETRY_CONFIG) = (Resolved r, tr) /\
    calls tr <= 3 /\
    (success r = true <-> error r = None) /\
    (success r = true <-> data r <> None).
Proof.
  pose proof (retryLoop_throws_error _ _ fn DEFAULT_RETRY_CONFIG 3 1 None) as N.
  pose proof (retryLoop_calls _ _ fn DEFAULT_RETRY_CONFIG 3 1 None) as C.
  unfold withRetry. change (maxAttempts DEFAULT_RETRY_CONFIG) with 3 in *.
  destruct (retryLoop fn DEFAULT_RETRY_CONFIG 3 1 None) as [[v|[e|]] tr];
    cbn [fst snd wrapResult] in *.
  - exists (mkDb (Some v) None true), tr. cbn.
    repeat split; intros; try exact C; congruence.
  - exists (mkDb None (Some (handleDatabaseError e)) false), tr. cbn.
    repeat split; intros; try exact C; congruence.
  - exfalso. apply N; [lia | reflexivity | reflexivity].
Qed.

(** X8: the three read operations always return a result object: they
    never reject, they make at most three attempts, and in the result
    [success] holds exactly when there is no error, and exactly when [data]
    is not null. *)
Theorem read_results_shape (env : ReadEnv) (email : jstring)
  (filters : option CountFilters) :
  (exists r tr, checkEmailExists env email = (Resolved r, tr) /\
     calls tr <= 3 /\ (success r = true <-> error r = None) /\
     (success r = true <-> data r <> None)) /\
  (exists r tr, getSubmissionCount env filters = (Resolved r, tr) /\
     calls tr <= 3 /\ (success r = true <-> error r = None) /\
     (success r = true <-> data r <> None)) /\
  (exists r tr, getSubmissionStats env = (Resolved r, tr) /\
     calls tr <= 3 /\ (success r = true <-> error r = None) /\
     (success r = true <-> data r <> None)).
Proof.
  unfold checkEmailExists, getSubmissionCount, getSubmissionStats.
  destruct (readConfigured env); cbn [negb].
  - split; [|split]; apply wrapResult_shape.
  - split; [|split]; eexists; eexists; (split; [reflexivity|]); cbn;
      (split; [unfold calls; cbn; lia|]); split; split; intros; congruence.
Qed.

(** X9: [submitInterestForm] always returns a result object, after at
    most three insert attempts; [success] holds exactly when there is no
    error, and a failure carries no data.  Unconfigured, it asks the store
    nothing and reports success with the submitted name and email. *)
Theorem submitInterestForm_result_shape (env : Env) (formData : FormData)
  (source : string) :
  exists r tr,
    submitInterestForm env formData source = (Resolved r, tr) /\
    calls tr <= 3 /\
    (success r = true <-> error r = None) /\
    (success r = false -> data r = None) /\
    (isSupabaseConfigured env = false ->
       success r = true /\ calls tr = 0 /\
       exists row, data r = Some row /\
         row_name row = get formData K_name /\
         row_email row = get formData K_email /\
         row_source row = source).
Proof.
  unfold submitInterestForm. destruct (isSupabaseConfigured env); cbn [negb].
  - set (row := mkRow _ _ _ _ _ _ _ _ _).
    pose proof (retryLoop_throws_error _ _ (insertOnce env row)
                  DEFAULT_RETRY_CONFIG 3 1 None) as N.
    pose proof (retryLoop_calls _ _ (insertOnce env row)
                  DEFAULT_RETRY_CONFIG 3 1 None) as C.
    unfold withRetry. change (maxAttempts DEFAULT_RETRY_CONFIG) with 3 in *.
    destruct (retryLoop (insertOnce env row) DEFAULT_RETRY_CONFIG 3 1 None)
      as [[v|[e|]] tr]; cbn [fst snd] in *.
    + exists (mkDb v None true), tr. cbn.
      repeat split; intros; try exact C; congruence.
    + exists (mkDb None (Some (handleDatabaseError e)) false), tr. cbn.
      repeat split; intros; try exact C; congruence.
    + exfalso. apply N; [lia | reflexivity | reflexivity].
  - eexists. eexists. split; [reflexivity|]. cbn.
    split; [unfold calls; cbn; lia|]. split; [split; reflexivity|].
    split; [discriminate|]. intros _. split; [reflexivity|].
    split; [reflexivity|]. eexists. repeat split.
Qed.

Lemma submitInterestForm_result_shape_witness :
  exists r tr,
    submitInterestForm (mkEnv false (fun _ _ => Rejected (mkJsError "offline"))
                              "1700000000000" "2023-11-14T22:13:20.000Z")
                       annForm "landing_page" = (Resolved r, tr) /\
    success r = true /\ calls tr = 0.
Proof.
  destruct (submitInterestForm_result_shape
              (mkEnv false (fun _ _ => Rejected (mkJsError "offline"))
                     "1700000000000" "2023-11-14T22:13:20.000Z")
              annForm "landing_page") as (r & tr & A & _ & _ & _ & B).
  destruct (B eq_refl) as (S & C & _).
  exists r, tr. repeat split; assumption.
Defined.

(** *** Error translation *)

(** X10: an [Error] passes through [handleDatabaseError] unchanged; a
    [PostgrestError] always gets a message that is not empty: a fixed one
    that ignores the original message for the five known codes, else the
    original message, or "Database operation failed" when that is empty. *)
Theorem handleDatabaseError_message (e : PostgrestError) :
  (forall err, handleDatabaseError (ThrownError err) = err) /\
  errMessage (handleDatabaseError (ThrownPostgrest e)) <> "" /\
  (In (pgCode e) ["23505"; "23502"; "23503"; "42P01"; "42501"] ->
   forall m, handleDatabaseError (ThrownPostgrest (mkPostgrest (pgCode e) m))
             = handleDatabaseError (ThrownPostgrest e)) /\
  (~ In (pgCode e) ["23505"; "23502"; "23503"; "42P01"; "42501"] ->
   errMessage (handleDatabaseError (ThrownPostgrest e))
     = orElse (pgMessage e) "Database operation failed").
Proof.
  split; [reflexivity|]. unfold handleDatabaseError, orElse.
  destruct e as [c m]. cbn [pgCode pgMessage].
  destruct (String.eqb_spec c "23505") as [->|N1];
    [cbn; repeat split; try discriminate; intro H; exfalso; apply H; cbn; tauto|].
  destruct (String.eqb_spec c "23502") as [->|N2];
    [cbn; repeat split; try discriminate; intro H; exfalso; apply H; cbn; tauto|].
  destruct (String.eqb_spec c "23503") as [->|N3];
    [cbn; repeat split; try discriminate; intro H; exfalso; apply H; cbn; tauto|].
  destruct (String.eqb_spec c "42P01") as [->|N4];
    [cbn; repeat split; try discriminate; intro H; exfalso; apply H; cbn; tauto|].
  destruct (String.eqb_spec c "42501") as [->|N5];
    [cbn; repeat split; try discriminate; intro H; exfalso; apply H; cbn; tauto|].
  split; [|split].
  - destruct (String.eqb_spec m "") as [->|Nm]; cbn; [discriminate | exact Nm].
  - intros [H|[H|[H|[H|[H|[]]]]]]; exfalso; congruence.
  - intros _. reflexivity.
Qed.

Lemma handleDatabaseError_message_witness :
  handleDatabaseError (ThrownPostgrest (mkPostgrest "42501" ""))
    = mkJsError "Insufficient database privileges" /\
  errMessage (handleDatabaseError (ThrownPostgrest (mkPostgrest "57014" "")))
    = "Database operation failed".
Proof.
  destruct (handleDatabaseError_message (mkPostgrest "42501" "permission denied"))
    as (_ & _ & A & _).
  destruct (handleDatabaseError_message (mkPostgrest "57014" ""))
    as (_ & _ & _ & B).
  split.
  - pose proof (A ltac:(cbn; tauto) "") as X. cbn [pgCode] in X.
    rewrite X. reflexivity.
  - rewrite B; [reflexivity|].
    cbn. intros [H|[H|[H|[H|[H|[]]]]]]; discriminate H.
Defined.

(** X11: [toApiResponse] gives status 200 exactly on success and 500
    otherwise, a message that is never empty, and one DATABASE_ERROR entry
    exactly when the result has an error.  It passes [data] on only when it
    is truthy: a successful [false] (or [0]) comes out without data. *)
Theorem toApiResponse_shape (T : Type) (truthyT : T -> bool) (isoNow : string)
  (result : DatabaseResult T) :
  let a := toApiResponse truthyT isoNow result in
  api_success a = success result /\
  (api_status a = 200 <-> success result = true) /\
  (api_status a = 500 <-> success result = false) /\
  api_message a <> "" /\
  (api_errors a = None <-> error result = None) /\
  (forall e, error result = Some e ->
     api_errors a = Some [mkApiError "general" (errMessage e) "DATABASE_ERROR"]) /\
  (forall d, api_data a = Some d <-> data result = Some d /\ truthyT d = true).
Proof.
  cbv zeta. unfold toApiResponse. cbn.
  split; [reflexivity|]. split; [|split; [|split; [|split; [|split]]]].
  - destruct (success result); split; intro H; try reflexivity; discriminate H.
  - destruct (success result); split; intro H; try reflexivity; discriminate H.
  - unfold orElse. destruct (error result) as [e|].
    + destruct (String.eqb_spec (errMessage e) "") as [_|N];
        [destruct (success result); discriminate | exact N].
    + destruct (success result); discriminate.
  - destruct (error result); split; intro H; try reflexivity; discriminate H.
  - intros e ->. reflexivity.
  - intro d. destruct (data result) as [d'|].
    + destruct (truthyT d') eqn:E; split.
      * intro H. injection H as <-. split; [reflexivity | exact E].
      * intros [H _]. exact H.
      * discriminate.
      * intros [H F]. injection H as ->. rewrite E in F. discriminate F.
    + split; [discriminate | intros [H _]; discriminate H].
Qed.

Lemma toApiResponse_shape_witness :
  api_data (toApiResponse (fun b : bool => b) "2023-11-14T22:13:20.000Z"
              (mkDb (Some false) None true)) = None /\
  api_status (toApiResponse (fun b : bool => b) "2023-11-14T22:13:20.000Z"
                (mkDb (Some false) None true)) = 200.
Proof.
  destruct (toApiResponse_shape bool (fun b : bool => b) "2023-11-14T22:13:20.000Z"
              (mkDb (Some false) None true)) as (_ & S & _ & _ & _ & _ & D).
  split; [reflexivity | apply S; reflexivity].
Defined.


(** *** [checkEmailExists] *)

Lemma includes_In (l : list jstring) (s : jstring) :
  includes l s = true <-> In s l.
Proof.
  unfold includes. rewrite existsb_exists. unfold jstring_eqb. split.
  - intros (x & Hx & E). destruct (list_eq_dec N.eq_dec s x) as [->|];
      [exact Hx | discriminate E].
  - intro H. exists s. split; [exact H|].
    destruct (list_eq_dec N.eq_dec s s) as [_|N]; [reflexivity | contradiction].
Qed.

(** X12: a configured [checkEmailExists] asks for the lower-cased email,
    so it gives the same answer for addresses that differ in case only.  An
    answer without error, or with the "no rows" code PGRST116, is a success
    after one request, [true] exactly when a row came back.  When every
    request is answered with another error, the call fails after three
    requests with the translated error. *)
Theorem checkEmailExists_configured (env : ReadEnv) (email : jstring) :
  readConfigured env = true ->
  (forall email', toLowerCase email' = toLowerCase email ->
     checkEmailExists env email' = checkEmailExists env email) /\
  (forall r,
     selectEmail env (toLowerCase email) 1 = Resolved r ->
     (sel_error r = None \/
      exists e, sel_error r = Some e /\ pgCode e = "PGRST116") ->
     checkEmailExists env email
       = (Resolved (mkDb (Some (isSome (sel_data r))) None true), [Call 1])) /\
  (forall e,
     (forall k, exists r,
        selectEmail env (toLowerCase email) k = Resolved r /\
        sel_error r = Some e) ->
     pgCode e <> "PGRST116" ->
     checkEmailExists env email
       = (Resolved (mkDb None (Some (handleDatabaseError (ThrownPostgrest e)))
                         false),
          [Call 1; Sleep 1000; Call 2; Sleep 2000; Call 3])).
Proof.
  intro Hc. unfold checkEmailExists. rewrite Hc. cbn [negb].
  split; [|split].
  - intros email' E. unfold selectOnce. rewrite E. reflexivity.
  - intros r Hr Herr. unfold withRetry. cbn [maxAttempts DEFAULT_RETRY_CONFIG
      retryLoop]. unfold selectOnce at 1. rewrite Hr.
    destruct Herr as [->|(e & -> & Hcode)]; [reflexivity|].
    rewrite Hcode. reflexivity.
  - intros e Hall Hcode.
    assert (F : forall k, selectOnce env email k = Rejected (ThrownPostgrest e)).
    { intro k. destruct (Hall k) as (r & Hr & He). unfold selectOnce.
      rewrite Hr, He. apply String.eqb_neq in Hcode. rewrite Hcode. reflexivity. }
    unfold withRetry. cbn [maxAttempts DEFAULT_RETRY_CONFIG retryLoop].
    rewrite !F. reflexivity.
Qed.

Lemma checkEmailExists_configured_witness :
  let env := mkReadEnv true
               (fun _ _ => Resolved
                  (mkSelect None (Some (mkPostgrest "PGRST116" "no rows"))))
               (fun _ _ => Rejected (mkJsError "unused"))
               (fun _ => Rejected (mkJsError "unused")) "2023-11-01" in
  checkEmailExists env (str "Ann@Example.com")
    = (Resolved (mkDb (Some false) None true), [Call 1]).
Proof.
  intro env.
  destruct (checkEmailExists_configured env (str "Ann@Example.com") eq_refl)
    as (_ & A & _).
  rewrite (A (mkSelect None (Some (mkPostgrest "PGRST116" "no rows"))) eq_refl).
  - reflexivity.
  - right. eexists. split; reflexivity.
Defined.

(** X13: without configuration [checkEmailExists] asks the store nothing
    and always succeeds; it reports an address as existing exactly when its
    lower-cased form is one of the three built-in addresses. *)
Theorem checkEmailExists_unconfigured (env : ReadEnv) (email : jstring) :
  readConfigured env = false ->
  exists b,
    checkEmailExists env email = (Resolved (mkDb (Some b) None true), [Sleep 500]) /\
    calls (snd (checkEmailExists env email)) = 0 /\
    (b = true <->
     In (toLowerCase email)
        [str "test@example.com"; str "demo@example.com";
         str "admin@example.com"]).
Proof.
  intro Hc. unfold checkEmailExists. rewrite Hc. cbn [negb].
  eexists. split; [reflexivity|]. split; [reflexivity|].
  apply includes_In.
Qed.

Lemma checkEmailExists_unconfigured_witness :
  let env := mkReadEnv false
               (fun _ _ => Rejected (mkJsError "unused"))
               (fun _ _ => Rejected (mkJsError "unused"))
               (fun _ => Rejected (mkJsError "unused")) "2023-11-01" in
  fst (checkEmailExists env (str "Demo@Example.COM"))
    = Resolved (mkDb (Some true) None true).
Proof.
  intro env.
  destruct (checkEmailExists_unconfigured env (str "Demo@Example.COM") eq_refl)
    as (b & A & _ & B).
  rewrite A. cbn [fst]. do 3 f_equal. apply B. right. left. reflexivity.
Defined.

(** *** [getSubmissionStats] *)

(** X14: a configured [getSubmissionStats] never reports an error that an
    answer of the store carries.  Whenever its four requests are answered at
    all, it succeeds at the first attempt; a count that is missing is read
    as 0 and missing rows as no sources. *)
Theorem getSubmissionStats_ignores_errors (env : ReadEnv)
  (t n m : CountResponse) (s : SourcesResponse) :
  readConfigured env = true ->
  countWhere env [] 1 = Resolved t ->
  countWhere env [EqNewsletter true] 1 = Resolved n ->
  countWhere env [GteSubmittedAt (monthStart env)] 1 = Resolved m ->
  selectSources env 1 = Resolved s ->
  getSubmissionStats env
    = (Resolved
         (mkDb (Some (mkStats (orZero (cnt_count t)) (orZero (cnt_count n))
                              (orZero (cnt_count m))
                              (countSources (src_data s))))
               None true),
       [Call 1]) /\
  (cnt_count t = None -> cnt_count n = None -> cnt_count m = None ->
   src_data s = None ->
   fst (getSubmissionStats env)
     = Resolved (mkDb (Some (mkStats 0 0 0 [])) None true)).
Proof.
  intros Hc Ht Hn Hm Hs.
  assert (X : getSubmissionStats env
    = (Resolved
         (mkDb (Some (mkStats (orZero (cnt_count t)) (orZero (cnt_count n))
                              (orZero (cnt_count m))
                              (countSources (src_data s))))
               None true),
       [Call 1])).
  { unfold getSubmissionStats. rewrite Hc. cbn [negb].
    unfold withRetry. cbn [maxAttempts DEFAULT_RETRY_CONFIG retryLoop].
    unfold statsOnce at 1. rewrite Ht, Hn, Hm, Hs. reflexivity. }
  split; [exact X|]. intros H1 H2 H3 H4. rewrite X, H1, H2, H3, H4. reflexivity.
Qed.

Lemma getSubmissionStats_ignores_errors_witness :
  let denied := mkPostgrest "42501" "permission denied" in
  let env := mkReadEnv true
               (fun _ _ => Rejected (mkJsError "unused"))
               (fun _ _ => Resolved (mkCount None (Some denied)))
               (fun _ => Resolved (mkSources None (Some denied)))
               "2023-11-01" in
  fst (getSubmissionStats env)
    = Resolved (mkDb (Some (mkStats 0 0 0 [])) None true).
Proof.
  intros denied env.
  destruct (getSubmissionStats_ignores_errors env
              (mkCount None (Some denied)) (mkCount None (Some denied))
              (mkCount None (Some denied)) (mkSources None (Some denied))
              eq_refl eq_refl eq_refl eq_refl eq_refl) as [_ A].
  apply A; reflexivity.
Defined.

(** *** The breakdown by source *)

Lemma ownEntry_putOwn (k k' : string) (e : SourceEntry)
  (m : list (string * SourceEntry)) :
  ownEntry (putOwn k e m) k'
    = if String.eqb k k' then Some e else ownEntry m k'.
Proof.
  induction m as [|[j x] rest IH]; simpl.
  - rewrite String.eqb_sym. destruct (String.eqb k' k); reflexivity.
  - destruct (String.eqb_spec j k) as [->|N]; simpl.
    + destruct (String.eqb_spec k k'); reflexivity.
    + destruct (String.eqb_spec j k') as [->|N'].
      * destruct (String.eqb_spec k k') as [X|_]; [congruence | reflexivity].
      * rewrite IH. reflexivity.
Qed.

Lemma ownEntry_bump (k k' : string) (m : list (string * SourceEntry)) :
  ownEntry (bump k m) k'
    = if String.eqb k k' then bumped k (ownEntry m k) else ownEntry m k'.
Proof.
  unfold bump. destruct (bumped k (ownEntry m k)) as [e|] eqn:B.
  - apply ownEntry_putOwn.
  - destruct (String.eqb_spec k k') as [<-|_]; [|reflexivity].
    unfold bumped in B. destruct (ownEntry m k); [discriminate B | reflexivity].
Qed.

Lemma ownEntry_fold (rows : list string) : forall m k,
  ownEntry (fold_left (fun m item => bump item m) rows m) k
    = Nat.iter (count_occ string_dec rows k) (bumped k) (ownEntry m k).
Proof.
  induction rows as [|x rows IH]; intros m k; [reflexivity|].
  cbn [fold_left count_occ]. rewrite IH, ownEntry_bump.
  destruct (string_dec x k) as [->|N].
  - rewrite String.eqb_refl, Nat.iter_succ_r. reflexivity.
  - destruct (String.eqb_spec x k) as [X|_]; [contradiction | reflexivity].
Qed.

Lemma bumped_iter (k : string) (c : nat) :
  Nat.iter (S c) (bumped k) None
    = if String.eqb k "__proto__" then None
      else if inherited k then Some (Appended (S c))
      else Some (Count (S c)).
Proof.
  induction c as [|c IH].
  - reflexivity.
  - rewrite Nat.iter_succ, IH.
    destruct (String.eqb k "__proto__") eqn:P; [cbn; rewrite P; reflexivity|].
    destruct (inherited k); reflexivity.
Qed.

Lemma sumCounts_putOwn (k : string) (e : SourceEntry)
  (m : list (string * SourceEntry)) :
  sumCounts (putOwn k e m)
    + match ownEntry m k with Some (Count n) => n | _ => 0 end
  = sumCounts m + match e with Count n => n | Appended _ => 0 end.
Proof.
  unfold sumCounts.
  induction m as [|[j x] rest IH]; cbn [putOwn ownEntry fold_right snd].
  - destruct e; lia.
  - destruct (String.eqb j k); cbn [fold_right snd].
    + destruct x, e; lia.
    + destruct x; lia.
Qed.

Lemma sumCounts_bump (k : string) (m : list (string * SourceEntry)) :
  kinded m ->
  kinded (bump k m) /\
  sumCounts (bump k m) = sumCounts m + (if inherited k then 0 else 1).
Proof.
  intro K. split.
  - intros k' e. rewrite ownEntry_bump.
    destruct (String.eqb_spec k k') as [<-|_]; [|apply K].
    unfold bumped. destruct (ownEntry m k) as [x|] eqn:O.
    + intro H. inversion H; subst. specialize (K k x O).
      destruct x; exact K.
    + destruct (String.eqb k "__proto__"); [discriminate|].
      destruct (inherited k); intro H; inversion H; reflexivity.
  - unfold bump, bumped. destruct (ownEntry m k) as [x|] eqn:O.
    + pose proof (sumCounts_putOwn k (plusOne x) m) as S. rewrite O in S.
      specialize (K k x O).
      destruct x; cbv beta iota in K; cbn [plusOne] in S |- *; rewrite K; lia.
    + destruct (String.eqb_spec k "__proto__") as [->|_];
        [change (inherited "__proto__") with true; cbv beta iota; lia|].
      pose proof (sumCounts_putOwn k (if inherited k then Appended 1
                                      else Count 1) m) as S.
      rewrite O in S. destruct (inherited k); cbv beta iota in S |- *; lia.
Qed.

Lemma sumCounts_fold (rows : list string) : forall m,
  kinded m ->
  sumCounts (fold_left (fun m item => bump item m) rows m)
    = sumCounts m
      + List.length (filter (fun r => negb (inherited r)) rows).
Proof.
  induction rows as [|x rows IH]; intros m K;
    [cbn [fold_left filter List.length]; lia|].
  cbn [fold_left filter]. destruct (sumCounts_bump x m K) as [K' S].
  rewrite (IH _ K'), S. destruct (inherited x); cbn [negb List.length]; lia.
Qed.

(** X15: the breakdown by source that [getSubmissionStats] builds counts
    every row with an ordinary source once: such a source has an entry
    exactly when a row carries it, and the entry is the number of those
    rows.  A source that is a property name of [Object.prototype]
    ([constructor], [toString], ...) never gets a number: its entry is text,
    and [__proto__] gets no entry at all.  So the numbers add up to the
    number of rows with an ordinary source, which is the number of rows when
    no source is such a name. *)
Theorem countSources_counts (rows : list string) (k : string) :
  ownEntry (countSources (Some rows)) k
    = (if Nat.eqb (count_occ string_dec rows k) 0 then None
       else if String.eqb k "__proto__" then None
       else if inherited k
            then Some (Appended (count_occ string_dec rows k))
            else Some (Count (count_occ string_dec rows k))) /\
  (inherited k = false ->
     (sourceCount (countSources (Some rows)) k = None <-> ~ In k rows) /\
     (In k rows ->
        sourceCount (countSources (Some rows)) k
          = Some (count_occ string_dec rows k))) /\
  (inherited k = true -> sourceCount (countSources (Some rows)) k = None) /\
  sumCounts (countSources (Some rows))
    = List.length (filter (fun r => negb (inherited r)) rows) /\
  ((forall r, In r rows -> inherited r = false) ->
     sumCounts (countSources (Some rows)) = List.length rows) /\
  countSources None = [].
Proof.
  assert (X : ownEntry (countSources (Some rows)) k
    = (if Nat.eqb (count_occ string_dec rows k) 0 then None
       else if String.eqb k "__proto__" then None
       else if inherited k
            then Some (Appended (count_occ string_dec rows k))
            else Some (Count (count_occ string_dec rows k)))).
  { unfold countSources. rewrite ownEntry_fold. cbn [ownEntry].
    destruct (count_occ string_dec rows k) as [|c]; [reflexivity|].
    rewrite bumped_iter. reflexivity. }
  assert (S : sumCounts (countSources (Some rows))
              = List.length (filter (fun r => negb (inherited r)) rows)).
  { unfold countSources. rewrite sumCounts_fold; [reflexivity|].
    intros j e H. discriminate H. }
  split; [exact X|]. split; [|split; [|split; [exact S|split]]].
  - intro Hk. unfold sourceCount. rewrite X, Hk.
    assert (P : String.eqb k "__proto__" = false).
    { destruct (String.eqb k "__proto__") eqn:P; [|reflexivity].
      apply String.eqb_eq in P. rewrite P in Hk. vm_compute in Hk.
      discriminate Hk. }
    rewrite P. split.
    + rewrite (count_occ_not_In string_dec).
      destruct (Nat.eqb_spec (count_occ string_dec rows k) 0) as [E|E];
        split; intro H; auto; try discriminate H. contradiction.
    + intro Hin. apply (count_occ_In string_dec) in Hin.
      destruct (Nat.eqb_spec (count_occ string_dec rows k) 0) as [E|_];
        [lia | reflexivity].
  - intro Hk. unfold sourceCount. rewrite X, Hk.
    destruct (Nat.eqb _ 0); [reflexivity|].
    destruct (String.eqb k "__proto__"); reflexivity.
  - intro H. rewrite S. f_equal. clear S X.
    induction rows as [|r rows IH]; [reflexivity|]. cbn [filter].
    rewrite (H r (or_introl eq_refl)). cbn [negb]. f_equal.
    apply IH. intros r' Hr. apply H. right. exact Hr.
  - reflexivity.
Qed.

Lemma countSources_counts_witness :
  let rows := ["api"; "constructor"; "landing_page"; "api"; "__proto__";
               "constructor"] in
  sourceCount (countSources (Some rows)) "api" = Some 2 /\
  sourceCount (countSources (Some rows)) "constructor" = None /\
  ownEntry (countSources (Some rows)) "constructor" = Some (Appended 2) /\
  ownEntry (countSources (Some rows)) "__proto__" = None /\
  sumCounts (countSources (Some rows)) = 3 /\
  sumCounts (countSources (Some ["api"; "landing_page"; "api"])) = 3.
Proof.
  intro rows.
  destruct (countSources_counts rows "api") as (_ & A & _).
  destruct (countSources_counts rows "constructor") as (C & _ & B & _).
  destruct (countSources_counts rows "__proto__") as (P & _ & _ & S & _).
  destruct (countSources_counts ["api"; "landing_page"; "api"] "api")
    as (_ & _ & _ & _ & T & _).
  split; [|split; [|split; [|split; [|split]]]].
  - destruct (A eq_refl) as [_ A2]. apply A2. left. reflexivity.
  - apply B. reflexivity.
  - exact C.
  - exact P.
  - exact S.
  - apply T. intros r [<-|[<-|[<-|[]]]]; reflexivity.
Defined.

End DatabaseExtra.

Module FormSubmissionExtra.
Import Js Types Database Timers Scenarios TimerFacts.
Import FormSubmission.
Local Open Scope string_scope.
Local Open Scope list_scope.

Lemma fired_state (l : list (Timer Callback)) : forall h,
  let h' := fold_left
     (fun h tm => runCallback (callback tm)
                    (withQueue h (atTime (queue h) (due tm)))) l h in
  options h' = options h /\
  state h' = match l with [] => state h | _ => initialState end.
Proof.
  induction l as [|tm l IH]; intro h; cbv zeta; [split; reflexivity|].
  cbn [fold_left]. destruct (callback tm). cbn [runCallback].
  destruct (IH (reset (withQueue h (atTime (queue h) (due tm))))) as [A B].
  rewrite A, B. split; [reflexivity|]. destruct l; reflexivity.
Qed.

Lemma advance_state (dt : nat) (h : Hook) :
  options (advance dt h) = options h /\
  (state (advance dt h) = state h \/ state (advance dt h) = initialState).
Proof.
  unfold advance. cbn [options state withQueue].
  match goal with
  | |- context [fold_left ?F ?l ?h0] => destruct (fired_state l h0) as [A B]
  end.
  cbv zeta in A, B. rewrite A, B. split; [reflexivity|].
  destruct (ready _ _); [left | right]; reflexivity.
Qed.

Lemma step_options (op : Op) (h : Hook) : options (step op h) = options h.
Proof.
  destruct op as [d s|o| |dt]; cbn [step]; try reflexivity.
  - unfold submitSettled, fail. destruct o as [r|e]; [|reflexivity].
    destruct (Database.success r); [|reflexivity].
    destruct (Database.data r); [|reflexivity].
    destruct (autoResets (options h)); reflexivity.
  - apply advance_state.
Qed.

(** X16: in every state [useFormSubmission] can reach, a success has no
    error, has its data and is not loading, and an error is no success, is
    not loading and has no data. *)
Theorem submission_state_invariant (o : Options) (h : Hook) :
  reachable o h ->
  (success (state h) = true ->
     error (state h) = None /\ data (state h) <> None /\
     loading (state h) = false) /\
  (error (state h) <> None ->
     success (state h) = false /\ loading (state h) = false /\
     data (state h) = None).
Proof.
  induction 1 as [|op h _ IH].
  - cbn. split; [discriminate | intro H; exfalso; apply H; reflexivity].
  - destruct op as [d s|out| |dt]; cbn [step].
    + cbn. split; [discriminate | intro H; exfalso; apply H; reflexivity].
    + unfold submitSettled, fail. destruct out as [r|e].
      * destruct (Database.success r), (Database.data r);
          try destruct (autoResets (options h)); cbn;
          (split; [intros; repeat split; congruence
                  | intros; repeat split; congruence]).
      * cbn. split; [discriminate | intros; repeat split].
    + cbn. split; [discriminate | intro H; exfalso; apply H; reflexivity].
    + destruct (advance_state dt h) as [_ [E|E]]; rewrite E; [exact IH|].
      cbn. split; [discriminate | intro H; exfalso; apply H; reflexivity].
Qed.

Lemma submission_state_invariant_witness :
  let h := step (OpSubmit annForm "landing_page")
             (step (OpSettled annStored)
                (step (OpSubmit annForm "landing_page") (mount formOptions))) in
  loading (state h) = true /\ success (state h) = false /\
  data (state h) = Some annRow.
Proof.
  intro h.
  destruct (submission_state_invariant formOptions h) as [A B].
  - apply reach_step, reach_step, reach_step, reach_mount.
  - repeat split.
Defined.

(** *** The auto-reset *)

Lemma sortByDue_nonempty (C : Type) (l : list (Timer C)) :
  l <> [] -> sortByDue l <> [].
Proof.
  unfold sortByDue.
  assert (G : forall (l : list (Timer C)) acc,
            fold_left (fun acc t => insertByDue t acc) l acc = [] ->
            l = [] /\ acc = []).
  { clear l. induction l as [|t l IH]; intros acc H; [split; [reflexivity|exact H]|].
    simpl in H. apply IH in H. destruct H as [_ H].
    destruct acc as [|u acc]; simpl in H; [discriminate H|].
    destruct (Nat.ltb (due t) (due u)); discriminate H. }
  intros Hl E. apply G in E. destruct E as [E _]. contradiction.
Qed.

Lemma ready_new_timer (C : Type) (q : Queue C) (cb : C) (delay dt : nat) :
  delay <= dt ->
  ready (snd (setTimeout q cb delay)) (now q + dt) <> [].
Proof.
  intro H. unfold ready, setTimeout. cbn [snd pending].
  apply sortByDue_nonempty. rewrite filter_app. cbn [filter due].
  destruct (Nat.leb_spec (now q + delay) (now q + dt)) as [_|X]; [|lia].
  intro E. apply app_eq_nil in E. destruct E as [_ E]. discriminate E.
Qed.

(** X17: after a successful submission the hook returns to its initial
    state once the reset delay has passed, whatever else is queued, and with
    nothing else queued it keeps the success state until then.  The timer it
    arms is due after [resetDelay] when that is a positive number, and after
    5000 ms when it is missing or 0.  With [autoReset: false] no timer is
    armed.  The statements about the time before the timer fires are made
    for delays a timer honours, up to 2147483647 ms. *)
Theorem auto_reset_after_success (h : Hook) (row : InterestSubmission)
  (dt : nat) :
  let done := submitSettled (Resolved (mkDb (Some row) None true)) h in
  state done = mkState false true None (Some row) /\
  (autoResets (options h) = true ->
   delayOf (options h) <= dt ->
   state (advance dt done) = initialState) /\
  (autoResets (options h) = true ->
   (Z.of_nat (delayOf (options h)) <= 2147483647)%Z ->
   pending (queue h) = [] -> dt < delayOf (options h) ->
   state (advance dt done) = state done) /\
  (autoResets (options h) = true ->
   (Z.of_nat (delayOf (options h)) <= 2147483647)%Z ->
   pending (queue done)
     = pending (queue h)
       ++ [mkTimer (nextId (queue h))
                   (now (queue h) + delayOf (options h)) CbReset]) /\
  (autoResets (options h) = false -> queue done = queue h) /\
  (forall d, resetDelay (options h) = Some (S d) ->
             delayOf (options h) = S d) /\
  (resetDelay (options h) = None \/ resetDelay (options h) = Some 0 ->
   delayOf (options h) = 5000).
Proof.
  cbv zeta. unfold submitSettled. cbn [Database.success Database.data].
  split; [destruct (autoResets (options h)); reflexivity|].
  split; [|split; [|split; [|split; [|split]]]].
  - intros Ha Hd. rewrite Ha.
    pose proof (ready_new_timer _ (queue h) CbReset (delayOf (options h)) dt Hd)
      as R.
    unfold advance. cbn [state withQueue queue].
    match goal with
    | |- context [fold_left ?F ?l ?h0] => destruct (fired_state l h0) as [_ B]
    end.
    cbv zeta in B. rewrite B.
    unfold setTimeout in *. cbn [snd now] in *.
    destruct (ready _ _); [contradiction | reflexivity].
  - intros Ha _ Hp Hd. rewrite Ha. unfold advance, setTimeout.
    cbn [state withQueue queue now pending nextId]. rewrite Hp. cbn [app].
    unfold ready, later. cbn [pending filter due].
    destruct (Nat.leb_spec (now (queue h) + delayOf (options h))
                           (now (queue h) + dt)) as [X|_]; [lia|].
    reflexivity.
  - intros Ha _. rewrite Ha. reflexivity.
  - intros Ha. rewrite Ha. reflexivity.
  - intros d Hd. unfold delayOf. rewrite Hd. reflexivity.
  - unfold delayOf. intros [->| ->]; reflexivity.
Qed.

Lemma auto_reset_after_success_witness :
  let h := submit annForm "landing_page"
             (mount (mkOptions None (Some 2000))) in
  let done := submitSettled annStored h in
  state (advance 1999 done) = mkState false true None (Some annRow) /\
  state (advance 2000 done) = initialState /\
  pending (queue done) = [mkTimer 1 2000 CbReset] /\
  state (advance 4999 afterSuccess) = mkState false true None (Some annRow) /\
  state (advance 5000 afterSuccess) = initialState.
Proof.
  intros h done.
  destruct (auto_reset_after_success h annRow 1999) as (_ & _ & A & T & _).
  destruct (auto_reset_after_success h annRow 2000) as (_ & B & _).
  destruct (auto_reset_after_success
              (submit annForm "landing_page" (mount formOptions)) annRow 4999)
    as (_ & _ & A' & _).
  destruct (auto_reset_after_success
              (submit annForm "landing_page" (mount formOptions)) annRow 5000)
    as (_ & B' & _).
  split; [|split; [|split; [|split]]].
  - etransitivity;
      [apply (A eq_refl); [cbn; lia | reflexivity | cbn; lia] | reflexivity].
  - apply B; [reflexivity | cbn; lia].
  - etransitivity; [apply (T eq_refl); cbn; lia | reflexivity].
  - etransitivity;
      [apply (A' eq_refl); [cbn; lia | reflexivity | cbn; lia] | reflexivity].
  - apply B'; [reflexivity | cbn; lia].
Defined.

End FormSubmissionExtra.

Module EmailCheckExtra.
Import Js Types Database Timers Scenarios TimerFacts JsFacts.
Import EmailCheck EmailCheckFacts.
Local Open Scope list_scope.

Lemma performCheck_justified (email : jstring) (h : Hook) :
  lookupsJustified h -> lookupsJustified (performCheck email h).
Proof.
  intros H t l Hin. unfold performCheck in *.
  destruct (negb (nonEmpty email) || negb (nonEmpty (trim email))) eqn:E;
    cbn [lookups performed] in *.
  - destruct (H t l Hin) as (e & He & R). exists e.
    split; [apply in_or_app; left; exact He | exact R].
  - apply in_app_or in Hin. destruct Hin as [Hin|[Hin|[]]].
    + destruct (H t l Hin) as (e & He & R). exists e.
      split; [apply in_or_app; left; exact He | exact R].
    + injection Hin as <- <-. exists email.
      split; [apply in_or_app; right; left; reflexivity|].
      split; [reflexivity|].
      apply orb_false_iff in E. destruct E as [_ E].
      apply negb_false_iff in E. destruct (trim email); [discriminate E | discriminate].
Qed.

Lemma fired_justified (l : list (Timer Callback)) : forall h,
  lookupsJustified h ->
  lookupsJustified (fold_left
     (fun h tm => runCallback (callback tm)
                    (withQueue h (atTime (queue h) (due tm)))) l h).
Proof.
  induction l as [|tm l IH]; intros h H; [exact H|].
  cbn [fold_left]. apply IH. destruct (callback tm) as [email].
  cbn [runCallback]. apply performCheck_justified. exact H.
Qed.

Lemma step_justified (op : Op) (h : Hook) :
  lookupsJustified h -> lookupsJustified (step op h).
Proof.
  intro H. destruct op as [email [|]|outcome| |dt]; cbn [step].
  - unfold checkEmail. apply performCheck_justified. exact H.
  - unfold checkEmail, setTimeout. exact H.
  - unfold checkSettled.
    destruct outcome as [r|e]; [destruct (Database.success r)|]; exact H.
  - exact H.
  - unfold advance.
    match goal with
    | |- lookupsJustified (withQueue (fold_left ?F ?l ?h0) _) =>
        pose proof (fired_justified l h0 H) as J
    end.
    exact J.
Qed.

(** X18: in every state [useEmailCheck] can reach, each request made to
    the store belongs to a run of the check and asks for the trimmed,
    lower-cased form of that run's email; it is never empty and has no
    whitespace around it.  A blank email never reaches the store. *)
Theorem lookups_are_normalised (debounce : option nat) (h : Hook) :
  reachable debounce h ->
  forall t l, In (t, l) (lookups h) ->
    (exists e, In (t, e) (performed h) /\
               l = toLowerCase (trim e) /\ trim e <> []) /\
    l <> [] /\ trim l = l.
Proof.
  intros Hr t l Hin.
  assert (J : lookupsJustified h).
  { clear t l Hin. induction Hr as [|op h _ IH].
    - intros t l [].
    - apply step_justified. exact IH. }
  destruct (J t l Hin) as (e & He & -> & Hne).
  split; [exists e; repeat split; assumption|]. split.
  - unfold toLowerCase. destruct (trim e); [contradiction | discriminate].
  - unfold toLowerCase.
    rewrite (trim_map lowerChar (trim e) isSpace_lowerChar), trim_idem.
    reflexivity.
Qed.

Lemma lookups_are_normalised_witness :
  let h := step (OpAdvance 500)
             (step (OpCheckEmail (str "  Ann@X.com ") false)
                (step (OpCheckEmail (str "   ") true) (mount (Some 500)))) in
  lookups h = [(500, str "ann@x.com")] /\
  List.length (performed h) = 2.
Proof.
  intro h. split; [|reflexivity].
  assert (R : reachable (Some 500) h)
    by (apply reach_step, reach_step, reach_step, reach_mount).
  destruct (lookups_are_normalised (Some 500) h R 500 (str "ann@x.com"))
    as (_ & _ & _); [left; reflexivity | reflexivity].
Defined.

(** X19: an immediate [checkEmail] cancels the debounced check that is
    pending and runs its own at once; nothing stays queued, so no further
    run follows however long one waits. *)
Theorem immediate_check_cancels_pending (h : Hook) (email : jstring)
  (dt : nat) :
  tidyEmailCheck h ->
  let h1 := checkEmail email true h in
  pending (queue h1) = [] /\
  performed h1 = performed h ++ [(now (queue h), email)] /\
  performed (advance dt h1) = performed h1 /\
  lookups (advance dt h1) = lookups h1.
Proof.
  intro Ht. cbv zeta. unfold checkEmail.
  destruct (performCheck_frame email
              (withQueue h (clearRef (queue h) (debounceTimeoutRef h))))
    as [Q _].
  assert (P : pending (queue (performCheck email
              (withQueue h (clearRef (queue h) (debounceTimeoutRef h))))) = []).
  { rewrite Q. cbn. apply clearRef_tidy. exact Ht. }
  split; [exact P|]. split.
  - unfold performCheck. cbn [queue withQueue performed].
    destruct (clearRef_now _ (queue h) (debounceTimeoutRef h)) as [-> _].
    destruct (negb (nonEmpty email) || negb (nonEmpty (trim email)));
      reflexivity.
  - unfold advance, ready, later. rewrite P. cbn. split; reflexivity.
Qed.

Lemma immediate_check_cancels_pending_witness :
  let h := checkEmail (str "a@x.com") false (mount (Some 500)) in
  performed (advance 2000 (checkEmail (str "b@x.com") true h))
    = [(0, str "b@x.com")].
Proof.
  intro h.
  assert (Ht : tidyEmailCheck h) by (intros t [<-|[]]; reflexivity).
  destruct (immediate_check_cancels_pending h (str "b@x.com") 2000 Ht)
    as (_ & A & B & _).
  rewrite B, A. reflexivity.
Defined.

End EmailCheckExtra.

Module FormValidationExtra.
Import Js Types Validation Timers Scenarios TimerFacts ValidationFacts.
Import FormValidation FormValidationFacts.
Local Open Scope string_scope.
Local Open Scope list_scope.

Lemma Field_eqb_refl (f : Field) : Field_eqb f f = true.
Proof. apply Field_eqb_eq. reflexivity. Qed.

Lemma Field_eqb_neq (f g : Field) : f <> g -> Field_eqb f g = false.
Proof.
  intro H. destruct (Field_eqb f g) eqn:E; [|reflexivity].
  apply Field_eqb_eq in E. contradiction.
Qed.

Lemma dropField_fields (f g : Field) (l : list ValidationError) :
  In g (map Types.field (dropField f l)) <->
  In g (map Types.field l) /\ g <> f.
Proof.
  unfold dropField. rewrite !in_map_iff. split.
  - intros (e & <- & He). apply filter_In in He. destruct He as [He Hf].
    split; [exists e; split; [reflexivity | exact He]|].
    intro X. rewrite X, Field_eqb_refl in Hf. discriminate Hf.
  - intros [(e & <- & He) Hn]. exists e. split; [reflexivity|].
    apply filter_In. split; [exact He|].
    rewrite (Field_eqb_neq _ _ Hn). reflexivity.
Qed.

Lemma dropField_NoDup (f : Field) (l : list ValidationError) :
  NoDup (map Types.field l) -> NoDup (map Types.field (dropField f l)).
Proof.
  induction l as [|e l IH]; intro H; [constructor|].
  inversion H as [|x xs Hx Hl]; subst. unfold dropField. cbn [filter].
  destruct (negb (Field_eqb (Types.field e) f)); [|apply IH; exact Hl].
  cbn [map]. constructor; [|apply IH; exact Hl].
  intro X. apply dropField_fields in X. apply Hx. exact (proj1 X).
Qed.

Lemma collectErrors_fields (d props : FormData) (g : Field) :
  In g (map Types.field (collectErrors d props)) -> In g (map fst props).
Proof.
  intro H. apply in_map_iff in H. destruct H as (e & <- & He).
  apply ValidationExtra.collectErrors_In in He. destruct He as (v & Hv & _).
  apply in_map_iff. exists (Types.field e, v). split; [reflexivity | exact Hv].
Qed.

Lemma collectErrors_NoDup (d props : FormData) :
  NoDup (map fst props) -> NoDup (map Types.field (collectErrors d props)).
Proof.
  induction props as [|[k v] rest IH]; intro H; [constructor|].
  inversion H as [|x xs Hx Hl]; subst. cbn [collectErrors].
  destruct (validateField k (get d k)) as [e|] eqn:E; [|apply IH; exact Hl].
  cbn [map]. rewrite (ValidationExtra.validateField_field k _ e E).
  constructor; [|apply IH; exact Hl].
  intro X. apply Hx. apply (collectErrors_fields d rest k X).
Qed.

Lemma validateFormOn_distinct (d : FormData) (h : Hook) :
  distinctFields (validateFormOn d h).
Proof.
  unfold distinctFields, validateFormOn, validateAndSanitizeFormData,
    validateFormData.
  cbn [validationState withValidation errors v_errors Types.errors].
  apply collectErrors_NoDup. rewrite sanitizeFormData_eq. cbn [map fst].
  repeat constructor; cbn; intuition discriminate.
Qed.

Lemma validateSingleField_distinct (f : Field) (v : Value) (h : Hook) :
  distinctFields h -> distinctFields (validateSingleField f v h).
Proof.
  unfold distinctFields, validateSingleField.
  cbn [validationState withValidation errors]. intro H.
  destruct (validateField f v) as [e|] eqn:E; [|apply dropField_NoDup; exact H].
  rewrite map_app. cbn [map].
  rewrite (ValidationExtra.validateField_field f v e E).
  apply NoDup_app.
  - apply dropField_NoDup. exact H.
  - repeat constructor. intros [].
  - intros g Hg [<-|[]]. apply dropField_fields in Hg.
    destruct Hg as [_ Hg]. apply Hg. reflexivity.
Qed.

Lemma mountEffect_distinct (h : Hook) :
  distinctFields h -> distinctFields (mountEffect h).
Proof.
  intro H. unfold mountEffect. destruct (validateOnMount (options h));
    [apply validateFormOn_distinct | exact H].
Qed.

Lemma fired_distinct (l : list (Timer Callback)) : forall h,
  distinctFields h ->
  distinctFields (fold_left
     (fun h tm => runCallback (callback tm)
                    (withQueue h (atTime (queue h) (due tm)))) l h).
Proof.
  induction l as [|tm l IH]; intros h H; [exact H|].
  cbn [fold_left]. apply IH. destruct (callback tm) as [d].
  cbn [runCallback]. apply validateFormOn_distinct.
Qed.

Lemma step_distinct (op : Op) (h : Hook) :
  distinctFields h -> distinctFields (step op h).
Proof.
  intro H. destruct op as [f v b|f|f v| |d|f| | |dt]; cbn [step].
  - unfold updateField. apply mountEffect_distinct.
    destruct b; [destruct (validateOnChange (options h))|]; try exact H.
    apply validateSingleField_distinct. exact H.
  - unfold handleFieldBlur. destruct (validateOnBlur (options h)); [|exact H].
    destruct (get (formData h) f); try exact H;
      apply validateSingleField_distinct; exact H.
  - apply validateSingleField_distinct. exact H.
  - apply validateFormOn_distinct.
  - unfold setFormDataAndValidate. apply mountEffect_distinct.
    destruct (validateOnChange (options h)); [|exact H].
    apply validateFormOn_distinct.
  - unfold distinctFields, clearFieldError.
    cbn [validationState withValidation errors]. apply dropField_NoDup. exact H.
  - constructor.
  - unfold resetForm. destruct (pristine h); [constructor|].
    apply mountEffect_distinct. constructor.
  - unfold advance.
    match goal with
    | |- distinctFields (withQueue (fold_left ?F ?l ?h0) _) =>
        exact (fired_distinct l h0 H)
    end.
Qed.

Lemma find_field_NoDup (l : list ValidationError) (e : ValidationError) :
  NoDup (map Types.field l) -> In e l ->
  find (fun x => Field_eqb (Types.field x) (Types.field e)) l = Some e.
Proof.
  induction l as [|x l IH]; intros Hn Hin; [destruct Hin|].
  inversion Hn as [|y ys Hx Hl]; subst. cbn [find].
  destruct Hin as [->|Hin]; [rewrite Field_eqb_refl; reflexivity|].
  destruct (Field_eqb (Types.field x) (Types.field e)) eqn:E.
  - apply Field_eqb_eq in E. exfalso. apply Hx. rewrite E.
    apply in_map. exact Hin.
  - apply IH; assumption.
Qed.

(** X20: in every state [useFormValidation] can reach, the validation
    state holds at most one error for a field; so [getFieldError], which
    returns the first error of a field, shows every error there is. *)
Theorem one_error_per_field (o : Options) (h : Hook) :
  reachable o h ->
  NoDup (map Types.field (errors (validationState h))) /\
  forall e, In e (errors (validationState h)) ->
            getFieldError (Types.field e) h = Some (Types.message e).
Proof.
  intro Hr.
  assert (D : distinctFields h).
  { induction Hr as [|op h _ IH].
    - unfold mount. apply mountEffect_distinct. constructor.
    - apply step_distinct. exact IH. }
  split; [exact D|]. intros e He. unfold getFieldError.
  rewrite (find_field_NoDup _ e D He). reflexivity.
Qed.

Lemma one_error_per_field_witness :
  let h := step (OpHandleFieldBlur K_email)
             (step (OpHandleFieldBlur K_name) (mount exampleOptions)) in
  getFieldError K_email h = Some "email is required".
Proof.
  intro h.
  assert (R : reachable exampleOptions h)
    by (apply reach_step, reach_step, reach_mount).
  destruct (one_error_per_field exampleOptions h R) as [_ G].
  apply (G (requiredError K_email)). right. left. reflexivity.
Defined.

Lemma find_dropField_same (f : Field) (l : list ValidationError) :
  find (fun e => Field_eqb (Types.field e) f) (dropField f l) = None.
Proof.
  induction l as [|e l IH]; [reflexivity|]. unfold dropField. cbn [filter].
  destruct (Field_eqb (Types.field e) f) eqn:E; cbn [negb]; [exact IH|].
  cbn [find]. rewrite E. exact IH.
Qed.

Lemma find_dropField_other (f g : Field) (l : list ValidationError) :
  g <> f ->
  find (fun e => Field_eqb (Types.field e) g) (dropField f l)
    = find (fun e => Field_eqb (Types.field e) g) l.
Proof.
  intro Hn. induction l as [|e l IH]; [reflexivity|].
  unfold dropField. cbn [filter find].
  destruct (Field_eqb (Types.field e) f) eqn:E; cbn [negb].
  - apply Field_eqb_eq in E.
    rewrite E, (Field_eqb_neq f g (fun X => Hn (eq_sym X))). exact IH.
  - cbn [find]. destruct (Field_eqb (Types.field e) g); [reflexivity | exact IH].
Qed.

Lemma find_app_single (p : ValidationError -> bool)
  (l : list ValidationError) (e : ValidationError) :
  find p (l ++ [e])
    = match find p l with
      | Some x => Some x
      | None => if p e then Some e else None
      end.
Proof.
  induction l as [|x l IH]; [reflexivity|]. cbn [app find].
  destruct (p x); [reflexivity | exact IH].
Qed.

(** X21: what [getFieldError] reads back.  After [validateSingleField]
    the field shows exactly the message [validateField] gives for the value
    (none when the value is accepted), whatever the field showed before;
    after [clearFieldError] it shows none; after [clearAllErrors] no field
    shows one.  The messages of the other fields stay as they were. *)
Theorem getFieldError_reads_back (h : Hook) (f : Field) (v : Value) :
  getFieldError f (validateSingleField f v h)
    = option_map Types.message (validateField f v) /\
  getFieldError f (clearFieldError f h) = None /\
  (forall g, getFieldError g (clearAllErrors h) = None) /\
  (forall g, g <> f ->
     getFieldError g (validateSingleField f v h) = getFieldError g h /\
     getFieldError g (clearFieldError f h) = getFieldError g h).
Proof.
  unfold getFieldError, validateSingleField, clearFieldError.
  cbn [validationState withValidation errors]. split; [|split; [|split]].
  - destruct (validateField f v) as [e|] eqn:E.
    + rewrite find_app_single, find_dropField_same.
      rewrite (ValidationExtra.validateField_field f v e E), Field_eqb_refl.
      reflexivity.
    + rewrite find_dropField_same. reflexivity.
  - rewrite find_dropField_same. reflexivity.
  - intro g. reflexivity.
  - intros g Hn. split; [|rewrite (find_dropField_other f g _ Hn); reflexivity].
    destruct (validateField f v) as [e|] eqn:E.
    + rewrite find_app_single, (find_dropField_other f g _ Hn).
      rewrite (ValidationExtra.validateField_field f v e E).
      rewrite (Field_eqb_neq f g (fun X => Hn (eq_sym X))).
      destruct (find _ _); reflexivity.
    + rewrite (find_dropField_other f g _ Hn). reflexivity.
Qed.

Lemma getFieldError_reads_back_witness :
  let h := validateSingleField K_name (VString (str "A"))
             (mount exampleOptions) in
  getFieldError K_name (validateSingleField K_email (VString []) h)
    = Some "name must be at least 2 characters long".
Proof.
  intro h.
  destruct (getFieldError_reads_back h K_email (VString []))
    as (_ & _ & _ & G).
  destruct (G K_name) as [-> _]; [discriminate|]. subst h.
  destruct (getFieldError_reads_back (mount exampleOptions) K_name
              (VString (str "A"))) as (-> & _).
  reflexivity.
Defined.

(** X22: the debounced validation that [updateField] arms validates the
    form data of the render that called it, which does not have the new
    value yet.  With [validateOnChange] and [validateOnMount] off, once the
    debounce delay has passed the form holds the new value, and its errors
    are those of the data from before the update. *)
Theorem debounced_validation_is_stale (o : Options) (h : Hook) (f : Field)
  (v : Value) :
  reachable o h ->
  validateOnChange o = false -> validateOnMount o = false ->
  let h1 := advance (debounceMs o) (updateField f v true h) in
  formData h1 = set (formData h) f v /\
  errors (validationState h1)
    = v_errors (validateAndSanitizeFormData (formData h)) /\
  isValid (validationState h1) = false /\
  pending (queue h1) = [].
Proof.
  intros Hr Hc Hm. cbv zeta.
  pose proof (reachable_options o h Hr) as Ho.
  pose proof (formValidation_reachable_tidy o h Hr) as Ht.
  unfold updateField, mountEffect.
  cbn [options withValidation withFormData]. rewrite Ho, Hc.
  unfold debouncedValidate, setTimeout.
  cbn [options withValidation withFormData queue debounceTimerRef
       validationState formData pristine]. rewrite Ho, Hm.
  pose proof (clearRef_tidy _ (queue h) (debounceTimerRef h) Ht) as P.
  destruct (clearRef_now _ (queue h) (debounceTimerRef h)) as [N I].
  unfold advance. cbn [queue]. unfold ready, later. cbn [pending now nextId].
  rewrite P, N. cbn [app filter due].
  destruct (Nat.leb_spec (now (queue h) + debounceMs o)
                         (now (queue h) + debounceMs o)) as [_|X]; [|lia].
  cbn [negb sortByDue fold_left insertByDue callback runCallback].
  unfold validateFormOn.
  cbn [formData withQueue withValidation validationState errors isValid
       queue pending atTime].
  repeat split.
  unfold validateAndSanitizeFormData, validateFormData.
  cbn [v_isValid Types.isValid]. rewrite sanitizeFormData_eq.
  cbn [collectErrors get Field_eqb].
  change (validateField K_subscribed_newsletter
            (get (formData h) K_subscribed_newsletter))
    with (Some (invalidFieldError K_subscribed_newsletter)).
  repeat match goal with
         | |- context [match ?x with Some _ => _ | None => _ end] =>
             destruct x
         end; reflexivity.
Qed.

Lemma debounced_validation_is_stale_witness :
  let h1 := advance 300
              (updateField K_name (VString (str "Ann")) true
                 (mount exampleOptions)) in
  get (formData h1) K_name = VString (str "Ann") /\
  getFieldError K_name h1 = Some "name is required".
Proof.
  intro h1.
  destruct (debounced_validation_is_stale exampleOptions (mount exampleOptions)
              K_name (VString (str "Ann")) (reach_mount exampleOptions)
              eq_refl eq_refl) as (A & B & _).
  assert (A' : formData h1
               = set (formData (mount exampleOptions)) K_name
                     (VString (str "Ann"))) by exact A.
  assert (B' : errors (validationState h1)
               = v_errors (validateAndSanitizeFormData
                             (formData (mount exampleOptions)))) by exact B.
  unfold getFieldError. rewrite A', B'. split; reflexivity.
Defined.

End FormValidationExtra.

Module FormsExtra.
Import Js Types Constants Validation Database Timers Scenarios.
Import JsFacts ValidationFacts.
Local Open Scope string_scope.
Local Open Scope list_scope.

(** *** [validateAndSanitizeFormData] as the components see it *)

Lemma sanitized_reports_newsletter (x : FormData) :
  v_isValid (validateAndSanitizeFormData x) = false /\
  In (invalidFieldError K_subscribed_newsletter)
     (v_errors (validateAndSanitizeFormData x)).
Proof.
  unfold validateAndSanitizeFormData, validateFormData.
  cbn [v_isValid v_errors Types.isValid Types.errors].
  rewrite (sanitizeFormData_eq x). cbn [collectErrors get Field_eqb].
  change (validateField K_subscribed_newsletter (get x K_subscribed_newsletter))
    with (Some (invalidFieldError K_subscribed_newsletter)).
  repeat match goal with
         | |- context [match ?v with Some _ => _ | None => _ end] =>
             destruct v
         end; (split; [reflexivity | cbn; tauto]).
Qed.

(** *** The submission hook keeps its record of requests *)

Lemma submission_fired_submitted
  (l : list (Timer FormSubmission.Callback)) : forall h,
  FormSubmission.submitted (fold_left
     (fun h tm => FormSubmission.runCallback (callback tm)
                    (FormSubmission.withQueue h
                       (atTime (FormSubmission.queue h) (due tm)))) l h)
    = FormSubmission.submitted h.
Proof.
  induction l as [|tm l IH]; intro h; [reflexivity|].
  cbn [fold_left]. rewrite IH. destruct (callback tm). reflexivity.
Qed.

Lemma submission_advance_submitted (dt : nat) (h : FormSubmission.Hook) :
  FormSubmission.submitted (FormSubmission.advance dt h)
    = FormSubmission.submitted h.
Proof.
  unfold FormSubmission.advance.
  cbn [FormSubmission.submitted FormSubmission.withQueue].
  rewrite submission_fired_submitted. reflexivity.
Qed.

Lemma submission_settled_submitted
  (outcome : Settled JsError (DatabaseResult InterestSubmission))
  (h : FormSubmission.Hook) :
  FormSubmission.submitted (FormSubmission.submitSettled outcome h)
    = FormSubmission.submitted h.
Proof.
  unfold FormSubmission.submitSettled, FormSubmission.fail.
  destruct outcome as [r|e]; [|reflexivity].
  destruct (Database.success r); [|reflexivity].
  destruct (Database.data r); [|reflexivity].
  destruct (FormSubmission.autoResets (FormSubmission.options h)); reflexivity.
Qed.

Lemma contact_handleSubmit_submission (c : ContactForm.Form) :
  ContactForm.submission (ContactForm.handleSubmit c)
    = ContactForm.submission c.
Proof.
  unfold ContactForm.handleSubmit, ContactForm.validateForm.
  destruct (sanitized_reports_newsletter (ContactForm.formData c)) as [V _].
  rewrite V. cbn [negb].
  destruct (negb (ContactForm.isConnected c)); reflexivity.
Qed.

(** X23: [SupabaseContactForm] never sends anything.  Its [handleSubmit]
    refuses every form, because [validateAndSanitizeFormData] reports the key
    [subscribed_newsletter] for each of them: whatever the user types and
    whatever the client answers, the submission hook is never asked to
    submit, and a connected form is left showing the INVALID_FIELD error;
    a form that is not connected gets the alert and nothing else. *)
Theorem contact_form_never_submits (connected : bool) (c : ContactForm.Form) :
  ContactForm.reachable connected c ->
  FormSubmission.submitted (ContactForm.submission c) = [] /\
  ContactForm.submission (ContactForm.handleSubmit c)
    = ContactForm.submission c /\
  (connected = true ->
     In (invalidFieldError K_subscribed_newsletter)
        (ContactForm.validationErrors (ContactForm.handleSubmit c)) /\
     ContactForm.alerts (ContactForm.handleSubmit c) = ContactForm.alerts c) /\
  (connected = false ->
     ContactForm.validationErrors (ContactForm.handleSubmit c)
       = ContactForm.validationErrors c /\
     ContactForm.alerts (ContactForm.handleSubmit c) <> ContactForm.alerts c).
Proof.
  intro Hr.
  assert (I : FormSubmission.submitted (ContactForm.submission c) = [] /\
              ContactForm.isConnected c = connected).
  { induction Hr as [|op c _ [IH IC]]; [split; reflexivity|].
    destruct op as [f v| | |o|o|dt]; cbn [ContactForm.step].
    - split; [exact IH | exact IC].
    - rewrite contact_handleSubmit_submission. split; [exact IH|].
      unfold ContactForm.handleSubmit.
      destruct (negb (ContactForm.isConnected c)); [exact IC|].
      destruct (ContactForm.validateForm c) as [ok errs].
      destruct (negb ok); exact IC.
    - split; [exact IH | exact IC].
    - cbn [ContactForm.submission ContactForm.isConnected].
      rewrite submission_settled_submitted. split; [exact IH | exact IC].
    - split; [exact IH | exact IC].
    - cbn [ContactForm.submission ContactForm.isConnected].
      rewrite submission_advance_submitted. split; [exact IH | exact IC]. }
  destruct I as [I C].
  split; [exact I|]. split; [apply contact_handleSubmit_submission|].
  destruct (sanitized_reports_newsletter (ContactForm.formData c)) as [V E].
  unfold ContactForm.handleSubmit, ContactForm.validateForm.
  rewrite V, C. cbn [negb]. split; intros ->; cbn [negb].
  - split; [exact E | reflexivity].
  - split; [reflexivity|]. cbn [ContactForm.alerts]. intro X.
    apply (f_equal (@List.length string)) in X. rewrite length_app in X.
    cbn [List.length] in X. lia.
Qed.

Lemma contact_form_never_submits_witness :
  let c := ContactForm.step ContactForm.OpSubmit
             (ContactForm.step
                (ContactForm.OpInputChange K_email (VString (str "ann@x.com")))
                (ContactForm.step
                   (ContactForm.OpInputChange K_name (VString (str "Ann")))
                   (ContactForm.mount true))) in
  FormSubmission.submitted (ContactForm.submission c) = [] /\
  In (invalidFieldError K_subscribed_newsletter)
     (ContactForm.validationErrors (ContactForm.handleSubmit c)).
Proof.
  intro c.
  assert (R : ContactForm.reachable true c)
    by (apply ContactForm.reach_step, ContactForm.reach_step,
          ContactForm.reach_step, ContactForm.reach_mount).
  destruct (contact_form_never_submits true c R) as (A & _ & B & _).
  split; [exact A | exact (proj1 (B eq_refl))].
Defined.

(** *** [InterestForm] *)

Lemma trimEnd_no_space (s : jstring) :
  forallb (fun c => negb (isSpace c)) s = true -> trimEnd s = s.
Proof.
  induction s as [|c r IH]; [reflexivity|]. cbn [forallb]. intro H.
  apply andb_true_iff in H. destruct H as [Hc Hr].
  apply negb_true_iff in Hc. cbn [trimEnd]. rewrite (IH Hr), Hc.
  destruct r; reflexivity.
Qed.

Lemma trim_no_space (s : jstring) :
  forallb (fun c => negb (isSpace c)) s = true -> trim s = s.
Proof.
  intro H. apply trim_fixed_iff. split; [|apply trimEnd_no_space; exact H].
  apply trimStart_fixed. destruct s as [|c r]; [exact I|].
  cbn [forallb] in H. apply andb_true_iff in H.
  apply negb_true_iff. exact (proj1 H).
Qed.

Lemma resetForm_formData (h : FormValidation.Hook) :
  FormValidation.formData (FormValidation.resetForm h)
    = FormValidation.initialData (FormValidation.options h).
Proof.
  unfold FormValidation.resetForm.
  destruct (FormValidation.pristine h); [reflexivity|].
  match goal with
  | |- FormValidation.formData (FormValidation.mountEffect ?x) = _ =>
      destruct (FormValidationFacts.mountEffect_frame x) as (_ & _ & F)
  end.
  rewrite F. reflexivity.
Qed.

Lemma submitSucceeded_state
  (outcome : Settled JsError (DatabaseResult InterestSubmission))
  (h : FormSubmission.Hook) :
  FormSubmission.success
    (FormSubmission.state (FormSubmission.submitSettled outcome h))
    = InterestForm.submitSucceeded outcome.
Proof.
  unfold FormSubmission.submitSettled, InterestForm.submitSucceeded,
    FormSubmission.fail.
  destruct outcome as [r|e]; [|reflexivity].
  destruct (Database.success r); [|reflexivity].
  destruct (Database.data r); [|reflexivity].
  destruct (FormSubmission.autoResets (FormSubmission.options h)); reflexivity.
Qed.

(** X24: what [InterestForm] sends, and what it does with the answer.  Up
    to its [await], [handleSubmit] starts at most one submission and keeps
    the form data; what it hands to the submission hook is the form data as
    typed, not sanitized, with the component's [source].  It does so only
    when the email is not known to exist, the name is truthy, and the email
    as typed (not trimmed) matches the pattern, so that the email has no
    whitespace and at least five characters; the errors shown before are
    cleared.  After the [await], a submission that succeeded resets the form
    data to the initial data, shows the success message, arms the timer that
    hides it after 5000 ms and tells [onSuccess] the data that was sent; one
    that failed leaves the form as it is and tells [onError] the
    [errorMessage] of the props. *)
Theorem interest_form_submits_typed_data (c : InterestForm.Form) :
  let c' := InterestForm.handleSubmit c in
  (FormSubmission.submitted (InterestForm.submission c')
     = FormSubmission.submitted (InterestForm.submission c) \/
   FormSubmission.submitted (InterestForm.submission c')
     = FormSubmission.submitted (InterestForm.submission c)
         ++ [(InterestForm.formData c, InterestForm.source c)] /\
   InterestForm.emailExists c = false /\
   truthy (get (InterestForm.formData c) K_name) = true /\
   FormValidation.errors
     (FormValidation.validationState (InterestForm.validation c')) = [] /\
   exists s, get (InterestForm.formData c) K_email = VString s /\
             test emailPattern s = true /\ trim s = s /\
             5 <= List.length s) /\
  InterestForm.formData c' = InterestForm.formData c /\
  (InterestForm.emailExists c = true ->
   InterestForm.submission c' = InterestForm.submission c /\
   InterestForm.duplicateEmailError c' <> None) /\
  forall sent outcome,
    let d := InterestForm.handleSubmitSettled sent outcome c in
    InterestForm.submission d
      = FormSubmission.submitSettled outcome (InterestForm.submission c) /\
    FormSubmission.success (FormSubmission.state (InterestForm.submission d))
      = InterestForm.submitSucceeded outcome /\
    (InterestForm.submitSucceeded outcome = true ->
       InterestForm.formData d
         = FormValidation.initialData
             (FormValidation.options (InterestForm.validation c)) /\
       InterestForm.showSuccess d = true /\
       InterestForm.notices d
         = InterestForm.notices c ++ [InterestForm.ToldSuccess sent] /\
       pending (InterestForm.queue d)
         = pending (InterestForm.queue c)
           ++ [mkTimer (nextId (InterestForm.queue c))
                       (now (InterestForm.queue c) + 5000)
                       InterestForm.CbHideSuccess]) /\
    (InterestForm.submitSucceeded outcome = false ->
       InterestForm.validation d = InterestForm.validation c /\
       InterestForm.showSuccess d = InterestForm.showSuccess c /\
       InterestForm.notices d
         = InterestForm.notices c
           ++ [InterestForm.ToldError (InterestForm.errorMessage c)] /\
       InterestForm.queue d = InterestForm.queue c).
Proof.
  cbv zeta. split; [|split; [|split]].
  - unfold InterestForm.handleSubmit.
    destruct (InterestForm.emailExists c) eqn:X; [left; reflexivity|].
    destruct (truthy (get (InterestForm.formData c) K_name)) eqn:N;
      cbn [negb orb]; [|left; reflexivity].
    destruct (truthy (get (InterestForm.formData c) K_email)) eqn:M;
      cbn [negb]; [|left; reflexivity].
    destruct (InterestForm.emailLooksValid
                (get (InterestForm.formData c) K_email)) eqn:V;
      cbn [negb]; [|left; reflexivity].
    right. split; [reflexivity|]. split; [reflexivity|].
    split; [reflexivity|]. split; [reflexivity|].
    destruct (get (InterestForm.formData c) K_email) as [|b|s];
      try discriminate V.
    exists s. cbn [InterestForm.emailLooksValid] in V.
    destruct (RegexFacts.emailPattern_length s V) as [L S].
    repeat split; [exact V | apply trim_no_space; exact S | exact L].
  - unfold InterestForm.handleSubmit, InterestForm.formData.
    destruct (InterestForm.emailExists c); [reflexivity|].
    destruct (negb (truthy (get (FormValidation.formData
                                   (InterestForm.validation c)) K_name))
              || negb (truthy (get (FormValidation.formData
                                      (InterestForm.validation c)) K_email))).
    + cbn [InterestForm.validation].
      repeat match goal with
             | |- context [if ?b then _ else _] => destruct b
             end;
      unfold FormValidation.handleFieldBlur;
      repeat match goal with
             | |- context [if ?b then _ else _] => destruct b
             | |- context [match get ?d ?k with _ => _ end] =>
                 destruct (get d k)
             end; reflexivity.
    + destruct (negb (InterestForm.emailLooksValid
                        (get (FormValidation.formData
                                (InterestForm.validation c)) K_email)));
        cbn [InterestForm.validation]; [|reflexivity].
      unfold FormValidation.handleFieldBlur.
      repeat match goal with
             | |- context [if ?b then _ else _] => destruct b
             | |- context [match get ?d ?k with _ => _ end] =>
                 destruct (get d k)
             end; reflexivity.
  - intro X. unfold InterestForm.handleSubmit. rewrite X.
    split; [reflexivity | discriminate].
  - intros sent outcome.
    assert (U : InterestForm.submission
                  (InterestForm.handleSubmitSettled sent outcome c)
                = FormSubmission.submitSettled outcome
                    (InterestForm.submission c)).
    { unfold InterestForm.handleSubmitSettled.
      destruct (InterestForm.submitSucceeded outcome); reflexivity. }
    split; [exact U|]. split; [rewrite U; apply submitSucceeded_state|].
    unfold InterestForm.handleSubmitSettled, InterestForm.formData.
    split; intros ->.
    + cbn [setTimeout InterestForm.validation InterestForm.showSuccess
           InterestForm.notices InterestForm.queue pending].
      split; [apply resetForm_formData|]. repeat split.
    + repeat split.
Qed.

Lemma interest_form_submits_typed_data_witness :
  let c := InterestForm.handleSubmit
             (InterestForm.handleFieldChange K_email
                (VString (str "ann@x.com"))
                (InterestForm.handleFieldChange K_name (VString (str "Ann"))
                   (InterestForm.mount "landing_page"))) in
  let known := InterestForm.mkForm (InterestForm.source c)
                 (InterestForm.errorMessage c) (InterestForm.validation c)
                 (InterestForm.submission c)
                 (EmailCheck.checkSettled
                    (Resolved (mkDb (Some true) None true))
                    (InterestForm.emailCheck c))
                 false None (InterestForm.queue c) (InterestForm.notices c) in
  get (InterestForm.formData c) K_name = VString (str "Ann") /\
  InterestForm.formData
    (InterestForm.handleSubmitSettled (InterestForm.formData c) annStored c)
    = InterestForm.defaultFormData /\
  InterestForm.formData
    (InterestForm.handleSubmitSettled (InterestForm.formData c)
       (Resolved (mkDb None (Some (mkJsError "down")) false)) c)
    = InterestForm.formData c /\
  InterestForm.duplicateEmailError (InterestForm.handleSubmit known) <> None.
Proof.
  intros c known.
  destruct (interest_form_submits_typed_data c) as (_ & _ & _ & G).
  destruct (G (InterestForm.formData c) annStored) as (_ & _ & S & _).
  destruct (G (InterestForm.formData c)
              (Resolved (mkDb None (Some (mkJsError "down")) false)))
    as (_ & _ & _ & F).
  destruct (interest_form_submits_typed_data known) as (_ & _ & K & _).
  split; [reflexivity|]. split; [|split].
  - destruct (S eq_refl) as [S1 _]. etransitivity; [exact S1 | reflexivity].
  - destruct (F eq_refl) as [F1 _].
    exact (f_equal FormValidation.formData F1).
  - exact (proj2 (K eq_refl)).
Defined.

(** X25: [InterestForm] can refuse a form without saying why.  The email
    test of [handleSubmit] runs on the value as typed, the validation it then
    triggers trims first: for an email with whitespace around it that
    [validateField] accepts, nothing is submitted, no field has an error,
    the form counts as valid and no duplicate-email message is set. *)
Theorem interest_form_silent_refusal (c : InterestForm.Form) (s : jstring) :
  FormValidation.validateOnBlur
    (FormValidation.options (InterestForm.validation c)) = true ->
  InterestForm.emailExists c = false ->
  truthy (get (InterestForm.formData c) K_name) = true ->
  get (InterestForm.formData c) K_email = VString s ->
  trim s <> s ->
  validateField K_email (VString s) = None ->
  let c' := InterestForm.handleSubmit c in
  InterestForm.submission c' = InterestForm.submission c /\
  FormValidation.errors
    (FormValidation.validationState (InterestForm.validation c')) = [] /\
  FormValidation.isValid
    (FormValidation.validationState (InterestForm.validation c')) = true /\
  (forall g, FormValidation.getFieldError g (InterestForm.validation c')
             = None) /\
  InterestForm.duplicateEmailError c' = None.
Proof.
  intros Hb Hx Hn He Ht Hv. cbv zeta.
  assert (S : nonEmpty s = true).
  { destruct s; [discriminate Hv | reflexivity]. }
  assert (P : test emailPattern s = false).
  { destruct (test emailPattern s) eqn:P; [|reflexivity]. exfalso. apply Ht.
    apply trim_no_space. exact (proj2 (RegexFacts.emailPattern_length s P)). }
  unfold InterestForm.handleSubmit. rewrite Hx, Hn, He.
  cbn [truthy InterestForm.emailLooksValid]. rewrite S, P. cbn [negb orb].
  cbn [InterestForm.submission InterestForm.validation
       InterestForm.duplicateEmailError].
  unfold FormValidation.handleFieldBlur, FormValidation.clearAllErrors.
  cbn [FormValidation.options FormValidation.withValidation
       FormValidation.formData].
  rewrite Hb. unfold InterestForm.formData in He. rewrite He.
  unfold FormValidation.validateSingleField, FormValidation.getFieldError.
  rewrite Hv.
  cbn [FormValidation.validationState FormValidation.withValidation
       FormValidation.errors FormValidation.isValid FormValidation.dropField
       filter List.length Nat.eqb find].
  repeat split.
Qed.

Lemma interest_form_silent_refusal_witness :
  let c := InterestForm.handleFieldChange K_email (VString (str " ann@x.com"))
             (InterestForm.handleFieldChange K_name (VString (str "Ann"))
                (InterestForm.mount "landing_page")) in
  FormSubmission.submitted
    (InterestForm.submission (InterestForm.handleSubmit c)) = [] /\
  FormValidation.isValid
    (FormValidation.validationState
       (InterestForm.validation (InterestForm.handleSubmit c))) = true.
Proof.
  intro c.
  assert (T : trim (str " ann@x.com") <> str " ann@x.com")
    by (intro X; discriminate X).
  destruct (interest_form_silent_refusal c (str " ann@x.com")
              eq_refl eq_refl eq_refl eq_refl T eq_refl)
    as (A & _ & B & _).
  rewrite A. split; [reflexivity | exact B].
Defined.

End FormsExtra.

Module CleanupExtra.
Import Js Types Database Timers Scenarios TimerFacts.
Local Open Scope string_scope.
Local Open Scope list_scope.



Lemma filter_keeps_other (C : Type) (l : list (Timer C)) (t : Timer C)
  (id : nat) :
  In t l -> tid t <> id ->
  In t (filter (fun u => negb (Nat.eqb (tid u) id)) l).
Proof.
  intros Hin Hn. apply filter_In. split; [exact Hin|].
  apply negb_true_iff. apply Nat.eqb_neq. exact Hn.
Qed.

(** X27: the cleanup of [useFormSubmission] can miss a timer.  A
    successful submission arms the auto-reset without clearing the one armed
    before, and the ref keeps the newest id only: after two successes in a
    row the cleanup at unmount cancels the second timer and leaves the first
    one pending, to call [reset] on the unmounted hook. *)
Theorem unmount_misses_earlier_reset (h : FormSubmission.Hook)
  (row1 row2 : InterestSubmission) :
  FormSubmission.autoResets (FormSubmission.options h) = true ->
  let h2 := FormSubmission.submitSettled
              (Resolved (mkDb (Some row2) None true))
              (FormSubmission.submitSettled
                 (Resolved (mkDb (Some row1) None true)) h) in
  let first := mkTimer (nextId (FormSubmission.queue h))
                 (now (FormSubmission.queue h)
                  + FormSubmission.delayOf (FormSubmission.options h))
                 FormSubmission.CbReset in
  FormSubmission.resetTimeoutRef h2
    = Some (S (nextId (FormSubmission.queue h))) /\
  In first (pending (FormSubmission.queue (FormSubmission.unmount h2))) /\
  forall t, In t (pending (FormSubmission.queue (FormSubmission.unmount h2))) ->
            tid t <> S (nextId (FormSubmission.queue h)).
Proof.
  intro Ha. cbv zeta. unfold FormSubmission.submitSettled.
  cbn [Database.success Database.data FormSubmission.options]. rewrite Ha.
  unfold setTimeout. cbn [FormSubmission.options FormSubmission.queue nextId].
  rewrite Ha. cbn [FormSubmission.resetTimeoutRef].
  split; [reflexivity|].
  unfold FormSubmission.unmount.
  cbn [FormSubmission.queue FormSubmission.withQueue
       FormSubmission.resetTimeoutRef clearRef clearTimeout pending now].
  split.
  - apply filter_keeps_other; [|cbn [tid]; lia].
    apply in_or_app. left. apply in_or_app. right. left. reflexivity.
  - intros t Ht. apply filter_In in Ht. destruct Ht as [_ Ht].
    apply negb_true_iff in Ht. apply Nat.eqb_neq in Ht. exact Ht.
Qed.

Lemma unmount_misses_earlier_reset_witness :
  let h2 := FormSubmission.submitSettled annStored afterSuccess in
  pending (FormSubmission.queue (FormSubmission.unmount h2)) <> [].
Proof.
  intro h2. intro X.
  destruct (unmount_misses_earlier_reset
              (FormSubmission.submit annForm "landing_page"
                 (FormSubmission.mount formOptions))
              annRow annRow eq_refl) as (_ & A & _).
  change (In (mkTimer 1 5000 FormSubmission.CbReset)
             (pending (FormSubmission.queue (FormSubmission.unmount h2)))) in A.
  rewrite X in A. destruct A.
Defined.

End CleanupExtra.
